(** * USB Type-C HAL (device/google/gs201, usb/usb/Usb.cpp)

    A shallow embedding of the role-switch coordinator, the status
    aggregator and the uevent dispatcher of [Usb.cpp], together with
    the properties of the design document that can be decided on it.

    Conventions of the embedding:
    - sysfs nodes are a finite map from path to contents; a node that
      is absent from the map cannot be read;
    - every function that touches the [Usb] object, a file-scope
      global or the platform threads one [State] through a small
      state-and-fault monad;
    - the order in which a [std::unordered_map] is iterated, which the
      language leaves to the library, is taken from the platform;
    - what C++ leaves undefined or answers by terminating the process
      (indexing a vector out of range, reading an AIDL union through
      the wrong tag, an exception nobody catches) is a [Fault]. *)

From stdpp Require Import gmap strings list fin_maps sorting.
From Stdlib Require Import Ascii ZArith.

Local Open Scope string_scope.
Local Open Scope list_scope.

(** ** C and libbase string helpers *)

Module CStr.

(** [isspace] of the C locale. *)
Definition isspace (c : ascii) : bool :=
  let n := nat_of_ascii c in
  Nat.eqb n 32 || (Nat.leb 9 n && Nat.leb n 13).

Definition isdigit (c : ascii) : bool :=
  let n := nat_of_ascii c in Nat.leb 48 n && Nat.leb n 57.

Fixpoint ltrim (s : string) : string :=
  match s with
  | String c s' => if isspace c then ltrim s' else s
  | EmptyString => EmptyString
  end.

Fixpoint rtrim (s : string) : string :=
  match s with
  | EmptyString => EmptyString
  | String c s' =>
      match rtrim s' with
      | EmptyString => if isspace c then EmptyString else String c EmptyString
      | r => String c r
      end
  end.

(** [android::base::Trim]: strips white space at both ends. *)
Definition Trim (s : string) : string := rtrim (ltrim s).

(** [std::string::c_str] seen as a C string: the bytes before the
    first NUL. *)
Fixpoint c_str (s : string) : string :=
  match s with
  | EmptyString => EmptyString
  | String c s' => if Ascii.eqb c zero then EmptyString else String c (c_str s')
  end.

(** [strncmp (s, k, strlen (k)) == 0]. *)
Definition starts_with (k s : string) : bool := String.prefix k s.

(** [std::string::find] and [strstr]: offset of the first occurrence,
    [None] for [npos] / [NULL]. *)
Fixpoint find (needle hay : string) : option nat :=
  if String.prefix needle hay then Some 0
  else match hay with
       | EmptyString => None
       | String _ h => S <$> find needle h
       end.

Definition strstr (hay needle : string) : bool :=
  match find needle hay with Some _ => true | None => false end.

(** [std::string::substr (pos, count)] for [pos <= size]; [count] is a
    [size_t], taken here as the non-negative integer it holds. *)
Definition substr (s : string) (pos count : Z) : string :=
  let avail := (Z.of_nat (String.length s) - pos)%Z in
  String.substring (Z.to_nat pos) (Z.to_nat (Z.min count avail)) s.

Definition is_delim (delims : string) (c : ascii) : bool :=
  existsb (Ascii.eqb c) (String.list_ascii_of_string delims).

Fixpoint tokenize_from (delims cur s : string) : list string :=
  match s with
  | EmptyString => if String.eqb cur "" then [] else [cur]
  | String c s' =>
      if is_delim delims c
      then (if String.eqb cur "" then tokenize_from delims "" s'
            else cur :: tokenize_from delims "" s')
      else tokenize_from delims (cur +:+ String c "") s'
  end.

(** [android::base::Tokenize]: the maximal runs of non-delimiter
    characters, in order; empty tokens are never produced. *)
Definition Tokenize (s delims : string) : list string :=
  tokenize_from delims "" s.

Fixpoint skip_delims (delims s : string) : string :=
  match s with
  | String c s' => if is_delim delims c then skip_delims delims s' else s
  | EmptyString => EmptyString
  end.

Fixpoint take_token (delims s : string) : string :=
  match s with
  | String c s' => if is_delim delims c then "" else String c (take_token delims s')
  | EmptyString => EmptyString
  end.

(** First token handed out by [strtok (s, delims)]. *)
Definition strtok (s delims : string) : string :=
  take_token delims (skip_delims delims s).

Fixpoint digits_val (acc : Z) (s : string) : Z :=
  match s with
  | String c s' =>
      if isdigit c
      then digits_val (acc * 10 + (Z.of_nat (nat_of_ascii c) - 48)) s'
      else acc
  | EmptyString => acc
  end.

Definition INT_MIN : Z := (- 2 ^ 31)%Z.
Definition INT_MAX : Z := (2 ^ 31 - 1)%Z.

(** [std::stoi]: leading white space, an optional sign, decimal
    digits.  [None] stands for the exception it throws when there is
    no digit ([invalid_argument]) or the value does not fit an [int]
    ([out_of_range]). *)
Definition stoi (s : string) : option Z :=
  let s1 := ltrim s in
  let '(neg, s2) :=
    match s1 with
    | String "-" r => (true, r)
    | String "+" r => (false, r)
    | _ => (false, s1)
    end in
  match s2 with
  | String c _ =>
      if isdigit c then
        let v := digits_val 0 s2 in
        let v := if neg then (- v)%Z else v in
        if (INT_MIN <=? v)%Z && (v <=? INT_MAX)%Z then Some v else None
      else None
  | EmptyString => None
  end.

End CStr.

Import CStr.

(** ** AIDL enumerations used by the HAL *)

Module Status.
Inductive t := SUCCESS | ERROR | UNRECOGNIZED_ROLE | NOT_SUPPORTED.
#[global] Instance eq_dec : EqDecision t.
Proof. solve_decision. Defined.
End Status.

Module PortPowerRole.
Inductive t := NONE | SOURCE | SINK.
#[global] Instance eq_dec : EqDecision t.
Proof. solve_decision. Defined.
End PortPowerRole.

Module PortDataRole.
Inductive t := NONE | HOST | DEVICE.
#[global] Instance eq_dec : EqDecision t.
Proof. solve_decision. Defined.
End PortDataRole.

Module PortMode.
Inductive t := NONE | UFP | DFP | DRP | AUDIO_ACCESSORY | DEBUG_ACCESSORY.
#[global] Instance eq_dec : EqDecision t.
Proof. solve_decision. Defined.
End PortMode.

Module ComplianceWarning.
Inductive t := OTHER | DEBUG_ACCESSORY | BC_1_2 | MISSING_RP | INPUT_POWER_LIMITED
             | MISSING_DATA_LINES | ENUMERATION_FAIL | FLAKY_CONNECTION | UNRELIABLE_IO.
#[global] Instance eq_dec : EqDecision t.
Proof. solve_decision. Defined.
End ComplianceWarning.

Module UsbDataStatus.
Inductive t := ENABLED | DISABLED_DOCK_DEVICE_MODE | DISABLED_FORCE.
#[global] Instance eq_dec : EqDecision t.
Proof. solve_decision. Defined.
End UsbDataStatus.

Module PowerBrickStatus.
Inductive t := UNKNOWN | CONNECTED | NOT_CONNECTED.
#[global] Instance eq_dec : EqDecision t.
Proof. solve_decision. Defined.
End PowerBrickStatus.

Module ContaminantProtectionMode.
Inductive t := FORCE_DISABLE.
End ContaminantProtectionMode.

Module ContaminantProtectionStatus.
Inductive t := NONE | FORCE_DISABLE.
End ContaminantProtectionStatus.

Module ContaminantDetectionStatus.
Inductive t := NOT_SUPPORTED | DISABLED | NOT_DETECTED | DETECTED.
End ContaminantDetectionStatus.

(** The AIDL union [PortRole]: one of three enumerations, told apart by
    its tag.  [set<tag>] replaces the whole value (and so the tag);
    [get<tag>] is only defined on the matching tag, the generated
    accessor ends the process on any other. *)
Module PortRole.
Inductive Tag := powerRole | dataRole | mode.
#[global] Instance Tag_eq_dec : EqDecision Tag.
Proof. solve_decision. Defined.

Inductive t :=
| of_powerRole (r : PortPowerRole.t)
| of_dataRole (r : PortDataRole.t)
| of_mode (m : PortMode.t).
#[global] Instance eq_dec : EqDecision t.
Proof. solve_decision. Defined.

Definition getTag (r : t) : Tag :=
  match r with
  | of_powerRole _ => powerRole
  | of_dataRole _ => dataRole
  | of_mode _ => mode
  end.

Definition get_powerRole (r : t) : option PortPowerRole.t :=
  match r with of_powerRole x => Some x | _ => None end.
Definition get_dataRole (r : t) : option PortDataRole.t :=
  match r with of_dataRole x => Some x | _ => None end.
Definition get_mode (r : t) : option PortMode.t :=
  match r with of_mode x => Some x | _ => None end.
End PortRole.

(** ** Port status *)

Record PortStatus := mkPortStatus {
  portName : string;
  currentDataRole : PortDataRole.t;
  currentPowerRole : PortPowerRole.t;
  currentMode : PortMode.t;
  canChangeMode : bool;
  canChangeDataRole : bool;
  canChangePowerRole : bool;
  supportedModes : list PortMode.t;
  supportedContaminantProtectionModes : list ContaminantProtectionMode.t;
  supportsEnableContaminantPresenceProtection : bool;
  contaminantProtectionStatus : ContaminantProtectionStatus.t;
  supportsEnableContaminantPresenceDetection : bool;
  contaminantDetectionStatus : ContaminantDetectionStatus.t;
  usbDataStatus : list UsbDataStatus.t;
  powerTransferLimited : bool;
  powerBrickStatus : PowerBrickStatus.t;
  supportsComplianceWarnings : bool;
  complianceWarnings : list ComplianceWarning.t;
}.

(** A value-initialised [PortStatus], as [std::vector::resize] creates
    it.  The struct is generated from [PortStatus.aidl], which is not
    part of [Usb.cpp]: vectors start empty, booleans false, and the
    enumerations at the initialiser the AIDL declaration gives them. *)
Definition PortStatus_init : PortStatus :=
  {| portName := "";
     currentDataRole := PortDataRole.NONE;
     currentPowerRole := PortPowerRole.NONE;
     currentMode := PortMode.NONE;
     canChangeMode := false;
     canChangeDataRole := false;
     canChangePowerRole := false;
     supportedModes := [];
     supportedContaminantProtectionModes := [];
     supportsEnableContaminantPresenceProtection := false;
     contaminantProtectionStatus := ContaminantProtectionStatus.NONE;
     supportsEnableContaminantPresenceDetection := false;
     contaminantDetectionStatus := ContaminantDetectionStatus.NOT_SUPPORTED;
     usbDataStatus := [];
     powerTransferLimited := false;
     powerBrickStatus := PowerBrickStatus.UNKNOWN;
     supportsComplianceWarnings := false;
     complianceWarnings := [] |}.

(** Field assignments [currentPortStatus[i].f = v]. *)
Definition set_portName v p :=
  let '(mkPortStatus _ a2 a3 a4 a5 a6 a7 a8 a9 a10 a11 a12 a13 a14 a15 a16 a17 a18) := p in
  mkPortStatus v a2 a3 a4 a5 a6 a7 a8 a9 a10 a11 a12 a13 a14 a15 a16 a17 a18.
Definition set_currentDataRole v p :=
  let '(mkPortStatus a1 _ a3 a4 a5 a6 a7 a8 a9 a10 a11 a12 a13 a14 a15 a16 a17 a18) := p in
  mkPortStatus a1 v a3 a4 a5 a6 a7 a8 a9 a10 a11 a12 a13 a14 a15 a16 a17 a18.
Definition set_currentPowerRole v p :=
  let '(mkPortStatus a1 a2 _ a4 a5 a6 a7 a8 a9 a10 a11 a12 a13 a14 a15 a16 a17 a18) := p in
  mkPortStatus a1 a2 v a4 a5 a6 a7 a8 a9 a10 a11 a12 a13 a14 a15 a16 a17 a18.
Definition set_currentMode v p :=
  let '(mkPortStatus a1 a2 a3 _ a5 a6 a7 a8 a9 a10 a11 a12 a13 a14 a15 a16 a17 a18) := p in
  mkPortStatus a1 a2 a3 v a5 a6 a7 a8 a9 a10 a11 a12 a13 a14 a15 a16 a17 a18.
Definition set_canChangeMode v p :=
  let '(mkPortStatus a1 a2 a3 a4 _ a6 a7 a8 a9 a10 a11 a12 a13 a14 a15 a16 a17 a18) := p in
  mkPortStatus a1 a2 a3 a4 v a6 a7 a8 a9 a10 a11 a12 a13 a14 a15 a16 a17 a18.
Definition set_canChangeDataRole v p :=
  let '(mkPortStatus a1 a2 a3 a4 a5 _ a7 a8 a9 a10 a11 a12 a13 a14 a15 a16 a17 a18) := p in
  mkPortStatus a1 a2 a3 a4 a5 v a7 a8 a9 a10 a11 a12 a13 a14 a15 a16 a17 a18.
Definition set_canChangePowerRole v p :=
  let '(mkPortStatus a1 a2 a3 a4 a5 a6 _ a8 a9 a10 a11 a12 a13 a14 a15 a16 a17 a18) := p in
  mkPortStatus a1 a2 a3 a4 a5 a6 v a8 a9 a10 a11 a12 a13 a14 a15 a16 a17 a18.
Definition set_supportedModes v p :=
  let '(mkPortStatus a1 a2 a3 a4 a5 a6 a7 _ a9 a10 a11 a12 a13 a14 a15 a16 a17 a18) := p in
  mkPortStatus a1 a2 a3 a4 a5 a6 a7 v a9 a10 a11 a12 a13 a14 a15 a16 a17 a18.
Definition set_supportedContaminantProtectionModes v p :=
  let '(mkPortStatus a1 a2 a3 a4 a5 a6 a7 a8 _ a10 a11 a12 a13 a14 a15 a16 a17 a18) := p in
  mkPortStatus a1 a2 a3 a4 a5 a6 a7 a8 v a10 a11 a12 a13 a14 a15 a16 a17 a18.
Definition set_supportsEnableContaminantPresenceProtection v p :=
  let '(mkPortStatus a1 a2 a3 a4 a5 a6 a7 a8 a9 _ a11 a12 a13 a14 a15 a16 a17 a18) := p in
  mkPortStatus a1 a2 a3 a4 a5 a6 a7 a8 a9 v a11 a12 a13 a14 a15 a16 a17 a18.
Definition set_contaminantProtectionStatus v p :=
  let '(mkPortStatus a1 a2 a3 a4 a5 a6 a7 a8 a9 a10 _ a12 a13 a14 a15 a16 a17 a18) := p in
  mkPortStatus a1 a2 a3 a4 a5 a6 a7 a8 a9 a10 v a12 a13 a14 a15 a16 a17 a18.
Definition set_supportsEnableContaminantPresenceDetection v p :=
  let '(mkPortStatus a1 a2 a3 a4 a5 a6 a7 a8 a9 a10 a11 _ a13 a14 a15 a16 a17 a18) := p in
  mkPortStatus a1 a2 a3 a4 a5 a6 a7 a8 a9 a10 a11 v a13 a14 a15 a16 a17 a18.
Definition set_contaminantDetectionStatus v p :=
  let '(mkPortStatus a1 a2 a3 a4 a5 a6 a7 a8 a9 a10 a11 a12 _ a14 a15 a16 a17 a18) := p in
  mkPortStatus a1 a2 a3 a4 a5 a6 a7 a8 a9 a10 a11 a12 v a14 a15 a16 a17 a18.
Definition set_usbDataStatus v p :=
  let '(mkPortStatus a1 a2 a3 a4 a5 a6 a7 a8 a9 a10 a11 a12 a13 _ a15 a16 a17 a18) := p in
  mkPortStatus a1 a2 a3 a4 a5 a6 a7 a8 a9 a10 a11 a12 a13 v a15 a16 a17 a18.
Definition set_powerTransferLimited v p :=
  let '(mkPortStatus a1 a2 a3 a4 a5 a6 a7 a8 a9 a10 a11 a12 a13 a14 _ a16 a17 a18) := p in
  mkPortStatus a1 a2 a3 a4 a5 a6 a7 a8 a9 a10 a11 a12 a13 a14 v a16 a17 a18.
Definition set_powerBrickStatus v p :=
  let '(mkPortStatus a1 a2 a3 a4 a5 a6 a7 a8 a9 a10 a11 a12 a13 a14 a15 _ a17 a18) := p in
  mkPortStatus a1 a2 a3 a4 a5 a6 a7 a8 a9 a10 a11 a12 a13 a14 a15 v a17 a18.
Definition set_supportsComplianceWarnings v p :=
  let '(mkPortStatus a1 a2 a3 a4 a5 a6 a7 a8 a9 a10 a11 a12 a13 a14 a15 a16 _ a18) := p in
  mkPortStatus a1 a2 a3 a4 a5 a6 a7 a8 a9 a10 a11 a12 a13 a14 a15 a16 v a18.
Definition set_complianceWarnings v p :=
  let '(mkPortStatus a1 a2 a3 a4 a5 a6 a7 a8 a9 a10 a11 a12 a13 a14 a15 a16 a17 _) := p in
  mkPortStatus a1 a2 a3 a4 a5 a6 a7 a8 a9 a10 a11 a12 a13 a14 a15 a16 a17 v.

(** [push_back] on the vector-valued fields. *)
Definition push_supportedModes v p := set_supportedModes (supportedModes p ++ [v]) p.
Definition push_supportedContaminantProtectionModes v p :=
  set_supportedContaminantProtectionModes (supportedContaminantProtectionModes p ++ [v]) p.
Definition push_usbDataStatus v p := set_usbDataStatus (usbDataStatus p ++ [v]) p.
Definition push_complianceWarnings v p := set_complianceWarnings (complianceWarnings p ++ [v]) p.

(** [std::vector::resize]. *)
Definition resize (n : nat) (ports : list PortStatus) : list PortStatus :=
  take n ports ++ replicate (n - length ports) PortStatus_init.

(** ** Platform and process state *)

Record dirent := mkDirent { d_name : string; d_is_lnk : bool }.

Record timespec := mkTimespec { tv_sec : Z; tv_nsec : Z }.

(** One return of [pthread_cond_timedwait] that is not a timeout: the
    monotonic time at which the waiter wakes, and whether the uevent
    thread has raised [mPartnerUp] by then (a wake without it is a
    spurious one). *)
Record wake := mkWake { wk_time : timespec; wk_partner : bool }.

(** Calls into [IUsbCallback] and the other effects that leave the
    process, in the order they happen. *)
Inductive Event :=
| EvWrite (path data : string)
| EvTimedWait (deadline : timespec)
| EvSignal
| EvSleep (ms : Z)
| EvOverheat (trip hysteresis cleared : Z)
| notifyPortStatusChange (ports : list PortStatus) (st : Status.t)
| notifyRoleSwitchStatus (port : string) (role : PortRole.t) (st : Status.t) (id : Z)
| notifyEnableUsbDataStatus (port : string) (enable : bool) (st : Status.t) (id : Z)
| notifyEnableUsbDataWhileDockedStatus (port : string) (st : Status.t) (id : Z)
| notifyResetUsbPortStatus (port : string) (st : Status.t) (id : Z)
| notifyLimitPowerTransferStatus (port : string) (limit : bool) (st : Status.t) (id : Z)
| notifyContaminantEnabledStatus (port : string) (enable : bool) (st : Status.t) (id : Z)
| notifyQueryPortStatus (port : string) (st : Status.t) (id : Z).

(** What the HAL finds around it and never changes itself. *)
Record Platform := mkPlatform {
  (* nodes that cannot be opened for writing *)
  pf_nowrite : gset string;
  (* value [fputs] returns on a stream opened on the node; [EOF] is -1 *)
  pf_fputs : string -> Z;
  (* the [readdir] stream of /sys/class/typec, [None] when [opendir] fails *)
  pf_typec : option (list dirent);
  (* where the hash table of a [std::unordered_map] keeps a key: the
     iteration goes by increasing position *)
  pf_bucket : string -> nat;
  (* the other directories [opendir] and [open] can open *)
  pf_dirs : gset string;
  (* system properties *)
  pf_props : gmap string string;
  (* what [getI2cClientPath] resolves to, empty when it finds nothing *)
  pf_i2c : string;
  (* [UsbDataSessionMonitor::getComplianceWarnings] *)
  pf_session : PortDataRole.t -> list ComplianceWarning.t;
  (* aconfig flags *)
  enable_usb_data_compliance_warning : bool;
  enable_input_power_limited_warning : bool;
  (* whether [getStatsService] returns a client *)
  pf_stats : bool;
}.

Record State := mkState {
  (* the [Usb] object *)
  mCallback : bool;
  mPartnerUp : bool;
  mUsbDataEnabled : bool;
  mI2cClientPath : string;
  mRoleSwitchLock : bool;
  (* file-scope global *)
  enabledPath : string;
  (* sysfs and configfs nodes *)
  files : gmap string string;
  (* CLOCK_MONOTONIC and the wakes still to come on [mPartnerCV] *)
  clock : timespec;
  wakes : list wake;
  (* effects so far, oldest first *)
  trace : list Event;
  platform : Platform;
}.

Definition set_mPartnerUp (v : bool) (s : State) : State :=
  mkState (mCallback s) v (mUsbDataEnabled s) (mI2cClientPath s) (mRoleSwitchLock s)
          (enabledPath s) (files s) (clock s) (wakes s) (trace s) (platform s).
Definition set_mUsbDataEnabled (v : bool) (s : State) : State :=
  mkState (mCallback s) (mPartnerUp s) v (mI2cClientPath s) (mRoleSwitchLock s)
          (enabledPath s) (files s) (clock s) (wakes s) (trace s) (platform s).
Definition set_mI2cClientPath (v : string) (s : State) : State :=
  mkState (mCallback s) (mPartnerUp s) (mUsbDataEnabled s) v (mRoleSwitchLock s)
          (enabledPath s) (files s) (clock s) (wakes s) (trace s) (platform s).
Definition set_mRoleSwitchLock (v : bool) (s : State) : State :=
  mkState (mCallback s) (mPartnerUp s) (mUsbDataEnabled s) (mI2cClientPath s) v
          (enabledPath s) (files s) (clock s) (wakes s) (trace s) (platform s).
Definition set_enabledPath (v : string) (s : State) : State :=
  mkState (mCallback s) (mPartnerUp s) (mUsbDataEnabled s) (mI2cClientPath s) (mRoleSwitchLock s)
          v (files s) (clock s) (wakes s) (trace s) (platform s).
Definition set_files (v : gmap string string) (s : State) : State :=
  mkState (mCallback s) (mPartnerUp s) (mUsbDataEnabled s) (mI2cClientPath s) (mRoleSwitchLock s)
          (enabledPath s) v (clock s) (wakes s) (trace s) (platform s).
Definition set_clock (v : timespec) (s : State) : State :=
  mkState (mCallback s) (mPartnerUp s) (mUsbDataEnabled s) (mI2cClientPath s) (mRoleSwitchLock s)
          (enabledPath s) (files s) v (wakes s) (trace s) (platform s).
Definition set_wakes (v : list wake) (s : State) : State :=
  mkState (mCallback s) (mPartnerUp s) (mUsbDataEnabled s) (mI2cClientPath s) (mRoleSwitchLock s)
          (enabledPath s) (files s) (clock s) v (trace s) (platform s).
Definition set_trace (v : list Event) (s : State) : State :=
  mkState (mCallback s) (mPartnerUp s) (mUsbDataEnabled s) (mI2cClientPath s) (mRoleSwitchLock s)
          (enabledPath s) (files s) (clock s) (wakes s) v (platform s).

(** ** Faults, results and the state monad *)

Inductive Fault :=
| OutOfBounds          (* [v[i]] with [i >= v.size()] *)
| BadUnionAccess       (* [get<tag>] on a union holding another tag *)
| UncaughtException.   (* [std::stoi] throwing with no handler *)

(** Read-only code that may fault. *)
Inductive result (A : Type) := Ok (a : A) | Err (f : Fault).
Arguments Ok {A} a.
Arguments Err {A} f.

#[global] Instance result_ret : MRet result := fun A a => Ok a.
#[global] Instance result_bind : MBind result :=
  fun A B k m => match m with Ok a => k a | Err f => Err f end.

(** Code that changes the state; a fault keeps the state it happened in. *)
Inductive Outcome (A : Type) := Done (a : A) (s : State) | Crash (f : Fault) (s : State).
Arguments Done {A} a s.
Arguments Crash {A} f s.

Definition M (A : Type) : Type := State -> Outcome A.

#[global] Instance M_ret : MRet M := fun A a s => Done a s.
#[global] Instance M_bind : MBind M :=
  fun A B k m s => match m s with Done a s' => k a s' | Crash f s' => Crash f s' end.

Definition gets {A} (f : State -> A) : M A := fun s => Done (f s) s.
Definition modify (f : State -> State) : M unit := fun s => Done tt (f s).
Definition crash {A} (f : Fault) : M A := fun s => Crash f s.
Definition lift {A} (r : State -> result A) : M A :=
  fun s => match r s with Ok a => Done a s | Err f => Crash f s end.
Definition emit (e : Event) : M unit := modify (fun s => set_trace (trace s ++ [e]) s).

(** The state an outcome ends in, and its trace. *)
Definition final {A} (o : Outcome A) : State :=
  match o with Done _ s => s | Crash _ s => s end.

(** ** File primitives *)

Definition EOF : Z := (-1)%Z.
Definition EAGAIN : Z := 11%Z.
Definition ETIMEDOUT : Z := 110%Z.

(** [android::base::ReadFileToString]. *)
Definition read_file (s : State) (path : string) : option string := files s !! path.
Definition ReadFileToString (path : string) : M (option string) :=
  gets (fun s => read_file s path).

(** Whether a node can be opened for writing: never under the empty
    path, and not when the platform refuses it. *)
Definition writable (s : State) (path : string) : bool :=
  negb (String.eqb path "") && bool_decide (path ∉ pf_nowrite (platform s)).

(** [android::base::WriteStringToFile]: the node takes the content, or
    cannot be opened and stays as it is. *)
Definition WriteStringToFile (content path : string) : M bool :=
  fun s =>
    if writable s path
    then Done true (set_trace (trace s ++ [EvWrite path content])
                      (set_files (<[path := content]> (files s)) s))
    else Done false s.

(** [fopen (path, "w")]: [false] for [NULL]; a stream that opens
    starts from an empty node. *)
Definition fopen_w (path : string) : M bool :=
  fun s =>
    if writable s path
    then Done true (set_files (<[path := ""]> (files s)) s)
    else Done false s.

(** [fputs (data, fp)] on the stream opened on [path], followed at some
    point by [fclose]: a successful call adds [data] to the node. *)
Definition fputs (data path : string) : M Z :=
  fun s =>
    let ret := pf_fputs (platform s) path in
    if decide (ret = EOF) then Done ret s
    else Done ret (set_trace (trace s ++ [EvWrite path data])
                     (set_files (<[path := default "" (files s !! path) +:+ data]> (files s)) s)).

(** [opendir] / [open] used as an existence test. *)
Definition dir_exists (s : State) (path : string) : bool :=
  bool_decide (path ∈ pf_dirs (platform s)).

(** [android::base::GetProperty]. *)
Definition GetProperty (s : State) (key dflt : string) : string :=
  match pf_props (platform s) !! key with
  | Some v => if String.eqb v "" then dflt else v
  | None => dflt
  end.

(** ** Time and the partner condition variable *)

Definition timespec_ltb (a b : timespec) : bool :=
  (tv_sec a <? tv_sec b)%Z || ((tv_sec a =? tv_sec b)%Z && (tv_nsec a <? tv_nsec b)%Z).

Definition timespec_leb (a b : timespec) : bool := negb (timespec_ltb b a).

Definition later (a b : timespec) : timespec := if timespec_ltb a b then b else a.

(** [clock_gettime (CLOCK_MONOTONIC, &now)]. *)
Definition clock_gettime : M timespec := gets clock.

(** [pthread_cond_timedwait (&mPartnerCV, &mPartnerLock, &to)]: returns 0
    at the next wake when that comes before the deadline [to], and
    [ETIMEDOUT] at the deadline otherwise. *)
Definition pthread_cond_timedwait (to : timespec) : M Z :=
  fun s =>
    let s := set_trace (trace s ++ [EvTimedWait to]) s in
    match wakes s with
    | wk :: rest =>
        if timespec_ltb (wk_time wk) to
        then Done 0%Z (set_mPartnerUp (mPartnerUp s || wk_partner wk)
                         (set_clock (later (clock s) (wk_time wk)) (set_wakes rest s)))
        else Done ETIMEDOUT (set_clock (later (clock s) to) s)
    | [] => Done ETIMEDOUT (set_clock (later (clock s) to) s)
    end.

(** ** The functions of Usb.cpp *)

Definition kComplianceWarningsPath := "device/non_compliant_reasons".
Definition kComplianceWarningBC12 := "bc12".
Definition kComplianceWarningDebugAccessory := "debug-accessory".
Definition kComplianceWarningMissingRp := "missing_rp".
Definition kComplianceWarningOther := "other".
Definition kComplianceWarningInputPowerLimited := "input_power_limited".
Definition kContaminantDetectionPath := "contaminant_detection".
Definition kStatusPath := "contaminant_detection_status".
Definition kSinkLimitEnable := "usb_limit_sink_enable".
Definition kSourceLimitEnable := "usb_limit_source_enable".
Definition kSinkLimitCurrent := "usb_limit_sink_current".
Definition kTypecPath := "/sys/class/typec".
Definition kDisableContatminantDetection := "vendor.usb.contaminantdisable".
Definition kOverheatStatsPath := "/sys/devices/platform/google,usbc_port_cooling_dev/".
Definition kOverheatStatsDev := "DRIVER=google,usbc_port_cooling_dev".
Definition kPogoUsbActive := "/sys/devices/platform/google,pogo/pogo_usb_active".
Definition KPogoMoveDataToUsb := "/sys/devices/platform/google,pogo/move_data_to_usb".
Definition kPowerSupplyUsbType := "/sys/class/power_supply/usb/usb_type".

(** The delimiters of the warnings file: the literal of the source
    ends at its first NUL. *)
Definition kReasonDelimiters : string := "[], " +:+ String "010"%char "".

(** The feature toggle that tells INPUT_POWER_LIMITED from OTHER. *)
Definition input_power_limited_toggle (s : State) : bool :=
  enable_usb_data_compliance_warning (platform s)
  && enable_input_power_limited_warning (platform s).

(** One pass of the loop over [reasonsList]. *)
Definition pushReason (s : State) (reason : string) (p : PortStatus) : PortStatus :=
  let r := c_str reason in
  if starts_with kComplianceWarningDebugAccessory r
  then push_complianceWarnings ComplianceWarning.DEBUG_ACCESSORY p
  else if starts_with kComplianceWarningBC12 r
  then push_complianceWarnings ComplianceWarning.BC_1_2 p
  else if starts_with kComplianceWarningMissingRp r
  then push_complianceWarnings ComplianceWarning.MISSING_RP p
  else if starts_with kComplianceWarningOther r
          || starts_with kComplianceWarningInputPowerLimited r
  then (if input_power_limited_toggle s
        then push_complianceWarnings ComplianceWarning.INPUT_POWER_LIMITED p
        else push_complianceWarnings ComplianceWarning.OTHER p)
  else p.

(** The body of the loop over the ports in
    [queryNonCompliantChargerStatus]. *)
Definition nonCompliantChargerPort (s : State) (p : PortStatus) : PortStatus :=
  let p := set_supportsComplianceWarnings true p in
  let path := kTypecPath +:+ "/" +:+ portName p +:+ "/" +:+ kComplianceWarningsPath in
  match read_file s (c_str path) with
  | Some reasons =>
      let reasonsList := Tokenize (c_str reasons) kReasonDelimiters in
      let p := foldl (fun p reason => pushReason s reason p) p reasonsList in
      if bool_decide (0 < length (complianceWarnings p))
         && bool_decide (currentPowerRole p = PortPowerRole.NONE)
      then set_powerBrickStatus PowerBrickStatus.CONNECTED
             (set_currentDataRole PortDataRole.NONE
                (set_currentPowerRole PortPowerRole.SINK
                   (set_currentMode PortMode.UFP p)))
      else p
  | None => p
  end.

Definition queryNonCompliantChargerStatus (s : State) (ports : list PortStatus)
  : Status.t * list PortStatus :=
  (Status.SUCCESS, map (nonCompliantChargerPort s) ports).

(** The [default] branch of the source (empty string) cannot be taken:
    a tag read off a [PortRole] is one of the three. *)
Definition appendRoleNodeHelper (portName : string) (tag : PortRole.Tag) : string :=
  let node := "/sys/class/typec/" +:+ portName in
  match tag with
  | PortRole.dataRole => node +:+ "/data_role"
  | PortRole.powerRole => node +:+ "/power_role"
  | PortRole.mode => node +:+ "/port_type"
  end.

Definition convertRoletoString (role : PortRole.t) : string :=
  match role with
  | PortRole.of_powerRole PortPowerRole.SOURCE => "source"
  | PortRole.of_powerRole PortPowerRole.SINK => "sink"
  | PortRole.of_dataRole PortDataRole.HOST => "host"
  | PortRole.of_dataRole PortDataRole.DEVICE => "device"
  | PortRole.of_mode PortMode.UFP => "sink"
  | PortRole.of_mode PortMode.DFP => "source"
  | _ => "none"
  end.

(** [last - first - 1] is computed on [size_t]: it wraps when the
    closing bracket comes first. *)
Definition extractRole (roleName : string) : string :=
  match find "[" roleName, find "]" roleName with
  | Some first, Some last =>
      substr roleName (Z.of_nat first + 1)
        ((Z.of_nat last - Z.of_nat first - 1) mod 2 ^ 64)%Z
  | _, _ => roleName
  end.

Definition switchToDrp (portName : string) : M unit :=
  let filename := appendRoleNodeHelper (c_str portName) PortRole.mode in
  if negb (String.eqb filename "") then
    fp ← fopen_w filename;
    if fp : bool then
      ret ← fputs "dual" filename;
      mret tt
    else mret tt
  else mret tt.

(** The block that [queryMoistureDetectionStatus],
    [queryPowerTransferStatus] and [limitPowerTransfer] all start with:
    resolve the I2C client path once and keep it.  [false] when it
    cannot be located. *)
Definition locateI2cClient : M bool :=
  path ← gets mI2cClientPath;
  if String.eqb path "" then
    found ← gets (fun s => pf_i2c (platform s));
    modify (set_mI2cClientPath found);;
    mret (negb (String.eqb found ""))
  else mret true.

Definition queryMoistureDetectionStatus (ports : list PortStatus)
  : M (Status.t * list PortStatus) :=
  match ports !! 0 with
  | None => crash OutOfBounds
  | Some p0 =>
      let p0 :=
        set_supportsEnableContaminantPresenceProtection false
          (set_supportsEnableContaminantPresenceDetection true
             (set_contaminantDetectionStatus ContaminantDetectionStatus.DISABLED
                (set_contaminantProtectionStatus ContaminantProtectionStatus.NONE
                   (push_supportedContaminantProtectionModes
                      ContaminantProtectionMode.FORCE_DISABLE p0)))) in
      let ports := <[0 := p0]> ports in
      located ← locateI2cClient;
      if negb located then mret (Status.ERROR, ports)
      else
        i2c ← gets mI2cClientPath;
        modify (set_enabledPath (i2c +:+ kContaminantDetectionPath));;
        enabled ← ReadFileToString (i2c +:+ kContaminantDetectionPath);
        match enabled with
        | None => mret (Status.ERROR, ports)
        | Some enabled =>
            if String.eqb (Trim enabled) "1" then
              status ← ReadFileToString (i2c +:+ kStatusPath);
              match status with
              | None => mret (Status.ERROR, ports)
              | Some status =>
                  if String.eqb (Trim status) "1"
                  then mret (Status.SUCCESS,
                             <[0 := set_contaminantProtectionStatus
                                      ContaminantProtectionStatus.FORCE_DISABLE
                                      (set_contaminantDetectionStatus
                                         ContaminantDetectionStatus.DETECTED p0)]> ports)
                  else mret (Status.SUCCESS,
                             <[0 := set_contaminantDetectionStatus
                                      ContaminantDetectionStatus.NOT_DETECTED p0]> ports)
              end
            else mret (Status.SUCCESS, ports)
        end
  end.

Definition queryPowerTransferStatus (ports : list PortStatus)
  : M (Status.t * list PortStatus) :=
  located ← locateI2cClient;
  if negb located then mret (Status.ERROR, ports)
  else
    i2c ← gets mI2cClientPath;
    enabled ← ReadFileToString (i2c +:+ kSinkLimitEnable);
    match enabled with
    | None => mret (Status.ERROR, ports)
    | Some enabled =>
        match ports !! 0 with
        | None => crash OutOfBounds
        | Some p0 =>
            mret (Status.SUCCESS,
                  <[0 := set_powerTransferLimited (String.eqb (Trim enabled) "1") p0]> ports)
        end
    end.

Definition getAccessoryConnected (s : State) (portName : string) : Status.t * string :=
  let filename := "/sys/class/typec/" +:+ portName +:+ "-partner/accessory_mode" in
  match read_file s filename with
  | None => (Status.ERROR, "")
  | Some accessory => (Status.SUCCESS, Trim accessory)
  end.

(** The role names are matched whatever the tag of the query is, and
    ["source"] and ["sink"] always store a power role: the union that
    comes back may hold another tag than the one it came in with. *)
Definition getCurrentRoleHelper (s : State) (portName : string) (connected : bool)
    (currentRole : PortRole.t) : Status.t * PortRole.t :=
  let tag := PortRole.getTag currentRole in
  let '(filename, currentRole) :=
    match tag with
    | PortRole.powerRole =>
        ("/sys/class/typec/" +:+ portName +:+ "/power_role",
         PortRole.of_powerRole PortPowerRole.NONE)
    | PortRole.dataRole =>
        ("/sys/class/typec/" +:+ portName +:+ "/data_role",
         PortRole.of_dataRole PortDataRole.NONE)
    | PortRole.mode =>
        ("/sys/class/typec/" +:+ portName +:+ "/data_role",
         PortRole.of_mode PortMode.NONE)
    end in
  if negb connected then (Status.SUCCESS, currentRole)
  else
    let early : option (Status.t * PortRole.t) :=
      if decide (tag = PortRole.mode) then
        match getAccessoryConnected s portName with
        | (Status.SUCCESS, accessory) =>
            if String.eqb accessory "analog_audio"
            then Some (Status.SUCCESS, PortRole.of_mode PortMode.AUDIO_ACCESSORY)
            else if String.eqb accessory "debug"
            then Some (Status.SUCCESS, PortRole.of_mode PortMode.DEBUG_ACCESSORY)
            else None
        | _ => Some (Status.ERROR, currentRole)
        end
      else None in
    match early with
    | Some r => r
    | None =>
        match read_file s filename with
        | None => (Status.ERROR, currentRole)
        | Some roleName =>
            let roleName := extractRole (Trim roleName) in
            if String.eqb roleName "source"
            then (Status.SUCCESS, PortRole.of_powerRole PortPowerRole.SOURCE)
            else if String.eqb roleName "sink"
            then (Status.SUCCESS, PortRole.of_powerRole PortPowerRole.SINK)
            else if String.eqb roleName "host"
            then (Status.SUCCESS,
                  if decide (tag = PortRole.dataRole)
                  then PortRole.of_dataRole PortDataRole.HOST
                  else PortRole.of_mode PortMode.DFP)
            else if String.eqb roleName "device"
            then (Status.SUCCESS,
                  if decide (tag = PortRole.dataRole)
                  then PortRole.of_dataRole PortDataRole.DEVICE
                  else PortRole.of_mode PortMode.UFP)
            else if negb (String.eqb roleName "none")
            then (Status.UNRECOGNIZED_ROLE, currentRole)
            else (Status.SUCCESS, currentRole)
        end
    end.

(** One [readdir] entry.  [names] is the [unordered_map]: a port is
    entered as not connected unless it is there already, and its
    partner link marks it connected. *)
Definition addPortName (names : gmap string bool) (ep : dirent) : gmap string bool :=
  if d_is_lnk ep then
    match find "-partner" (d_name ep) with
    | None =>
        match names !! d_name ep with
        | None => <[d_name ep := false]> names
        | Some _ => names
        end
    | Some _ => <[strtok (d_name ep) "-" := true]> names
    end
  else names.

Definition getTypeCPortNamesHelper (s : State) (names : gmap string bool)
  : Status.t * gmap string bool :=
  match pf_typec (platform s) with
  | Some entries => (Status.SUCCESS, foldl addPortName names entries)
  | None => (Status.ERROR, names)
  end.

Definition canSwitchRoleHelper (s : State) (portName : string) : bool :=
  let filename := "/sys/class/typec/" +:+ portName +:+ "-partner/supports_usb_power_delivery" in
  match read_file s filename with
  | Some supportsPD => String.eqb (Trim supportsPD) "yes"
  | None => false
  end.

(** [get<tag>] of the generated union. *)
Definition union_get {A} (o : option A) : result A :=
  match o with Some a => Ok a | None => Err BadUnionAccess end.

(** The data-enablement block of the loop body. *)
Definition usbDataStatusOf (s : State) (p : PortStatus) : result PortStatus :=
  docked ←
    match read_file s kPogoUsbActive with
    | Some pogoUsbActive =>
        match stoi (Trim pogoUsbActive) with
        | Some v => Ok (bool_decide (v = 1%Z))
        | None => Err UncaughtException
        end
    | None => Ok false
    end;
  let p1 := if docked : bool
            then push_usbDataStatus UsbDataStatus.DISABLED_DOCK_DEVICE_MODE p else p in
  let p2 := if negb (mUsbDataEnabled s)
            then push_usbDataStatus UsbDataStatus.DISABLED_FORCE p1 else p1 in
  let dataEnabled := negb docked && mUsbDataEnabled s in
  Ok (if dataEnabled then push_usbDataStatus UsbDataStatus.ENABLED p2 else p2).

(** The power-brick block of the loop body. *)
Definition powerBrickStatusOf (s : State) (connected : bool) (p : PortStatus) : PortStatus :=
  if connected then
    if decide (currentPowerRole p = PortPowerRole.SOURCE)
    then set_powerBrickStatus PowerBrickStatus.NOT_CONNECTED p
    else match read_file s kPowerSupplyUsbType with
         | Some usbType =>
             if strstr (c_str usbType) "[D"
             then set_powerBrickStatus PowerBrickStatus.CONNECTED p
             else if strstr (c_str usbType) "[U"
             then set_powerBrickStatus PowerBrickStatus.UNKNOWN p
             else set_powerBrickStatus PowerBrickStatus.NOT_CONNECTED p
         | None => p
         end
  else set_powerBrickStatus PowerBrickStatus.NOT_CONNECTED p.

(** The body of the loop over [names] in [getPortStatusHelper], on the
    element [currentPortStatus[i]].  The boolean is [false] when the
    body leaves through [goto done]; the element keeps what was stored
    in it until then. *)
Definition portStatusBody (s : State) (port : string * bool) (p : PortStatus)
  : result (bool * PortStatus) :=
  let p := set_portName port.1 p in
  let currentRole := PortRole.of_powerRole PortPowerRole.NONE in
  let '(st, currentRole) := getCurrentRoleHelper s port.1 port.2 currentRole in
  if negb (bool_decide (st = Status.SUCCESS)) then Ok (false, p)
  else
    power ← union_get (PortRole.get_powerRole currentRole);
    let p := set_currentPowerRole power p in
    let currentRole := PortRole.of_dataRole PortDataRole.NONE in
    let '(st, currentRole) := getCurrentRoleHelper s port.1 port.2 currentRole in
    if negb (bool_decide (st = Status.SUCCESS)) then Ok (false, p)
    else
      data ← union_get (PortRole.get_dataRole currentRole);
      let p := set_currentDataRole data p in
      let currentRole := PortRole.of_mode PortMode.NONE in
      let '(st, currentRole) := getCurrentRoleHelper s port.1 port.2 currentRole in
      if negb (bool_decide (st = Status.SUCCESS)) then Ok (false, p)
      else
        mode ← union_get (PortRole.get_mode currentRole);
        let p := set_currentMode mode p in
        let p := set_canChangeMode true p in
        let p := set_canChangeDataRole
                   (if port.2 then canSwitchRoleHelper s port.1 else false) p in
        let p := set_canChangePowerRole
                   (if port.2 then canSwitchRoleHelper s port.1 else false) p in
        let p := push_supportedModes PortMode.DRP p in
        p ← usbDataStatusOf s p;
        Ok (true, powerBrickStatusOf s port.2 p).

(** The loop over [names]; [i] is the index of the next element.  The
    vector has been resized to the number of names, so the index is
    always in range. *)
Fixpoint portStatusLoop (s : State) (names : list (string * bool)) (i : nat)
    (ports : list PortStatus) : result (Status.t * list PortStatus) :=
  match names with
  | [] => Ok (Status.SUCCESS, ports)
  | port :: rest =>
      match ports !! i with
      | None => Err OutOfBounds
      | Some p =>
          '(ok, p') ← portStatusBody s port p;
          let ports := <[i := p']> ports in
          if ok : bool then portStatusLoop s rest (S i) ports
          else Ok (Status.ERROR, ports)
      end
  end.

(** The range-based [for] over a [std::unordered_map].  The language
    leaves the order of the iteration to the library, which goes
    through its hash table: the elements come by the position the
    platform gives to their keys, whatever that is. *)
Definition bucket_le (s : State) (x y : string * bool) : Prop :=
  pf_bucket (platform s) x.1 <= pf_bucket (platform s) y.1.

#[global] Instance bucket_le_dec (s : State) : RelDecision (bucket_le s) :=
  fun x y => Nat.le_dec (pf_bucket (platform s) x.1) (pf_bucket (platform s) y.1).

Definition unordered_iteration (s : State) (names : gmap string bool)
  : list (string * bool) :=
  merge_sort (bucket_le s) (map_to_list names).

Definition getPortStatusHelper (s : State) (ports : list PortStatus)
  : result (Status.t * list PortStatus) :=
  let '(result, names) := getTypeCPortNamesHelper s ∅ in
  if bool_decide (result = Status.SUCCESS) then
    let ports := resize (size names) ports in
    portStatusLoop s (unordered_iteration s names) 0 ports
  else Ok (Status.ERROR, ports).

Definition queryUsbDataSession (s : State) (ports : list PortStatus)
  : result (list PortStatus) :=
  match ports !! 0 with
  | None => Err OutOfBounds
  | Some p0 =>
      let warnings := pf_session (platform s) (currentDataRole p0) in
      Ok (<[0 := set_complianceWarnings (complianceWarnings p0 ++ warnings) p0]> ports)
  end.

Definition queryVersionHelper (ports : list PortStatus) : M (list PortStatus) :=
  '(status, ports) ← lift (fun s => getPortStatusHelper s ports);
  '(_, ports) ← queryMoistureDetectionStatus ports;
  '(_, ports) ← queryPowerTransferStatus ports;
  ports ← gets (fun s => (queryNonCompliantChargerStatus s ports).2);
  ports ← lift (fun s => queryUsbDataSession s ports);
  cb ← gets mCallback;
  (if cb : bool then emit (notifyPortStatusChange ports status) else mret tt);;
  mret ports.

Definition updatePortStatus : M unit :=
  queryVersionHelper [];; mret tt.

Definition report_overheat_event : M unit :=
  trip ← ReadFileToString (kOverheatStatsPath +:+ "trip_time");
  match trip with
  | None => mret tt
  | Some trip =>
      match stoi (Trim trip) with
      | None => crash UncaughtException
      | Some trip =>
          hyst ← ReadFileToString (kOverheatStatsPath +:+ "hysteresis_time");
          match hyst with
          | None => mret tt
          | Some hyst =>
              match stoi (Trim hyst) with
              | None => crash UncaughtException
              | Some hyst =>
                  cleared ← ReadFileToString (kOverheatStatsPath +:+ "cleared_time");
                  match cleared with
                  | None => mret tt
                  | Some cleared =>
                      match stoi (Trim cleared) with
                      | None => crash UncaughtException
                      | Some cleared =>
                          stats ← gets (fun s => pf_stats (platform s));
                          if stats : bool then emit (EvOverheat trip hyst cleared)
                          else mret tt
                      end
                  end
              end
          end
      end
  end.

(** [std::regex_match] of a record against the expression made of the
    three groups [add], [.*] and [-partner]: the whole record is "add",
    then any characters but line terminators, then "-partner". *)
Definition is_line_terminator (c : ascii) : bool :=
  Ascii.eqb c "010"%char || Ascii.eqb c "013"%char.

Definition partnerAdded (cp : string) : bool :=
  let n := String.length cp in
  Nat.leb 11 n
  && String.eqb (String.substring 0 3 cp) "add"
  && String.eqb (String.substring (n - 8) 8 cp) "-partner"
  && negb (existsb is_line_terminator
             (String.list_ascii_of_string (String.substring 3 (n - 11) cp))).

Section Hal.

(** Macros and constants of [Usb.h] and of the pixelusb headers, which
    [Usb.cpp] includes. *)
Variables PULLUP_PATH ID_PATH VBUS_PATH USB_DATA_PATH kGadgetName : string.
Variables PORT_TYPE_TIMEOUT ROLE_SWAP_RETRY_MS UEVENT_MSG_LEN : Z.

Definition enableUsbData (in_portName : string) (in_enable : bool)
    (in_transactionId : Z) : M unit :=
  result ←
    (if in_enable then
       enabled ← gets mUsbDataEnabled;
       if negb enabled then
         pullup ← ReadFileToString PULLUP_PATH;
         r1 ← match pullup with
              | Some pullup =>
                  if negb (String.eqb (Trim pullup) kGadgetName)
                  then WriteStringToFile kGadgetName PULLUP_PATH
                  else mret true
              | None => mret true
              end;
         r2 ← WriteStringToFile "1" USB_DATA_PATH;
         mret (r1 && r2)
       else mret true
     else
       pullup ← ReadFileToString PULLUP_PATH;
       r1 ← match pullup with
            | Some pullup =>
                if String.eqb (Trim pullup) kGadgetName
                then WriteStringToFile "none" PULLUP_PATH
                else mret true
            | None => mret true
            end;
       r2 ← WriteStringToFile "1" ID_PATH;
       r3 ← WriteStringToFile "0" VBUS_PATH;
       r4 ← WriteStringToFile "0" USB_DATA_PATH;
       mret (r1 && r2 && r3 && r4));
  (if result : bool then modify (set_mUsbDataEnabled in_enable) else mret tt);;
  cb ← gets mCallback;
  (if cb : bool
   then emit (notifyEnableUsbDataStatus in_portName in_enable
                (if result : bool then Status.SUCCESS else Status.ERROR) in_transactionId)
   else mret tt);;
  queryVersionHelper [];;
  mret tt.

Definition enableUsbDataWhileDocked (in_portName : string) (in_transactionId : Z)
  : M unit :=
  present ← gets (fun s => dir_exists s KPogoMoveDataToUsb);
  success ← (if present : bool then WriteStringToFile "1" KPogoMoveDataToUsb
             else mret true);
  let notSupported := negb present in
  cb ← gets mCallback;
  (if cb : bool
   then emit (notifyEnableUsbDataWhileDockedStatus in_portName
                (if notSupported then Status.NOT_SUPPORTED
                 else if success : bool then Status.SUCCESS else Status.ERROR)
                in_transactionId)
   else mret tt);;
  queryVersionHelper [];;
  mret tt.

Definition resetUsbPort (in_portName : string) (in_transactionId : Z) : M unit :=
  result ← WriteStringToFile "none" PULLUP_PATH;
  cb ← gets mCallback;
  (if cb : bool
   then emit (notifyResetUsbPortStatus in_portName
                (if result : bool then Status.SUCCESS else Status.ERROR) in_transactionId)
   else mret tt).

(** The wait of [switchMode], from the label [wait_again] on.  Every
    [goto wait_again] follows a wake that was consumed, so a budget
    of as many re-waits as there are wakes is never used up. *)
Fixpoint wait_again (budget : nat) : M bool :=
  now ← clock_gettime;
  let to := mkTimespec (tv_sec now + PORT_TYPE_TIMEOUT) (tv_nsec now) in
  err ← pthread_cond_timedwait to;
  if decide (err = ETIMEDOUT) then mret false
  else
    up ← gets mPartnerUp;
    if negb up then
      match budget with
      | S budget' => wait_again budget'
      | O => mret false
      end
    else mret true.

Definition switchMode (portName : string) (in_role : PortRole.t) : M bool :=
  let filename := appendRoleNodeHelper (c_str portName) (PortRole.getTag in_role) in
  if String.eqb filename "" then mret false
  else
    fp ← fopen_w filename;
    roleSwitch ←
      (if fp : bool then
         modify (set_mPartnerUp false);;
         ret ← fputs (convertRoletoString in_role) filename;
         if decide (ret ≠ EOF) then
           pending ← gets (fun s => length (wakes s));
           wait_again pending
         else mret false
       else mret false);
    (if negb roleSwitch then switchToDrp (c_str portName) else mret tt);;
    mret roleSwitch.

Definition switchRole (in_portName : string) (in_role : PortRole.t)
    (in_transactionId : Z) : M unit :=
  let filename := appendRoleNodeHelper (c_str in_portName) (PortRole.getTag in_role) in
  if String.eqb filename "" then mret tt
  else
    modify (set_mRoleSwitchLock true);;
    roleSwitch ←
      (if decide (PortRole.getTag in_role = PortRole.mode)
       then switchMode in_portName in_role
       else
         fp ← fopen_w filename;
         if fp : bool then
           ret ← fputs (convertRoletoString in_role) filename;
           ret ← (if decide (ret = EAGAIN)
                  then emit (EvSleep ROLE_SWAP_RETRY_MS);;
                       fputs (convertRoletoString in_role) filename
                  else mret ret);
           if decide (ret ≠ EOF) then
             written ← ReadFileToString filename;
             match written with
             | Some written =>
                 mret (String.eqb (extractRole (Trim written))
                         (convertRoletoString in_role))
             | None => mret false
             end
           else mret false
         else mret false);
    cb ← gets mCallback;
    (if cb : bool
     then emit (notifyRoleSwitchStatus in_portName in_role
                  (if roleSwitch : bool then Status.SUCCESS else Status.ERROR)
                  in_transactionId)
     else mret tt);;
    modify (set_mRoleSwitchLock false).

Definition limitPowerTransfer (in_portName : string) (in_limit : bool)
    (in_transactionId : Z) : M unit :=
  located ← locateI2cClient;
  if negb located then mret tt
  else
    i2c ← gets mI2cClientPath;
    let sinkLimitEnablePath := i2c +:+ kSinkLimitEnable in
    let currentLimitPath := i2c +:+ kSinkLimitCurrent in
    let sourceLimitEnablePath := i2c +:+ kSourceLimitEnable in
    f1 ← (if in_limit then
            success ← WriteStringToFile "0" currentLimitPath; mret (negb success)
          else mret false);
    success ← WriteStringToFile (if in_limit then "1" else "0") sinkLimitEnablePath;
    let f2 := negb success in
    success ← WriteStringToFile (if in_limit then "1" else "0") sourceLimitEnablePath;
    let f3 := negb success in
    let sessionFail := f1 || f2 || f3 in
    cb ← gets mCallback;
    (if cb && (0 <=? in_transactionId)%Z
     then emit (notifyLimitPowerTransferStatus in_portName in_limit
                  (if sessionFail then Status.ERROR else Status.SUCCESS)
                  in_transactionId)
     else mret tt);;
    queryVersionHelper [];;
    mret tt.

Definition queryPortStatus (in_transactionId : Z) : M unit :=
  queryVersionHelper [];;
  cb ← gets mCallback;
  (if cb : bool
   then emit (notifyQueryPortStatus "all" Status.SUCCESS in_transactionId)
   else mret tt).

Definition enableContaminantPresenceDetection (in_portName : string)
    (in_enable : bool) (in_transactionId : Z) : M unit :=
  disable ← gets (fun s => GetProperty s kDisableContatminantDetection "");
  success ← (if negb (String.eqb disable "true")
             then path ← gets enabledPath;
                  WriteStringToFile (if in_enable then "1" else "0") path
             else mret true);
  cb ← gets mCallback;
  (if cb : bool
   then emit (notifyContaminantEnabledStatus in_portName in_enable
                (if success : bool then Status.SUCCESS else Status.ERROR)
                in_transactionId)
   else mret tt);;
  queryVersionHelper [];;
  mret tt.

(** The reconciliation that follows a recomputation in [uevent_event]:
    every port without a partner directory is sent back to DRP. *)
Fixpoint reconcilePorts (ports : list PortStatus) : M unit :=
  match ports with
  | [] => mret tt
  | p :: rest =>
      present ← gets (fun s =>
        dir_exists s ("/sys/class/typec/" +:+ c_str (portName p) +:+ "-partner"));
      (if present : bool then mret tt else switchToDrp (portName p));;
      reconcilePorts rest
  end.

(** What the loop of [uevent_event] does with one record; [true] when
    it goes on to the next record, [false] when it breaks. *)
Definition ueventRecord (cp : string) : M bool :=
  if partnerAdded cp then
    modify (set_mPartnerUp true);;
    emit EvSignal;;
    mret true
  else if starts_with "DEVTYPE=typec_" cp
          || starts_with "DRIVER=max77759tcpc" cp
          || starts_with "DRIVER=pogo-transport" cp
          || starts_with "POWER_SUPPLY_NAME=usb" cp
  then
    currentPortStatus ← queryVersionHelper [];
    locked ← gets mRoleSwitchLock;
    (if locked : bool then mret tt
     else modify (set_mRoleSwitchLock true);;
          reconcilePorts currentPortStatus;;
          modify (set_mRoleSwitchLock false));;
    mret false
  else if starts_with kOverheatStatsDev cp then
    report_overheat_event;;
    mret true
  else mret true.

(** The records of one message are NUL-terminated strings; the loop
    ends at the first empty one. *)
Fixpoint ueventRecords (msg : list string) : M unit :=
  match msg with
  | [] => mret tt
  | cp :: rest =>
      if String.eqb cp "" then mret tt
      else
        next ← ueventRecord cp;
        if next : bool then ueventRecords rest else mret tt
  end.

(** [n] is what [uevent_kernel_multicast_recv] returned, [msg] the
    records it received. *)
Definition uevent_event (n : Z) (msg : list string) : M unit :=
  if (n <=? 0)%Z then mret tt
  else if (UEVENT_MSG_LEN <=? n)%Z then mret tt
  else ueventRecords msg.

End Hal.

(** ** Specification-side definitions *)

(** The four fields that the synthesized sink state overwrites. *)
Definition rolesOf (p : PortStatus) :=
  (currentMode p, currentPowerRole p, currentDataRole p, powerBrickStatus p).

(** The assignments of [queryNonCompliantChargerStatus] for a port that
    has warnings and no power role. *)
Definition synthesizeSink (p : PortStatus) : PortStatus :=
  set_powerBrickStatus PowerBrickStatus.CONNECTED
    (set_currentDataRole PortDataRole.NONE
       (set_currentPowerRole PortPowerRole.SINK
          (set_currentMode PortMode.UFP p))).

(** The node that holds the compliance warnings of a port. *)
Definition complianceWarningsNode (p : PortStatus) : string :=
  c_str (kTypecPath +:+ "/" +:+ portName p +:+ "/" +:+ kComplianceWarningsPath).

(** ** Concrete platforms *)

(** One port, [port0], with a partner attached as source and host. *)
Definition pf_one_port : Platform :=
  {| pf_nowrite := ∅;
     pf_fputs := fun _ => 0%Z;
     pf_typec := Some [mkDirent "." false; mkDirent "port0" true;
                       mkDirent "port0-partner" true];
     pf_bucket := fun _ => 0;
     pf_dirs := {["/sys/class/typec/port0-partner"]};
     pf_props := ∅;
     pf_i2c := "/sys/devices/platform/10d60000.hsi2c/i2c-7/7-0025/";
     pf_session := fun _ => [];
     enable_usb_data_compliance_warning := false;
     enable_input_power_limited_warning := false;
     pf_stats := true |}.

Definition files_one_port : gmap string string :=
  <["/sys/class/typec/port0/power_role" := "[source] sink"]>
    (<["/sys/class/typec/port0/data_role" := "[host] device"]>
       (<["/sys/class/typec/port0-partner/accessory_mode" := "none"]>
          (<["/sys/class/typec/port0/device/non_compliant_reasons"
             := "[bc12], [missing_rp]"]> ∅))).

Definition st_one_port : State :=
  {| mCallback := true; mPartnerUp := false; mUsbDataEnabled := true;
     mI2cClientPath := ""; mRoleSwitchLock := false; enabledPath := "";
     files := files_one_port; clock := mkTimespec 100 0; wakes := [];
     trace := []; platform := pf_one_port |}.

(** A platform on which /sys/class/typec cannot be opened. *)
Definition pf_no_typec : Platform :=
  {| pf_nowrite := ∅;
     pf_fputs := fun _ => 0%Z;
     pf_typec := None;
     pf_bucket := fun _ => 0;
     pf_dirs := ∅;
     pf_props := ∅;
     pf_i2c := "/sys/devices/platform/10d60000.hsi2c/i2c-7/7-0025/";
     pf_session := fun _ => [];
     enable_usb_data_compliance_warning := false;
     enable_input_power_limited_warning := false;
     pf_stats := true |}.

Definition st_no_typec : State :=
  {| mCallback := true; mPartnerUp := false; mUsbDataEnabled := true;
     mI2cClientPath := ""; mRoleSwitchLock := false; enabledPath := "";
     files := ∅; clock := mkTimespec 100 0; wakes := [];
     trace := []; platform := pf_no_typec |}.

(** /sys/class/typec opens but holds no port. *)
Definition st_no_ports : State :=
  {| mCallback := true; mPartnerUp := false; mUsbDataEnabled := true;
     mI2cClientPath := ""; mRoleSwitchLock := false; enabledPath := "";
     files := ∅; clock := mkTimespec 100 0; wakes := [];
     trace := [];
     platform :=
       {| pf_nowrite := ∅;
          pf_fputs := fun _ => 0%Z;
          pf_typec := Some [mkDirent "." false; mkDirent ".." false];
          pf_bucket := fun _ => 0;
          pf_dirs := ∅;
          pf_props := ∅;
          pf_i2c := "/sys/devices/platform/10d60000.hsi2c/i2c-7/7-0025/";
          pf_session := fun _ => [];
          enable_usb_data_compliance_warning := false;
          enable_input_power_limited_warning := false;
          pf_stats := true |} |}.


(** Two ports, iterated as [port0] then [port1]: [port0] has a partner
    and a power-role node that holds a word outside the vocabulary,
    [port1] has no partner. *)
Definition pf_two_ports : Platform :=
  {| pf_nowrite := ∅;
     pf_fputs := fun _ => 0%Z;
     pf_typec := Some [mkDirent "." false; mkDirent ".." false;
                       mkDirent "port0" true; mkDirent "port0-partner" true;
                       mkDirent "port1" true];
     pf_bucket := fun k => if String.eqb k "port0" then 0 else 1;
     pf_dirs := {["/sys/class/typec/port0-partner"]};
     pf_props := ∅;
     pf_i2c := "/sys/devices/platform/10d60000.hsi2c/i2c-7/7-0025/";
     pf_session := fun _ => [];
     enable_usb_data_compliance_warning := false;
     enable_input_power_limited_warning := false;
     pf_stats := true |}.


(** The same two ports with every role node of [port0] in order. *)
Definition st_two_ports : State :=
  {| mCallback := true; mPartnerUp := false; mUsbDataEnabled := true;
     mI2cClientPath := ""; mRoleSwitchLock := false; enabledPath := "";
     files := files_one_port;
     clock := mkTimespec 100 0; wakes := [];
     trace := []; platform := pf_two_ports |}.

(** A port list as role detection leaves it, for the warning lemmas. *)
Definition port0_detected : PortStatus := set_portName "port0" PortStatus_init.
Definition port0_source : PortStatus :=
  set_currentPowerRole PortPowerRole.SOURCE port0_detected.

(** ** The partner wait, specification side *)

(** The deadline a wait gets when it starts at [now]. *)
Definition deadlineFrom (T : Z) (now : timespec) : timespec :=
  mkTimespec (tv_sec now + T) (tv_nsec now).

Definition isTimedWait (e : Event) : Prop :=
  match e with EvTimedWait _ => True | _ => False end.


(** No partner-attach confirmation arrives in time: every wake that
    comes before the deadline then in force is a spurious one. *)
Fixpoint noPartnerInTime (T : Z) (now : timespec) (ws : list wake) : Prop :=
  match ws with
  | [] => True
  | wk :: rest =>
      timespec_ltb (wk_time wk) (deadlineFrom T now) = true ->
      wk_partner wk = false /\ noPartnerInTime T (later now (wk_time wk)) rest
  end.

(** [port0] in the middle of nothing: the only wake to come on the
    condition variable is a spurious one, three seconds from now. *)
Definition st_spurious_wake : State :=
  set_wakes [mkWake (mkTimespec 103 0) false] st_one_port.

(** No partner-attach confirmation comes before [deadline], a deadline
    computed once: the bounded wait as the design document has it. *)
Definition noPartnerBefore (deadline : timespec) (ws : list wake) : Prop :=
  Forall (fun wk => timespec_ltb (wk_time wk) deadline = true -> wk_partner wk = false) ws.

(** [port0] with a spurious wake three seconds from now and the
    partner ten seconds from now. *)
Definition st_late_partner : State :=
  set_wakes [mkWake (mkTimespec 103 0) false; mkWake (mkTimespec 110 0) true] st_one_port.


(** ** The snapshot, specification side *)

(** What role detection stores in a port and no later sub-query
    touches. *)
Definition detectionOf (p : PortStatus) :=
  (portName p, canChangeMode p, canChangeDataRole p, canChangePowerRole p,
   supportedModes p, usbDataStatus p).

(** What the sub-queries that follow role detection leave alone in the
    state: they only memoize the I2C client path and [enabledPath]. *)
Definition queryFrame (s s' : State) : Prop :=
  mCallback s' = mCallback s /\ mPartnerUp s' = mPartnerUp s
  /\ mUsbDataEnabled s' = mUsbDataEnabled s
  /\ mRoleSwitchLock s' = mRoleSwitchLock s
  /\ files s' = files s /\ clock s' = clock s /\ wakes s' = wakes s
  /\ trace s' = trace s /\ platform s' = platform s.

Definition isPortStatusChange (e : Event) : Prop :=
  match e with notifyPortStatusChange _ _ => True | _ => False end.




(** ** Caller-initiated operations, specification side *)


(** Calls into [IUsbCallback]. *)
Definition isNotification (e : Event) : Prop :=
  match e with
  | EvWrite _ _ | EvTimedWait _ | EvSignal | EvSleep _ | EvOverheat _ _ _ => False
  | _ => True
  end.

(** Stand-ins for the macros of [Usb.h] in the concrete runs below; the
    properties hold for any value of them. *)
Definition ex_PULLUP_PATH := "/config/usb_gadget/g1/UDC".
Definition ex_ID_PATH := "/sys/devices/platform/11210000.usb/dwc3_exynos_otg_id".
Definition ex_VBUS_PATH := "/sys/devices/platform/11210000.usb/dwc3_exynos_otg_b_sess".
Definition ex_USB_DATA_PATH := "/sys/devices/platform/11210000.usb/usb_data_enabled".
Definition ex_kGadgetName := "11210000.dwc3".

(** Running [m] from [s] keeps the subscriber and only adds to the
    trace, and adds no notification when there is no subscriber;
    [final] makes this cover the runs that fault. *)
Definition orderlyAt {A} (m : M A) (s : State) : Prop :=
  mCallback (final (m s)) = mCallback s
  /\ exists new, trace (final (m s)) = trace s ++ new
                 /\ (mCallback s = false -> Forall (fun e => ~ isNotification e) new).

(** The same for an action that moreover returns. *)
Definition steadyAt {A} (m : M A) (s : State) : Prop :=
  (exists a s', m s = Done a s') /\ orderlyAt m s.

(** Running [m] from [s] adds an event satisfying [P] to the trace. *)
Definition notifiesAt {A} (P : Event -> Prop) (m : M A) (s : State) : Prop :=
  exists new e, trace (final (m s)) = trace s ++ new /\ e ∈ new /\ P e.

(** The caller-initiated operations of the AIDL interface. *)
Inductive Operation :=
| OpQueryPortStatus (id : Z)
| OpSwitchRole (port : string) (role : PortRole.t) (id : Z)
| OpEnableUsbData (port : string) (enable : bool) (id : Z)
| OpEnableUsbDataWhileDocked (port : string) (id : Z)
| OpResetUsbPort (port : string) (id : Z)
| OpLimitPowerTransfer (port : string) (limit : bool) (id : Z)
| OpEnableContaminantPresenceDetection (port : string) (enable : bool) (id : Z).

Section Interface.

Variables PULLUP_PATH ID_PATH VBUS_PATH USB_DATA_PATH kGadgetName : string.
Variables PORT_TYPE_TIMEOUT ROLE_SWAP_RETRY_MS : Z.

Definition runOperation (op : Operation) : M unit :=
  match op with
  | OpQueryPortStatus id => queryPortStatus id
  | OpSwitchRole port role id => switchRole PORT_TYPE_TIMEOUT ROLE_SWAP_RETRY_MS port role id
  | OpEnableUsbData port enable id =>
      enableUsbData PULLUP_PATH ID_PATH VBUS_PATH USB_DATA_PATH kGadgetName port enable id
  | OpEnableUsbDataWhileDocked port id => enableUsbDataWhileDocked port id
  | OpResetUsbPort port id => resetUsbPort PULLUP_PATH port id
  | OpLimitPowerTransfer port limit id => limitPowerTransfer port limit id
  | OpEnableContaminantPresenceDetection port enable id =>
      enableContaminantPresenceDetection port enable id
  end.

End Interface.

(** [e] is the per-operation notification of [op]: the callback of that
    operation, with its arguments and transaction identifier echoed. *)
Definition reportsOutcome (op : Operation) (e : Event) : Prop :=
  match op with
  | OpQueryPortStatus id => e = notifyQueryPortStatus "all" Status.SUCCESS id
  | OpSwitchRole port role id => exists st, e = notifyRoleSwitchStatus port role st id
  | OpEnableUsbData port enable id =>
      exists st, e = notifyEnableUsbDataStatus port enable st id
  | OpEnableUsbDataWhileDocked port id =>
      exists st, e = notifyEnableUsbDataWhileDockedStatus port st id
  | OpResetUsbPort port id => exists st, e = notifyResetUsbPortStatus port st id
  | OpLimitPowerTransfer port limit id =>
      exists st, e = notifyLimitPowerTransferStatus port limit st id
  | OpEnableContaminantPresenceDetection port enable id =>
      exists st, e = notifyContaminantEnabledStatus port enable st id
  end.

(** The guards the code puts before a notification: [limitPowerTransfer]
    wants a non-negative transaction identifier and an I2C client it can
    locate; [queryPortStatus] notifies after the snapshot computation,
    so only once that has returned. *)
Definition notifiable (op : Operation) (s : State) : Prop :=
  match op with
  | OpLimitPowerTransfer _ _ id =>
      (0 <= id)%Z /\ (mI2cClientPath s <> "" \/ pf_i2c (platform s) <> "")
  | OpQueryPortStatus _ => exists snapshot s', queryVersionHelper [] s = Done snapshot s'
  | _ => True
  end.

(** ** Further specification-side definitions *)

(** The character [c] does not occur in [s]. *)
Definition lacks (c : ascii) (s : string) : Prop := find (String c "") s = None.

(** [std::string::max_size]: a length fits [size_t]. *)
Definition fitsSize (s : string) : Prop := (Z.of_nat (String.length s) < 2 ^ 64)%Z.

(** A directory entry that is the partner link of port [k]: a link
    whose name holds "-partner" and starts, up to the first dash, with
    the name [k]. *)
Definition partnerLinkOf (k : string) (ep : dirent) : bool :=
  d_is_lnk ep && bool_decide (is_Some (find "-partner" (d_name ep)))
  && bool_decide (strtok (d_name ep) "-" = k).

(** A directory entry that is the link of port [k] itself. *)
Definition portLinkOf (k : string) (ep : dirent) : bool :=
  d_is_lnk ep && bool_decide (find "-partner" (d_name ep) = None)
  && bool_decide (d_name ep = k).

(** The platform [pf_one_port] with its directory read in another
    order. *)
Definition pf_one_port_reordered : Platform :=
  {| pf_nowrite := pf_nowrite pf_one_port;
     pf_fputs := pf_fputs pf_one_port;
     pf_typec := Some [mkDirent "port0-partner" true; mkDirent "port0" true;
                       mkDirent "." false];
     pf_bucket := pf_bucket pf_one_port;
     pf_dirs := pf_dirs pf_one_port;
     pf_props := pf_props pf_one_port;
     pf_i2c := pf_i2c pf_one_port;
     pf_session := pf_session pf_one_port;
     enable_usb_data_compliance_warning := enable_usb_data_compliance_warning pf_one_port;
     enable_input_power_limited_warning := enable_input_power_limited_warning pf_one_port;
     pf_stats := pf_stats pf_one_port |}.

Definition st_one_port_reordered : State :=
  {| mCallback := true; mPartnerUp := false; mUsbDataEnabled := true;
     mI2cClientPath := ""; mRoleSwitchLock := false; enabledPath := "";
     files := files_one_port; clock := mkTimespec 100 0; wakes := [];
     trace := []; platform := pf_one_port_reordered |}.

(** The dock node reads 1: the port is used by the dock. *)
Definition docked (s : State) : Prop :=
  exists active, read_file s kPogoUsbActive = Some active
                 /\ stoi (Trim active) = Some 1%Z.

(** The partner of a port supports USB power delivery. *)
Definition partnerSupportsPD (s : State) (portName : string) : Prop :=
  exists supportsPD,
    read_file s ("/sys/class/typec/" +:+ portName
                 +:+ "-partner/supports_usb_power_delivery") = Some supportsPD
    /\ Trim supportsPD = "yes".

(** A uevent record that tells of a change on a port. *)
Definition portChangeRecord (cp : string) : bool :=
  starts_with "DEVTYPE=typec_" cp
  || starts_with "DRIVER=max77759tcpc" cp
  || starts_with "DRIVER=pogo-transport" cp
  || starts_with "POWER_SUPPLY_NAME=usb" cp.

(** A uevent record that none of the branches of the loop takes. *)
Definition unrecognisedRecord (cp : string) : Prop :=
  partnerAdded cp = false /\ portChangeRecord cp = false
  /\ starts_with kOverheatStatsDev cp = false.

(** The node that takes the port type of a port. *)
Definition portTypeNode (p : PortStatus) : string :=
  appendRoleNodeHelper (c_str (portName p)) PortRole.mode.

(** The port has no partner directory. *)
Definition partnerless (s : State) (p : PortStatus) : bool :=
  negb (dir_exists s ("/sys/class/typec/" +:+ c_str (portName p) +:+ "-partner")).

(** The integer that a node of the overheat statistics holds. *)
Definition overheatMetric (s : State) (name : string) : option Z :=
  read_file s (kOverheatStatsPath +:+ name) ≫= fun v => stoi (Trim v).

(** The pull-up node is bound to another controller than [gadget], so
    that enabling data has to bind it again. *)
Definition boundElsewhere (s : State) (PULLUP_PATH gadget : string) : bool :=
  match read_file s PULLUP_PATH with
  | Some pullup => negb (String.eqb (Trim pullup) gadget)
  | None => false
  end.

(** The pull-up node is bound to [gadget]. *)
Definition boundTo (s : State) (PULLUP_PATH gadget : string) : bool :=
  match read_file s PULLUP_PATH with
  | Some pullup => String.eqb (Trim pullup) gadget
  | None => false
  end.

(** The partner-attach confirmation arrives in time: a wake that comes
    before the deadline then in force brings the partner, the wakes
    before it having been spurious ones that came in time as well. *)
Fixpoint partnerInTime (T : Z) (now : timespec) (ws : list wake) : Prop :=
  match ws with
  | [] => False
  | wk :: rest =>
      timespec_ltb (wk_time wk) (deadlineFrom T now) = true
      /\ (wk_partner wk = true \/ partnerInTime T (later now (wk_time wk)) rest)
  end.

(** A state in which the partner of [port0] is confirmed four seconds
    after a spurious wake. *)
Definition st_partner_arrives : State :=
  set_wakes [mkWake (mkTimespec 101 0) false; mkWake (mkTimespec 105 0) true] st_one_port.

(** What the body of a role switch leaves alone: the lock, the data
    flag, the subscriber and the platform; and it calls no callback. *)
Definition switchFrame (s s' : State) : Prop :=
  mRoleSwitchLock s' = mRoleSwitchLock s
  /\ mUsbDataEnabled s' = mUsbDataEnabled s
  /\ mCallback s' = mCallback s
  /\ platform s' = platform s
  /\ exists new, trace s' = trace s ++ new
                 /\ Forall (fun e => ~ isNotification e) new.

(** Running [m] from [s] returns, in a state related to [s] by [R]. *)
Definition returnsWithin {A} (R : State -> State -> Prop) (m : M A) (s : State) : Prop :=
  exists a s', m s = Done a s' /\ R s s'.

(** The I2C client path that [locateI2cClient] settles on. *)
Definition i2cClient (s : State) : string :=
  if String.eqb (mI2cClientPath s) "" then pf_i2c (platform s) else mI2cClientPath s.

(** What the last two sub-queries make of the first port. *)
Definition publishedFirst (s : State) (p : PortStatus) : PortStatus :=
  let q := nonCompliantChargerPort s p in
  set_complianceWarnings
    (complianceWarnings q ++ pf_session (platform s) (currentDataRole q)) q.

(** The snapshot that [queryVersionHelper] computes from [s], if it
    returns. *)
Definition final_snapshot (s : State) : list PortStatus :=
  match queryVersionHelper [] s with
  | Done snapshot _ => snapshot
  | Crash _ _ => []
  end.

(** * Properties *)

(** ** Examples of the string helpers *)

Example Trim_ex : Trim "  [source] sink
" = "[source] sink".
Proof. reflexivity. Qed.

Example Tokenize_ex : Tokenize "a,,b c" ", " = ["a"; "b"; "c"].
Proof. reflexivity. Qed.

Example strtok_ex : strtok "port0-partner" "-" = "port0".
Proof. reflexivity. Qed.

Example stoi_ex : stoi " 1x" = Some 1%Z /\ stoi "x" = None /\ stoi "-12" = Some (-12)%Z.
Proof. repeat split; reflexivity. Qed.

Example find_ex : find "-partner" "port0-partner" = Some 5 /\ find "[" "abc" = None.
Proof. split; reflexivity. Qed.

(** ** Field lemmas *)

Lemma complianceWarnings_push v p :
  complianceWarnings (push_complianceWarnings v p) = complianceWarnings p ++ [v].
Proof. by destruct p. Qed.

Lemma rolesOf_push v p : rolesOf (push_complianceWarnings v p) = rolesOf p.
Proof. by destruct p. Qed.

Lemma complianceWarnings_set_supports b p :
  complianceWarnings (set_supportsComplianceWarnings b p) = complianceWarnings p.
Proof. by destruct p. Qed.

Lemma rolesOf_set_supports b p :
  rolesOf (set_supportsComplianceWarnings b p) = rolesOf p.
Proof. by destruct p. Qed.

Lemma complianceWarnings_synthesizeSink p :
  complianceWarnings (synthesizeSink p) = complianceWarnings p.
Proof. by destruct p. Qed.

Lemma rolesOf_synthesizeSink p :
  rolesOf (synthesizeSink p) =
  (PortMode.UFP, PortPowerRole.SINK, PortDataRole.NONE, PowerBrickStatus.CONNECTED).
Proof. by destruct p. Qed.

(** ** Compliance warnings *)

Lemma rolesOf_pushReason s reason p : rolesOf (pushReason s reason p) = rolesOf p.
Proof.
  unfold pushReason.
  repeat case_match; rewrite ?rolesOf_push; reflexivity.
Qed.

Lemma rolesOf_pushReasons s reasons p :
  rolesOf (foldl (fun p reason => pushReason s reason p) p reasons) = rolesOf p.
Proof.
  revert p. induction reasons as [|r rs IH]; intros p; simpl; [done|].
  by rewrite IH, rolesOf_pushReason.
Qed.

Lemma nonCompliantChargerPort_unfold s p :
  nonCompliantChargerPort s p =
  let p0 := set_supportsComplianceWarnings true p in
  match read_file s (complianceWarningsNode p) with
  | Some reasons =>
      let p1 := foldl (fun p reason => pushReason s reason p) p0
                  (Tokenize (c_str reasons) kReasonDelimiters) in
      if bool_decide (0 < length (complianceWarnings p1))
         && bool_decide (currentPowerRole p1 = PortPowerRole.NONE)
      then synthesizeSink p1 else p1
  | None => p0
  end.
Proof. destruct p; reflexivity. Qed.

Lemma nonCompliantChargerPort_warnings s p reasons :
  read_file s (complianceWarningsNode p) = Some reasons ->
  complianceWarnings (nonCompliantChargerPort s p) =
  complianceWarnings
    (foldl (fun p reason => pushReason s reason p) (set_supportsComplianceWarnings true p)
       (Tokenize (c_str reasons) kReasonDelimiters)).
Proof.
  intros H. rewrite nonCompliantChargerPort_unfold. cbv zeta. rewrite H.
  case_match; [apply complianceWarnings_synthesizeSink | done].
Qed.

(** C4: a port without earlier warnings whose warnings node reads
    "[bc12], [missing_rp]" comes out of [queryNonCompliantChargerStatus]
    with exactly the warnings BC_1_2 and MISSING_RP; "[other]" gives
    OTHER while the input-power-limited toggle is off; and with the
    toggle on, "[input_power_limited]" gives INPUT_POWER_LIMITED. *)
Theorem compliance_warning_tokenization s ports i p :
  ports !! i = Some p ->
  complianceWarnings p = [] ->
  let warningsAfter :=
    complianceWarnings <$> (queryNonCompliantChargerStatus s ports).2 !! i in
  (read_file s (complianceWarningsNode p) = Some "[bc12], [missing_rp]" ->
   warningsAfter = Some [ComplianceWarning.BC_1_2; ComplianceWarning.MISSING_RP])
  /\ (read_file s (complianceWarningsNode p) = Some "[other]" ->
      input_power_limited_toggle s = false ->
      warningsAfter = Some [ComplianceWarning.OTHER])
  /\ (read_file s (complianceWarningsNode p) = Some "[input_power_limited]" ->
      input_power_limited_toggle s = true ->
      warningsAfter = Some [ComplianceWarning.INPUT_POWER_LIMITED]).
Proof.
  intros Hi Hfresh warningsAfter. subst warningsAfter.
  unfold queryNonCompliantChargerStatus. simpl snd.
  rewrite list_lookup_fmap, Hi. simpl.
  repeat split.
  - intros H. rewrite (nonCompliantChargerPort_warnings _ _ _ H).
    change (Tokenize _ _) with ["bc12"; "missing_rp"]. simpl foldl.
    change (pushReason s "bc12" ?q)
      with (push_complianceWarnings ComplianceWarning.BC_1_2 q).
    change (pushReason s "missing_rp" ?q)
      with (push_complianceWarnings ComplianceWarning.MISSING_RP q).
    by rewrite !complianceWarnings_push, complianceWarnings_set_supports, Hfresh.
  - intros H Ht. rewrite (nonCompliantChargerPort_warnings _ _ _ H).
    change (Tokenize _ _) with ["other"]. simpl foldl.
    unfold pushReason. simpl. rewrite Ht.
    by rewrite !complianceWarnings_push, complianceWarnings_set_supports, Hfresh.
  - intros H Ht. rewrite (nonCompliantChargerPort_warnings _ _ _ H).
    change (Tokenize _ _) with ["input_power_limited"]. simpl foldl.
    unfold pushReason. simpl. rewrite Ht.
    by rewrite !complianceWarnings_push, complianceWarnings_set_supports, Hfresh.
Qed.

Lemma compliance_warning_tokenization_witness :
  complianceWarnings <$> (queryNonCompliantChargerStatus st_one_port [port0_detected]).2 !! 0
  = Some [ComplianceWarning.BC_1_2; ComplianceWarning.MISSING_RP].
Proof.
  apply (compliance_warning_tokenization st_one_port [port0_detected] 0 port0_detected);
    reflexivity.
Defined.

(** C5: in [queryNonCompliantChargerStatus], a port that ends up with
    warnings and whose power role was NONE after role detection is
    given the connected-sink state (mode UFP, power SINK, data NONE,
    power brick CONNECTED); a port that ends up with warnings and a
    power role other than NONE keeps mode, roles and power-brick state
    as role detection left them. *)
Theorem synthesized_sink_state s ports i p p' :
  ports !! i = Some p ->
  complianceWarnings p = [] ->
  (queryNonCompliantChargerStatus s ports).2 !! i = Some p' ->
  complianceWarnings p' <> [] ->
  (currentPowerRole p = PortPowerRole.NONE ->
   currentMode p' = PortMode.UFP /\ currentPowerRole p' = PortPowerRole.SINK /\
   currentDataRole p' = PortDataRole.NONE /\
   powerBrickStatus p' = PowerBrickStatus.CONNECTED)
  /\ (currentPowerRole p <> PortPowerRole.NONE ->
      currentMode p' = currentMode p /\ currentPowerRole p' = currentPowerRole p /\
      currentDataRole p' = currentDataRole p /\
      powerBrickStatus p' = powerBrickStatus p).
Proof.
  intros Hi Hfresh Hi' Hne.
  unfold queryNonCompliantChargerStatus in Hi'. simpl in Hi'.
  rewrite list_lookup_fmap, Hi in Hi'. simpl in Hi'.
  injection Hi' as <-.
  rewrite nonCompliantChargerPort_unfold in *. cbv zeta in *.
  destruct (read_file s (complianceWarningsNode p)) as [reasons|].
  2:{ by rewrite complianceWarnings_set_supports in Hne. }
  set (p1 := foldl _ _ _) in *.
  assert (Hroles : rolesOf p1 = rolesOf p).
  { subst p1. by rewrite rolesOf_pushReasons, rolesOf_set_supports. }
  assert (Hpower : currentPowerRole p1 = currentPowerRole p).
  { unfold rolesOf in Hroles. congruence. }
  destruct (bool_decide (0 < length (complianceWarnings p1))) eqn:Hlen.
  - simpl in *. rewrite Hpower in *. case_bool_decide as Hnone.
    + split; [intros _ | done].
      pose proof (rolesOf_synthesizeSink p1) as Hs. unfold rolesOf in Hs.
      injection Hs as -> -> -> ->. done.
    + split; [done | intros _].
      unfold rolesOf in Hroles. injection Hroles as -> -> -> ->. done.
  - simpl in *. apply bool_decide_eq_false in Hlen.
    destruct (complianceWarnings p1); [done | simpl in Hlen; lia].
Qed.

Lemma synthesized_sink_state_witness :
  let p' := nonCompliantChargerPort st_one_port port0_detected in
  currentMode p' = PortMode.UFP /\ currentPowerRole p' = PortPowerRole.SINK /\
  currentDataRole p' = PortDataRole.NONE /\
  powerBrickStatus p' = PowerBrickStatus.CONNECTED.
Proof.
  refine (proj1 (synthesized_sink_state st_one_port [port0_detected] 0 port0_detected
                   (nonCompliantChargerPort st_one_port port0_detected)
                   eq_refl eq_refl eq_refl _) eq_refl).
  vm_compute. discriminate.
Defined.

(** ** The monad *)

Lemma bind_Done {A B} (m : M A) (k : A -> M B) s a s' :
  m s = Done a s' -> (m ≫= k) s = k a s'.
Proof. intros H. unfold mbind, M_bind. by rewrite H. Qed.

Lemma bind_Crash {A B} (m : M A) (k : A -> M B) s f s' :
  m s = Crash f s' -> (m ≫= k) s = Crash f s'.
Proof. intros H. unfold mbind, M_bind. by rewrite H. Qed.

(** ** Partner-attach records *)

(** C9: a record that the dispatcher classifies as partner-attach sets
    [mPartnerUp] and signals [mPartnerCV]; the state it leaves differs
    from the one it found in that flag and in the signal only, so no
    status is recomputed, nothing is notified and no node is written.
    The loop then goes on with the records that follow, from that
    state. *)
Theorem partner_attach_record cp rest s :
  partnerAdded cp = true ->
  let s' := set_trace (trace s ++ [EvSignal]) (set_mPartnerUp true s) in
  ueventRecord cp s = Done true s'
  /\ ueventRecords (cp :: rest) s = ueventRecords rest s'.
Proof.
  intros H s'.
  assert (Hrec : ueventRecord cp s = Done true s')
    by (unfold ueventRecord; by rewrite H).
  split; [done|].
  assert (Hne : String.eqb cp "" = false) by (by destruct cp).
  cbn [ueventRecords]. rewrite Hne. by rewrite (bind_Done _ _ _ _ _ Hrec).
Qed.

Lemma partner_attach_record_witness :
  let cp := "add@/devices/platform/11210000.usb/typec/port0/port0-partner" in
  let s' := set_trace [EvSignal] (set_mPartnerUp true st_one_port) in
  ueventRecord cp st_one_port = Done true s'
  /\ ueventRecords [cp; "ACTION=add"] st_one_port = ueventRecords ["ACTION=add"] s'.
Proof.
  apply (partner_attach_record
           "add@/devices/platform/11210000.usb/typec/port0/port0-partner"
           ["ACTION=add"] st_one_port).
  reflexivity.
Defined.

(** ** The empty port vector *)

Lemma queryVersionHelper_empty ports s st :
  getPortStatusHelper s ports = Ok (st, []) ->
  queryVersionHelper ports s = Crash OutOfBounds s.
Proof.
  intros H. unfold queryVersionHelper, mbind, M_bind, lift. by rewrite H.
Qed.

Lemma getPortStatusHelper_no_typec s ports :
  pf_typec (platform s) = None ->
  getPortStatusHelper s ports = Ok (Status.ERROR, ports).
Proof.
  intros H. unfold getPortStatusHelper, getTypeCPortNamesHelper. by rewrite H.
Qed.

(** C6, on the code: when /sys/class/typec cannot be opened, role
    detection reports ERROR and leaves the port vector empty, but the
    snapshot computation then indexes element 0 of that empty vector in
    [queryMoistureDetectionStatus] and faults there, in the state it
    started from: no [notifyPortStatusChange] and no outcome at all
    reach the subscriber. *)
Theorem topology_failure_is_not_delivered (s : State) (in_transactionId : Z) :
  pf_typec (platform s) = None ->
  getPortStatusHelper s [] = Ok (Status.ERROR, [])
  /\ queryVersionHelper [] s = Crash OutOfBounds s
  /\ queryPortStatus in_transactionId s = Crash OutOfBounds s.
Proof.
  intros H.
  pose proof (getPortStatusHelper_no_typec s [] H) as Hg.
  pose proof (queryVersionHelper_empty [] s _ Hg) as Hq.
  repeat split; [done | done |].
  unfold queryPortStatus. by rewrite (bind_Crash _ _ _ _ _ Hq).
Qed.

Lemma topology_failure_is_not_delivered_witness :
  getPortStatusHelper st_no_typec [] = Ok (Status.ERROR, [])
  /\ queryVersionHelper [] st_no_typec = Crash OutOfBounds st_no_typec
  /\ queryPortStatus 7 st_no_typec = Crash OutOfBounds st_no_typec.
Proof. apply (topology_failure_is_not_delivered st_no_typec 7). reflexivity. Defined.

(** C10, on the code: whenever role detection leaves the port vector
    empty (the directory cannot be opened, or it holds no port), the
    snapshot computation reaches the index-0 access of
    [queryMoistureDetectionStatus] all the same and faults out of
    bounds; of the sub-queries only [queryNonCompliantChargerStatus],
    which loops up to the size, is safe on the empty vector. *)
Theorem index0_reached_on_empty_vector (s : State) (st : Status.t) (in_transactionId : Z) :
  getPortStatusHelper s [] = Ok (st, []) ->
  queryMoistureDetectionStatus [] s = Crash OutOfBounds s
  /\ queryUsbDataSession s [] = Err OutOfBounds
  /\ queryNonCompliantChargerStatus s [] = (Status.SUCCESS, [])
  /\ queryPortStatus in_transactionId s = Crash OutOfBounds s.
Proof.
  intros H. repeat split.
  unfold queryPortStatus.
  by rewrite (bind_Crash _ _ _ _ _ (queryVersionHelper_empty [] s st H)).
Qed.

Lemma index0_reached_on_empty_vector_witness :
  getPortStatusHelper st_no_ports [] = Ok (Status.SUCCESS, [])
  /\ queryMoistureDetectionStatus [] st_no_ports = Crash OutOfBounds st_no_ports
  /\ queryUsbDataSession st_no_ports [] = Err OutOfBounds
  /\ queryNonCompliantChargerStatus st_no_ports [] = (Status.SUCCESS, [])
  /\ queryPortStatus 7 st_no_ports = Crash OutOfBounds st_no_ports.
Proof.
  split; [reflexivity|].
  apply (index0_reached_on_empty_vector st_no_ports Status.SUCCESS 7). reflexivity.
Defined.

(** ** The partner wait *)

Section Wait.

Variable T : Z.

Lemma wait_again_unfold budget s :
  wait_again T budget s =
  match pthread_cond_timedwait (deadlineFrom T (clock s)) s with
  | Done err s1 =>
      if decide (err = ETIMEDOUT) then Done false s1
      else if negb (mPartnerUp s1)
           then match budget with
                | S budget' => wait_again T budget' s1
                | O => Done false s1
                end
           else Done true s1
  | Crash f s1 => Crash f s1
  end.
Proof.
  destruct budget; simpl; unfold mbind, M_bind, clock_gettime, gets, deadlineFrom;
    destruct (pthread_cond_timedwait _ s); try done;
    case_decide; try done; simpl; by destruct (mPartnerUp _).
Qed.

Lemma timespec_ltb_irrefl a : timespec_ltb a a = false.
Proof.
  unfold timespec_ltb.
  rewrite !Z.ltb_irrefl. by rewrite andb_false_r.
Qed.

Lemma timespec_leb_refl a : timespec_leb a a = true.
Proof. unfold timespec_leb. by rewrite timespec_ltb_irrefl. Qed.

Lemma timespec_leb_spec a b :
  timespec_leb a b = true <->
  (tv_sec a < tv_sec b \/ (tv_sec a = tv_sec b /\ tv_nsec a <= tv_nsec b))%Z.
Proof.
  unfold timespec_leb, timespec_ltb.
  rewrite negb_true_iff, orb_false_iff, andb_false_iff.
  rewrite !Z.ltb_ge, Z.eqb_neq. lia.
Qed.

Lemma timespec_ltb_spec a b :
  timespec_ltb a b = true <->
  (tv_sec a < tv_sec b \/ (tv_sec a = tv_sec b /\ tv_nsec a < tv_nsec b))%Z.
Proof.
  unfold timespec_ltb.
  rewrite orb_true_iff, andb_true_iff, !Z.ltb_lt, Z.eqb_eq. lia.
Qed.

Lemma later_ge_r a b : timespec_leb b (later a b) = true.
Proof.
  unfold later. destruct (timespec_ltb a b) eqn:E.
  - apply timespec_leb_refl.
  - unfold timespec_leb. by rewrite E.
Qed.

Lemma later_ge_l a b : timespec_leb a (later a b) = true.
Proof.
  unfold later. destruct (timespec_ltb a b) eqn:E.
  - apply timespec_leb_spec. apply timespec_ltb_spec in E. lia.
  - apply timespec_leb_refl.
Qed.

Lemma deadlineFrom_mono a b :
  timespec_leb a b = true ->
  timespec_leb (deadlineFrom T a) (deadlineFrom T b) = true.
Proof. rewrite !timespec_leb_spec. simpl. lia. Qed.

Lemma deadlineFrom_ge a : (0 <= T)%Z -> timespec_leb a (deadlineFrom T a) = true.
Proof. rewrite timespec_leb_spec. simpl. lia. Qed.

Lemma later_le a b c :
  timespec_leb a c = true -> timespec_leb b c = true ->
  timespec_leb (later a b) c = true.
Proof. unfold later. by destruct (timespec_ltb a b). Qed.

(** What one run of the wait does to the state: it consumes wakes,
    moves the clock, may raise [mPartnerUp], and records the deadlines
    it waited for; everything else is as before. *)
Lemma wait_again_run ws : forall budget s,
  wakes s = ws -> length ws <= budget ->
  exists roleSwitch s' ds,
    wait_again T budget s = Done roleSwitch s'
    /\ trace s' = trace s ++ map EvTimedWait ds
    /\ files s' = files s /\ platform s' = platform s
    /\ mCallback s' = mCallback s /\ mUsbDataEnabled s' = mUsbDataEnabled s
    /\ mRoleSwitchLock s' = mRoleSwitchLock s
    /\ (mPartnerUp s = false -> noPartnerInTime T (clock s) ws -> roleSwitch = false)
    /\ ds !! 0 = Some (deadlineFrom T (clock s))
    /\ (forall i d, ds !! S i = Some d ->
          exists wk, ws !! i = Some wk
                     /\ timespec_leb (deadlineFrom T (wk_time wk)) d = true)
    /\ ((0 <= T)%Z -> exists d, last ds = Some d /\ timespec_leb (clock s') d = true).
Proof.
  induction ws as [|wk rest IH]; intros budget s Hws Hlen.
  - exists false. eexists. exists [deadlineFrom T (clock s)].
    rewrite wait_again_unfold. unfold pthread_cond_timedwait. simpl. rewrite Hws.
    simpl. repeat split; try done.
    intros HT. eexists. split; [done|].
    apply later_le; [by apply deadlineFrom_ge | apply timespec_leb_refl].
  - rewrite wait_again_unfold. unfold pthread_cond_timedwait. simpl. rewrite Hws.
    destruct (timespec_ltb (wk_time wk) (deadlineFrom T (clock s))) eqn:Hin.
    + case_decide as Herr; [discriminate|].
      simpl. destruct (mPartnerUp s || wk_partner wk) eqn:Hup; simpl.
      * exists true. eexists. exists [deadlineFrom T (clock s)].
        repeat split; try done.
        -- intros Hs Hno. destruct (Hno eq_refl) as [Hp _].
           rewrite Hs, Hp in Hup. done.
        -- intros HT. eexists. split; [done|]. simpl.
           apply later_le; [by apply deadlineFrom_ge|].
           apply timespec_leb_spec. apply timespec_ltb_spec in Hin. lia.
      * destruct budget as [|budget]; [simpl in Hlen; lia|].
        set (s1 := set_mPartnerUp _ _).
        destruct (IH budget s1) as (b & s' & ds & Hrun & Htr & Hf & Hp & Hc & Hu & Hl & Hno & H0 & Hi & Hlast).
        { done. } { simpl in Hlen. lia. }
        exists b, s', (deadlineFrom T (clock s) :: ds).
        rewrite Hrun. repeat split; try done.
        -- rewrite Htr. subst s1. simpl. by rewrite <- app_assoc.
        -- intros Hs Hno'. destruct (Hno' eq_refl) as [Hp' Hrest].
           apply Hno; subst s1; simpl; done.
        -- intros [|i] d Hd; simpl in Hd.
           ++ exists wk. split; [done|].
              rewrite H0 in Hd. injection Hd as <-.
              apply deadlineFrom_mono. subst s1. simpl. apply later_ge_r.
           ++ destruct (Hi i d Hd) as (wk' & ? & ?). by exists wk'.
        -- intros HT. destruct (Hlast HT) as (d & Hd & Hle). exists d. split; [|done].
           destruct ds; [done|]. done.
    + case_decide as Herr; [|done].
      exists false. eexists. exists [deadlineFrom T (clock s)].
      repeat split; try done.
      intros HT. eexists. split; [done|]. simpl.
      apply later_le; [by apply deadlineFrom_ge | apply timespec_leb_refl].
Qed.

(** The budget of re-waits is immaterial once it covers the wakes to
    come: the loop never runs out of it. *)
Lemma wait_again_budget ws : forall b1 b2 s,
  wakes s = ws -> length ws <= b1 -> length ws <= b2 ->
  wait_again T b1 s = wait_again T b2 s.
Proof.
  induction ws as [|wk rest IH]; intros b1 b2 s Hws H1 H2;
    rewrite !wait_again_unfold; unfold pthread_cond_timedwait; simpl; rewrite Hws.
  - done.
  - destruct (timespec_ltb (wk_time wk) (deadlineFrom T (clock s))); [|done].
    case_decide; [done|]. simpl.
    destruct (mPartnerUp s || wk_partner wk); simpl; [done|].
    destruct b1 as [|b1]; [simpl in H1; lia|].
    destruct b2 as [|b2]; [simpl in H2; lia|].
    apply IH; [done | simpl in H1; lia | simpl in H2; lia].
Qed.



End Wait.




(** ** The fall-back to DRP *)

Lemma c_str_idem x : c_str (c_str x) = c_str x.
Proof.
  induction x as [|c x IH]; simpl; [done|].
  destruct (Ascii.eqb c zero) eqn:E; simpl; [done|]. by rewrite E, IH.
Qed.

Lemma appendRoleNodeHelper_nonempty port tag :
  String.eqb (appendRoleNodeHelper port tag) "" = false.
Proof. by destruct tag. Qed.

Lemma writable_node port tag s :
  appendRoleNodeHelper port tag ∉ pf_nowrite (platform s) ->
  writable s (appendRoleNodeHelper port tag) = true.
Proof.
  intros H. unfold writable.
  by rewrite appendRoleNodeHelper_nonempty, bool_decide_eq_true_2.
Qed.

Lemma fopen_w_ok path s :
  writable s path = true ->
  fopen_w path s = Done true (set_files (<[path := ""]> (files s)) s).
Proof. intros H. unfold fopen_w. by rewrite H. Qed.

Lemma fputs_ok data path s :
  pf_fputs (platform s) path <> EOF ->
  fputs data path s
  = Done (pf_fputs (platform s) path)
      (set_trace (trace s ++ [EvWrite path data])
         (set_files (<[path := default "" (files s !! path) +:+ data]> (files s)) s)).
Proof. intros H. unfold fputs. by destruct (decide (pf_fputs (platform s) path = EOF)). Qed.

Lemma switchToDrp_run port s :
  let node := appendRoleNodeHelper (c_str port) PortRole.mode in
  node ∉ pf_nowrite (platform s) ->
  pf_fputs (platform s) node <> EOF ->
  exists s',
    switchToDrp port s = Done tt s'
    /\ files s' = <[node := "dual"]> (files s)
    /\ trace s' = trace s ++ [EvWrite node "dual"]
    /\ platform s' = platform s /\ mCallback s' = mCallback s.
Proof.
  intros node Hw Hput. unfold switchToDrp. cbv zeta.
  rewrite appendRoleNodeHelper_nonempty. fold node. cbn [negb].
  rewrite (bind_Done _ _ _ _ _ (fopen_w_ok node s (writable_node _ _ _ Hw))). cbv beta iota.
  rewrite (bind_Done _ _ _ _ _ (fputs_ok "dual" node (set_files _ s) Hput)).
  eexists. split; [done|]. simpl.
  rewrite lookup_insert_eq. simpl. by rewrite insert_insert_eq.
Qed.

Lemma Forall_isTimedWait ds : Forall isTimedWait (map EvTimedWait ds).
Proof. induction ds; constructor; done. Qed.

Lemma noPartnerInTime_spurious T now ws :
  Forall (fun wk => wk_partner wk = false) ws -> noPartnerInTime T now ws.
Proof.
  intros H. revert now. induction H as [|wk ws Hwk _ IH]; intros now; simpl; [done|].
  intros _. split; [done | apply IH].
Qed.

Lemma switchMode_timeout T port m s :
  let node := appendRoleNodeHelper (c_str port) PortRole.mode in
  node ∉ pf_nowrite (platform s) ->
  pf_fputs (platform s) node <> EOF ->
  noPartnerInTime T (clock s) (wakes s) ->
  exists s' waits,
    switchMode T port (PortRole.of_mode m) s = Done false s'
    /\ Forall isTimedWait waits
    /\ trace s' = trace s ++ EvWrite node (convertRoletoString (PortRole.of_mode m))
                    :: waits ++ [EvWrite node "dual"]
    /\ files s' = <[node := "dual"]> (files s)
    /\ platform s' = platform s /\ mCallback s' = mCallback s.
Proof.
  intros node Hw Hput Hno. unfold switchMode. cbv zeta.
  change (PortRole.getTag (PortRole.of_mode m)) with PortRole.mode.
  rewrite appendRoleNodeHelper_nonempty. fold node.
  unfold mbind, M_bind, modify, gets, mret, M_ret. cbv beta.
  rewrite (fopen_w_ok node s (writable_node _ _ _ Hw)). cbv beta iota.
  set (s1 := set_files _ s).
  rewrite (fputs_ok _ node (set_mPartnerUp false s1) Hput). cbv beta iota.
  set (s2 := set_trace _ _).
  destruct (decide (pf_fputs (platform (set_mPartnerUp false s1)) node <> EOF)) as [_|];
    [|done].
  destruct (wait_again_run T (wakes s2) (length (wakes s2)) s2 eq_refl (le_n _))
    as (b & s3 & ds & Hrun & Htr & Hf & Hp & Hc & _ & _ & Hb & _).
  rewrite Hb in Hrun by done. rewrite Hrun. cbn [negb].
  destruct (switchToDrp_run (c_str port) s3) as (s4 & Hdrp & Hf4 & Htr4 & Hp4 & Hc4).
  { rewrite c_str_idem. fold node. by rewrite Hp. }
  { rewrite c_str_idem. fold node. by rewrite Hp. }
  rewrite c_str_idem in Hf4, Htr4. fold node in Hf4, Htr4.
  rewrite Hdrp.
  exists s4, (map EvTimedWait ds). split; [done|].
  split; [apply Forall_isTimedWait|].
  repeat split.
  - rewrite Htr4, Htr. subst s2 s1. simpl. by rewrite <- !app_assoc.
  - rewrite Hf4, Hf. subst s2 s1. simpl. by rewrite !insert_insert_eq.
  - by rewrite Hp4, Hp.
  - by rewrite Hc4, Hc.
Qed.

(** C1, as the code has it: a mode switch whose write to the port-type
    node succeeds and for which no partner-attach confirmation arrives
    before the deadline then in force (each wait of the loop, the first
    and every re-wait after a spurious wake, has a deadline of its
    own) ends in ERROR: the requested mode is written, the wait runs
    out, "dual" is written to the same node, and only then the
    subscriber (if any) is told ERROR.  The node then holds "dual",
    and writing the default once more leaves every node as it is. *)
Theorem mode_switch_timeout_falls_back (T R : Z) (in_portName : string) (m : PortMode.t)
    (in_transactionId : Z) (s : State) :
  let node := appendRoleNodeHelper (c_str in_portName) PortRole.mode in
  let in_role := PortRole.of_mode m in
  node ∉ pf_nowrite (platform s) ->
  pf_fputs (platform s) node <> EOF ->
  noPartnerInTime T (clock s) (wakes s) ->
  exists s' waits,
    switchRole T R in_portName in_role in_transactionId s = Done tt s'
    /\ Forall isTimedWait waits
    /\ trace s' =
       trace s ++ EvWrite node (convertRoletoString in_role) :: waits
         ++ EvWrite node "dual"
         :: (if mCallback s
             then [notifyRoleSwitchStatus in_portName in_role Status.ERROR in_transactionId]
             else [])
    /\ files s' !! node = Some "dual"
    /\ exists s'', switchToDrp in_portName s' = Done tt s'' /\ files s'' = files s'.
Proof.
  intros node in_role Hw Hput Hno. subst in_role. unfold switchRole. cbv zeta.
  rewrite appendRoleNodeHelper_nonempty.
  unfold mbind, M_bind, emit, modify, gets, mret, M_ret. cbv beta.
  destruct (decide (PortRole.getTag (PortRole.of_mode m) = PortRole.mode)) as [_|]; [|done].
  destruct (switchMode_timeout T in_portName m (set_mRoleSwitchLock true s))
    as (s1 & waits & Hrun & Hwaits & Htr & Hf & Hp & Hc); [done..|].
  fold node in Htr, Hf. simpl in Hf, Hp, Hc.
  change (trace (set_mRoleSwitchLock true s)) with (trace s) in Htr.
  rewrite Hrun, Hc.
  assert (Hnode : forall s2, files s2 = files s1 -> platform s2 = platform s1 ->
            files s2 !! node = Some "dual"
            /\ exists s'', switchToDrp in_portName s2 = Done tt s'' /\ files s'' = files s2).
  { intros s2 Hf2 Hp2. split; [by rewrite Hf2, Hf, lookup_insert_eq|].
    destruct (switchToDrp_run in_portName s2) as (s'' & Hdrp & Hf'' & _).
    { fold node. by rewrite Hp2, Hp. } { fold node. by rewrite Hp2, Hp. }
    exists s''. split; [done|]. fold node in Hf''.
    by rewrite Hf'', Hf2, Hf, insert_insert_eq. }
  destruct (mCallback s); eexists; exists waits.
  - split; [reflexivity|]. split; [exact Hwaits|]. split.
    + simpl trace. rewrite Htr, <- app_assoc. f_equal. simpl. f_equal.
      by rewrite <- app_assoc.
    + by apply Hnode.
  - split; [reflexivity|]. split; [exact Hwaits|]. split.
    + simpl trace. by rewrite Htr.
    + by apply Hnode.
Qed.

Lemma mode_switch_timeout_falls_back_witness :
  let node := "/sys/class/typec/port0/port_type" in
  let in_role := PortRole.of_mode PortMode.UFP in
  exists s' waits,
    switchRole 8 700 "port0" in_role 5 st_spurious_wake = Done tt s'
    /\ Forall isTimedWait waits
    /\ trace s' =
       trace st_spurious_wake ++ EvWrite node "sink" :: waits
         ++ EvWrite node "dual" :: [notifyRoleSwitchStatus "port0" in_role Status.ERROR 5]
    /\ files s' !! node = Some "dual"
    /\ exists s'', switchToDrp "port0" s' = Done tt s'' /\ files s'' = files s'.
Proof.
  apply (mode_switch_timeout_falls_back 8 700 "port0" PortMode.UFP 5 st_spurious_wake).
  - vm_compute. set_solver.
  - discriminate.
  - apply noPartnerInTime_spurious. repeat constructor.
Defined.

(** C1 fails as stated, with the bounded wait computed once at the
    start: with a timeout of 8 s, a wait that starts at 100 s, a
    spurious wake at 103 s and the partner at 110 s, no confirmation
    comes before 108 s, yet the second wait runs until 111 s, the
    switch ends in SUCCESS, "dual" is never written and the node keeps
    the requested mode. *)
Lemma late_partner_is_accepted :
  let s := st_late_partner in
  let node := appendRoleNodeHelper (c_str "port0") PortRole.mode in
  let in_role := PortRole.of_mode PortMode.UFP in
  writable s node = true
  /\ pf_fputs (platform s) node <> EOF
  /\ noPartnerBefore (deadlineFrom 8 (clock s)) (wakes s)
  /\ exists s',
       switchRole 8 700 "port0" in_role 5 s = Done tt s'
       /\ trace s' = [EvWrite node "sink"; EvTimedWait (mkTimespec 108 0);
                      EvTimedWait (mkTimespec 111 0);
                      notifyRoleSwitchStatus "port0" in_role Status.SUCCESS 5]
       /\ files s' !! node = Some "sink".
Proof.
  cbv zeta. split; [vm_compute; reflexivity|]. split; [discriminate|]. split.
  - repeat constructor; intros H; vm_compute in H; try discriminate H; reflexivity.
  - eexists. split; [vm_compute; reflexivity|]. split; vm_compute; reflexivity.
Qed.

(** ** The sub-queries that follow role detection *)

Lemma queryFrame_refl s : queryFrame s s.
Proof. by repeat split. Qed.

Lemma queryFrame_trans s1 s2 s3 : queryFrame s1 s2 -> queryFrame s2 s3 -> queryFrame s1 s3.
Proof.
  unfold queryFrame. intros (?&?&?&?&?&?&?&?&?) (?&?&?&?&?&?&?&?&?).
  repeat split; congruence.
Qed.

Lemma queryMoistureDetectionStatus_run p ps s :
  exists st p' s',
    queryMoistureDetectionStatus (p :: ps) s = Done (st, p' :: ps) s'
    /\ queryFrame s s' /\ detectionOf p' = detectionOf p
    /\ complianceWarnings p' = complianceWarnings p
    /\ rolesOf p' = rolesOf p.
Proof.
  unfold queryMoistureDetectionStatus, locateI2cClient, ReadFileToString,
    mbind, M_bind, gets, modify, mret, M_ret.
  simpl.
  repeat case_match; simplify_eq; simpl in *;
    (eexists _, _, _; split; [reflexivity|];
     split; [by repeat split|]; by destruct p).
Qed.

Lemma queryPowerTransferStatus_run p ps s :
  exists st p' s',
    queryPowerTransferStatus (p :: ps) s = Done (st, p' :: ps) s'
    /\ queryFrame s s' /\ detectionOf p' = detectionOf p
    /\ complianceWarnings p' = complianceWarnings p
    /\ rolesOf p' = rolesOf p.
Proof.
  unfold queryPowerTransferStatus, locateI2cClient, ReadFileToString,
    mbind, M_bind, gets, modify, mret, M_ret.
  simpl.
  repeat case_match; simplify_eq; simpl in *;
    (eexists _, _, _; split; [reflexivity|];
     split; [by repeat split|]; by destruct p).
Qed.

Lemma detectionOf_pushReasons s reasons p :
  detectionOf (foldl (fun p reason => pushReason s reason p) p reasons) = detectionOf p.
Proof.
  revert p. induction reasons as [|r rs IH]; intros p; simpl; [done|].
  rewrite IH. unfold pushReason. repeat case_match; by destruct p.
Qed.

Lemma detectionOf_nonCompliantChargerPort s p :
  detectionOf (nonCompliantChargerPort s p) = detectionOf p.
Proof.
  rewrite nonCompliantChargerPort_unfold. cbv zeta.
  assert (H0 : detectionOf (set_supportsComplianceWarnings true p) = detectionOf p)
    by by destruct p.
  destruct (read_file s (complianceWarningsNode p)); [|done].
  set (p1 := foldl _ _ _).
  assert (H1 : detectionOf p1 = detectionOf p)
    by (subst p1; by rewrite detectionOf_pushReasons).
  case_match; [|done]. rewrite <- H1. by destruct p1.
Qed.

Lemma queryUsbDataSession_run s p ps :
  exists p', queryUsbDataSession s (p :: ps) = Ok (p' :: ps)
             /\ detectionOf p' = detectionOf p.
Proof. unfold queryUsbDataSession. simpl. eexists. split; [done|]. by destruct p. Qed.

(** The snapshot computation once role detection has produced at least
    one port: the remaining sub-queries all return, the subscriber (if
    any) is handed the snapshot with the outcome of role detection, and
    the fields role detection stored are delivered as it stored them. *)
Lemma queryVersionHelper_run ports s st p ps :
  getPortStatusHelper s ports = Ok (st, p :: ps) ->
  exists snapshot s1,
    queryFrame s s1
    /\ queryVersionHelper ports s
       = Done snapshot
           (if mCallback s
            then set_trace (trace s1 ++ [notifyPortStatusChange snapshot st]) s1
            else s1)
    /\ detectionOf <$> snapshot = detectionOf <$> (p :: ps).
Proof.
  intros Hg. unfold queryVersionHelper.
  unfold mbind, M_bind, lift, emit, modify, gets, mret, M_ret. cbv beta.
  rewrite Hg. cbv beta iota.
  destruct (queryMoistureDetectionStatus_run p ps s)
    as (st1 & p1 & s1 & -> & Hf1 & Hd1 & _).
  cbv beta iota.
  destruct (queryPowerTransferStatus_run p1 ps s1)
    as (st2 & p2 & s2 & -> & Hf2 & Hd2 & _).
  cbv beta iota.
  pose proof (queryFrame_trans _ _ _ Hf1 Hf2) as Hf.
  unfold queryNonCompliantChargerStatus. cbn [snd map].
  destruct (queryUsbDataSession_run s2 (nonCompliantChargerPort s2 p2)
              (map (nonCompliantChargerPort s2) ps)) as (p3 & -> & Hd3).
  assert (Hc : mCallback s2 = mCallback s) by apply Hf.
  rewrite Hc.
  eexists _, s2. split; [done|]. split.
  - by destruct (mCallback s).
  - rewrite !fmap_cons. f_equal.
    + by rewrite Hd3, detectionOf_nonCompliantChargerPort, Hd2, Hd1.
    + rewrite <- list_fmap_compose. apply list_fmap_ext.
      intros i x _. apply detectionOf_nonCompliantChargerPort.
Qed.

Lemma queryVersionHelper_fault ports s f :
  getPortStatusHelper s ports = Err f -> queryVersionHelper ports s = Crash f s.
Proof.
  intros H. unfold queryVersionHelper, mbind, M_bind, lift. by rewrite H.
Qed.

(** However the snapshot computation ends, all it adds to the trace is
    at most one [notifyPortStatusChange], and none without a
    subscriber; the subscriber and the data-enable flag stay. *)
Lemma queryVersionHelper_trace ports s :
  let s' := final (queryVersionHelper ports s) in
  mCallback s' = mCallback s /\ mUsbDataEnabled s' = mUsbDataEnabled s
  /\ exists new, trace s' = trace s ++ new
                 /\ Forall isPortStatusChange new
                 /\ (mCallback s = false -> new = []).
Proof.
  destruct (getPortStatusHelper s ports) as [[st [|p ps]]|f] eqn:Hg.
  - rewrite (queryVersionHelper_empty _ _ _ Hg). simpl.
    repeat split. exists []. by rewrite app_nil_r.
  - destruct (queryVersionHelper_run _ _ _ _ _ Hg) as (snap & s1 & Hf & -> & _).
    destruct Hf as (Hc & _ & Hu & _ & _ & _ & _ & Htr & _).
    destruct (mCallback s) eqn:E; simpl.
    + repeat split; [congruence..|]. eexists. rewrite Htr. split; [done|].
      split; [by repeat constructor | done].
    + repeat split; [congruence..|]. exists []. rewrite Htr, app_nil_r. done.
  - rewrite (queryVersionHelper_fault _ _ _ Hg). simpl.
    repeat split. exists []. by rewrite app_nil_r.
Qed.

(** ** Role detection *)


Lemma portStatusLoop_length s names : forall i ports st ports',
  portStatusLoop s names i ports = Ok (st, ports') -> length ports' = length ports.
Proof.
  induction names as [|port rest IH]; intros i ports st ports' H; simpl in H.
  - by injection H as _ <-.
  - destruct (ports !! i) as [p|]; [|done].
    destruct (portStatusBody s port p) as [[ok p']|]; [|done]. simpl in H.
    destruct ok.
    + apply IH in H. by rewrite length_insert in H.
    + injection H as _ <-. by rewrite length_insert.
Qed.


Lemma unordered_iteration_Permutation s names :
  unordered_iteration s names ≡ₚ map_to_list names.
Proof. apply merge_sort_Permutation. Qed.

Lemma length_unordered_iteration s names :
  length (unordered_iteration s names) = size names.
Proof. by rewrite unordered_iteration_Permutation, length_map_to_list. Qed.

Lemma bucket_le_trans s : Transitive (bucket_le s).
Proof. intros x y z. unfold bucket_le. lia. Qed.

Lemma bucket_le_total s : Total (bucket_le s).
Proof. intros x y. unfold bucket_le. lia. Qed.

(** The iteration goes by strictly increasing positions when the
    platform gives every key a position of its own: any order of the
    elements is the order of the iteration on the platform that
    numbers the keys in that order. *)
Lemma unordered_iteration_order s names l :
  l ≡ₚ map_to_list names ->
  StronglySorted (fun x y => pf_bucket (platform s) x.1 < pf_bucket (platform s) y.1) l ->
  unordered_iteration s names = l.
Proof.
  intros Hperm Hsorted. unfold unordered_iteration.
  pose proof (bucket_le_trans s) as Htrans.
  pose proof (bucket_le_total s) as Htotal.
  apply (Sorted_unique_strong (bucket_le s)).
  - intros x y Hx Hy Hxy Hyx.
    assert (Heq : pf_bucket (platform s) x.1 = pf_bucket (platform s) y.1)
      by (unfold bucket_le in *; lia).
    rewrite merge_sort_Permutation, <- Hperm in Hx.
    clear -Hsorted Hx Hy Heq.
    induction Hsorted as [|z l Hl IH Hz]; [by apply elem_of_nil in Hx|].
    rewrite Forall_forall in Hz.
    apply elem_of_cons in Hx as [->|Hx]; apply elem_of_cons in Hy as [->|Hy];
      try done.
    + specialize (Hz _ Hy). lia.
    + specialize (Hz _ Hx). lia.
    + by apply IH.
  - by apply Sorted_merge_sort.
  - apply StronglySorted_Sorted.
    clear -Hsorted. induction Hsorted as [|z l Hl IH Hz]; constructor; [done|].
    eapply Forall_impl; [done|]. intros y Hy. unfold bucket_le. simpl in Hy. lia.
  - by rewrite merge_sort_Permutation.
Qed.

Lemma resize_nil n : resize n [] = replicate n PortStatus_init.
Proof. unfold resize. by rewrite take_nil, Nat.sub_0_r. Qed.




(** ** Data status *)


Lemma usbDataStatus_powerBrickStatusOf s connected p :
  usbDataStatus (powerBrickStatusOf s connected p) = usbDataStatus p.
Proof. unfold powerBrickStatusOf. repeat case_match; by destruct p. Qed.







Section Operations.

Variables PULLUP_PATH ID_PATH VBUS_PATH USB_DATA_PATH kGadgetName : string.



End Operations.



(** ** Role detection leaves the warnings empty *)

Lemma complianceWarnings_usbDataStatusOf s p p' :
  usbDataStatusOf s p = Ok p' -> complianceWarnings p' = complianceWarnings p.
Proof.
  unfold usbDataStatusOf.
  destruct (read_file s kPogoUsbActive) as [active|]; simpl.
  - destruct (stoi (Trim active)) as [v|]; simpl; [|done].
    intros [= <-]. repeat case_match; by destruct p.
  - intros [= <-]. repeat case_match; by destruct p.
Qed.

Lemma complianceWarnings_powerBrickStatusOf s connected p :
  complianceWarnings (powerBrickStatusOf s connected p) = complianceWarnings p.
Proof. unfold powerBrickStatusOf. repeat case_match; by destruct p. Qed.

Lemma portStatusBody_complianceWarnings s port p ok p' :
  portStatusBody s port p = Ok (ok, p') ->
  complianceWarnings p' = complianceWarnings p.
Proof.
  unfold portStatusBody. cbv zeta.
  destruct (getCurrentRoleHelper s port.1 port.2 (PortRole.of_powerRole _)) as [st1 r1].
  destruct (bool_decide (st1 = Status.SUCCESS)); simpl;
    [|intros [= <- <-]; by destruct p].
  destruct (PortRole.get_powerRole r1) as [power|]; simpl; [|done].
  destruct (getCurrentRoleHelper s port.1 port.2 (PortRole.of_dataRole _)) as [st2 r2].
  destruct (bool_decide (st2 = Status.SUCCESS)); simpl;
    [|intros [= <- <-]; by destruct p].
  destruct (PortRole.get_dataRole r2) as [data|]; simpl; [|done].
  destruct (getCurrentRoleHelper s port.1 port.2 (PortRole.of_mode _)) as [st3 r3].
  destruct (bool_decide (st3 = Status.SUCCESS)); simpl;
    [|intros [= <- <-]; by destruct p].
  destruct (PortRole.get_mode r3) as [mode|]; simpl; [|done].
  match goal with |- context [usbDataStatusOf s ?q] => set (q0 := q) end.
  destruct (usbDataStatusOf s q0) as [q'|] eqn:Hq; simpl; [|done].
  intros [= <- <-]. rewrite complianceWarnings_powerBrickStatusOf.
  rewrite (complianceWarnings_usbDataStatusOf _ _ _ Hq). by destruct p.
Qed.

Lemma portStatusLoop_fresh s names : forall i ports st ports',
  portStatusLoop s names i ports = Ok (st, ports') ->
  Forall (fun p => complianceWarnings p = []) ports ->
  Forall (fun p => complianceWarnings p = []) ports'.
Proof.
  induction names as [|port rest IH]; intros i ports st ports' Hrun Hall;
    simpl in Hrun.
  - by injection Hrun as _ <-.
  - destruct (ports !! i) as [pi|] eqn:Hpi; [|done].
    destruct (portStatusBody s port pi) as [[ok pi']|] eqn:Hbody; [|done].
    simpl in Hrun.
    assert (Hall' : Forall (fun p => complianceWarnings p = []) (<[i := pi']> ports)).
    { apply Forall_insert; [done|].
      rewrite (portStatusBody_complianceWarnings _ _ _ _ _ Hbody).
      rewrite Forall_lookup in Hall. by apply (Hall i). }
    destruct ok; [by eapply IH | by injection Hrun as _ <-].
Qed.

(** The hypothesis of the two theorems on compliance warnings holds in
    the snapshot computation: role detection hands on ports without
    warnings. *)
Lemma getPortStatusHelper_fresh s st ports :
  getPortStatusHelper s [] = Ok (st, ports) ->
  Forall (fun p => complianceWarnings p = []) ports.
Proof.
  unfold getPortStatusHelper.
  destruct (getTypeCPortNamesHelper s ∅) as [result names].
  case_bool_decide; [|by intros [= _ <-]].
  rewrite resize_nil. intros Hrun.
  apply (portStatusLoop_fresh _ _ _ _ _ _ Hrun).
  by apply Forall_replicate.
Qed.

(** ** Notifications *)

Lemma orderlyAt_bind {A B} (m : M A) (k : A -> M B) s :
  orderlyAt m s ->
  (forall a s', m s = Done a s' -> orderlyAt (k a) s') ->
  orderlyAt (m ≫= k) s.
Proof.
  intros (Hc & new & Htr & Hq) Hk. unfold orderlyAt, mbind, M_bind.
  destruct (m s) as [a s'|f s'] eqn:Hm; simpl in *.
  - destruct (Hk a s' eq_refl) as (Hc' & new' & Htr' & Hq').
    split; [congruence|]. exists (new ++ new'). split.
    + by rewrite Htr', Htr, app_assoc.
    + intros Hs. apply Forall_app. split; [by apply Hq|]. apply Hq'. congruence.
  - split; [done|]. by exists new.
Qed.

Lemma steadyAt_bind {A B} (m : M A) (k : A -> M B) s :
  steadyAt m s ->
  (forall a s', m s = Done a s' -> steadyAt (k a) s') ->
  steadyAt (m ≫= k) s.
Proof.
  intros [(a & s' & Hm) Ho] Hk. split.
  - destruct (Hk a s' Hm) as [(b & s'' & Hk') _].
    exists b, s''. unfold mbind, M_bind. by rewrite Hm.
  - apply orderlyAt_bind; [done|]. intros a' s'' Hm'. by apply Hk.
Qed.

Lemma steadyAt_orderlyAt {A} (m : M A) s : steadyAt m s -> orderlyAt m s.
Proof. by intros [_ ?]. Qed.

(** An action that returns the state with the subscriber and the trace
    as they were. *)
Lemma steadyAt_frame {A} (m : M A) s a s' :
  m s = Done a s' -> mCallback s' = mCallback s -> trace s' = trace s ->
  steadyAt m s.
Proof.
  intros Hm Hc Htr. split; [by eauto|]. unfold orderlyAt. rewrite Hm. simpl.
  split; [done|]. exists []. rewrite app_nil_r. split; [done|]. by constructor.
Qed.

(** An action that returns having added events that are no
    notifications. *)
Lemma steadyAt_quiet {A} (m : M A) s a s' new :
  m s = Done a s' -> mCallback s' = mCallback s -> trace s' = trace s ++ new ->
  Forall (fun e => ~ isNotification e) new ->
  steadyAt m s.
Proof.
  intros Hm Hc Htr Hq. split; [by eauto|]. unfold orderlyAt. rewrite Hm. simpl.
  split; [done|]. by exists new.
Qed.

Lemma steadyAt_ret {A} (a : A) s : steadyAt (mret a) s.
Proof. by apply (steadyAt_frame _ s a s). Qed.

Lemma steadyAt_gets {A} (f : State -> A) s : steadyAt (gets f) s.
Proof. by apply (steadyAt_frame _ s (f s) s). Qed.

Lemma steadyAt_WriteStringToFile content path s :
  steadyAt (WriteStringToFile content path) s.
Proof.
  unfold WriteStringToFile.
  destruct (writable s path) eqn:E.
  - eapply steadyAt_quiet; [by rewrite E| | |]; [done|done|].
    repeat constructor. by intros [].
  - eapply steadyAt_frame; [by rewrite E| |]; done.
Qed.

Lemma steadyAt_fopen_w path s : steadyAt (fopen_w path) s.
Proof.
  unfold fopen_w.
  destruct (writable s path) eqn:E;
    (eapply steadyAt_frame; [by rewrite E| |]; done).
Qed.

Lemma steadyAt_fputs data path s : steadyAt (fputs data path) s.
Proof.
  unfold fputs.
  destruct (decide (pf_fputs (platform s) path = EOF)) eqn:E.
  - eapply steadyAt_frame; [by rewrite E| |]; done.
  - eapply steadyAt_quiet; [by rewrite E| | |]; [done|done|].
    repeat constructor. by intros [].
Qed.

Lemma steadyAt_emit_quiet e s : ~ isNotification e -> steadyAt (emit e) s.
Proof.
  intros He. eapply steadyAt_quiet; [reflexivity| | |]; [done|done|].
  by repeat constructor.
Qed.

(** The guarded call into the callback, as every operation writes it. *)
Lemma steadyAt_notify e s :
  steadyAt (if mCallback s then emit e else mret tt) s.
Proof.
  destruct (mCallback s) eqn:E; [|apply steadyAt_ret].
  split; [by eexists _, _|]. unfold orderlyAt, emit, modify. simpl.
  split; [done|]. eexists. split; [done|]. congruence.
Qed.

Lemma steadyAt_switchToDrp port s : steadyAt (switchToDrp port) s.
Proof.
  unfold switchToDrp. cbv zeta. rewrite appendRoleNodeHelper_nonempty. cbn [negb].
  apply steadyAt_bind; [apply steadyAt_fopen_w|]. intros [] s1 _; [|apply steadyAt_ret].
  apply steadyAt_bind; [apply steadyAt_fputs|]. intros ret s2 _. apply steadyAt_ret.
Qed.

Lemma steadyAt_wait T budget s :
  length (wakes s) <= budget -> steadyAt (wait_again T budget) s.
Proof.
  intros Hlen.
  destruct (wait_again_run T (wakes s) budget s eq_refl Hlen)
    as (b & s' & ds & Hrun & Htr & _ & _ & Hc & _).
  eapply steadyAt_quiet; [done..|].
  apply Forall_forall. intros e He. apply list_elem_of_fmap in He as (d & -> & _).
  by intros [].
Qed.

Lemma steadyAt_switchMode T port role s : steadyAt (switchMode T port role) s.
Proof.
  unfold switchMode. cbv zeta. rewrite appendRoleNodeHelper_nonempty.
  apply steadyAt_bind; [apply steadyAt_fopen_w|]. intros fp s1 _.
  apply steadyAt_bind.
  - destruct fp; [|apply steadyAt_ret].
    apply steadyAt_bind; [by eapply steadyAt_frame|]. intros [] s2 _.
    apply steadyAt_bind; [apply steadyAt_fputs|]. intros ret s3 _.
    destruct (decide (ret <> EOF)); [|apply steadyAt_ret].
    apply steadyAt_bind; [apply steadyAt_gets|]. intros pending s4 [= <- <-].
    by apply steadyAt_wait.
  - intros roleSwitch s2 _.
    apply steadyAt_bind; [|intros; apply steadyAt_ret].
    destruct (negb roleSwitch); [apply steadyAt_switchToDrp | apply steadyAt_ret].
Qed.

Lemma orderlyAt_queryVersionHelper ports s : orderlyAt (queryVersionHelper ports) s.
Proof.
  destruct (queryVersionHelper_trace ports s) as (Hc & _ & new & Htr & Hn & He).
  split; [done|]. exists new. split; [done|]. intros Hcb. by rewrite (He Hcb).
Qed.

Lemma notifiesAt_after {A B} P (m : M A) (k : A -> M B) s :
  steadyAt m s ->
  (forall a s', m s = Done a s' -> mCallback s' = mCallback s -> notifiesAt P (k a) s') ->
  notifiesAt P (m ≫= k) s.
Proof.
  intros [(a & s' & Hm) (Hc & new & Htr & _)] Hk.
  rewrite Hm in Hc, Htr. simpl in Hc, Htr.
  destruct (Hk a s' Hm Hc) as (new' & e & Htr' & He & HP).
  exists (new ++ new'), e. unfold mbind, M_bind. rewrite Hm.
  rewrite Htr', Htr, app_assoc. split; [done|]. split; [set_solver | done].
Qed.

Lemma notifiesAt_emit_then {B} P e (rest : M B) s :
  P e -> orderlyAt rest (set_trace (trace s ++ [e]) s) ->
  notifiesAt P (emit e ≫= fun _ => rest) s.
Proof.
  intros HP (_ & new & Htr & _). exists (e :: new), e.
  unfold mbind, M_bind, emit, modify. rewrite Htr. simpl.
  rewrite <- app_assoc. split; [done|]. split; [set_solver | done].
Qed.

Lemma notifiesAt_emit P e s : P e -> notifiesAt P (emit e) s.
Proof.
  intros HP. exists [e], e. split; [done|]. split; [set_solver | done].
Qed.

Ltac subst_gets :=
  match goal with
  | H : gets mCallback _ = Done _ _ |- _ => unfold gets in H; injection H as <- <-
  end.

Ltac steady :=
  repeat first
    [ subst_gets
    | apply steadyAt_ret
    | apply steadyAt_gets
    | apply steadyAt_WriteStringToFile
    | apply steadyAt_fopen_w
    | apply steadyAt_fputs
    | apply steadyAt_switchToDrp
    | apply steadyAt_switchMode
    | apply steadyAt_notify
    | apply steadyAt_emit_quiet; by intros []
    | eapply steadyAt_frame; [reflexivity | reflexivity | reflexivity]
    | apply steadyAt_bind; [|intros ? ? ?]
    | match goal with
      | |- steadyAt (if ?b && ?g then _ else _) _ =>
          destruct g; [rewrite andb_true_r | rewrite andb_false_r]
      | |- steadyAt (if mCallback _ then _ else _) _ => fail 1
      | |- steadyAt (if ?b then _ else _) _ => destruct b
      | |- steadyAt (match ?x with _ => _ end) _ => destruct x
      end ].

Ltac orderly :=
  repeat first
    [ subst_gets
    | apply orderlyAt_queryVersionHelper
    | apply steadyAt_orderlyAt; solve [steady]
    | apply orderlyAt_bind; [|intros ? ? ?]
    | match goal with
      | |- orderlyAt (if ?b then _ else _) _ => destruct b
      | |- orderlyAt (match ?x with _ => _ end) _ => destruct x
      end ].

Lemma steadyAt_locateI2cClient s : steadyAt locateI2cClient s.
Proof. unfold locateI2cClient. steady. Qed.

Section Notifications.

Variables PULLUP_PATH ID_PATH VBUS_PATH USB_DATA_PATH kGadgetName : string.
Variables PORT_TYPE_TIMEOUT ROLE_SWAP_RETRY_MS : Z.

Local Abbreviation run :=
  (runOperation PULLUP_PATH ID_PATH VBUS_PATH USB_DATA_PATH kGadgetName
     PORT_TYPE_TIMEOUT ROLE_SWAP_RETRY_MS).

Lemma orderlyAt_run op s : orderlyAt (run op) s.
Proof.
  destruct op; simpl;
    unfold queryPortStatus, switchRole, enableUsbData, enableUsbDataWhileDocked,
      resetUsbPort, limitPowerTransfer, enableContaminantPresenceDetection,
      ReadFileToString;
    cbv zeta; rewrite ?appendRoleNodeHelper_nonempty; orderly.
Qed.

Lemma locateI2cClient_found s :
  mI2cClientPath s <> "" \/ pf_i2c (platform s) <> "" ->
  exists s', locateI2cClient s = Done true s'
             /\ mCallback s' = mCallback s /\ trace s' = trace s.
Proof.
  intros H. unfold locateI2cClient, mbind, M_bind, gets, modify, mret, M_ret.
  cbv beta. destruct (String.eqb (mI2cClientPath s) "") eqn:E.
  - destruct H as [H|H]; [by apply String.eqb_eq in E|].
    apply String.eqb_neq in H. rewrite H. by eexists.
  - by eexists.
Qed.

(** Steps through the writes that come before a notification. *)
Ltac prefix :=
  apply notifiesAt_after;
  [solve [steady] |
   let H := fresh "Hcb" in
   intros ? ? _ H;
   match goal with Hs : mCallback ?s = true |- _ => rewrite Hs in H; clear Hs end].

(** The guarded notification itself. *)
Ltac notify :=
  apply notifiesAt_after; [apply steadyAt_gets|];
  let H := fresh in
  intros ? ? H _; unfold gets in H; injection H as <- <-;
  match goal with Hs : mCallback _ = true |- _ => rewrite Hs end.

Lemma notifiesAt_run op s :
  mCallback s = true -> notifiable op s -> notifiesAt (reportsOutcome op) (run op) s.
Proof.
  intros Hcb Hok. destruct op as [id|port role id|port en id|port id|port id|port lim id|port en id];
    simpl.
  - destruct Hok as (snapshot & s' & Hq).
    destruct (queryVersionHelper_trace [] s) as (Hc & _ & new & Htr & _).
    rewrite Hq in Hc, Htr. simpl in Hc, Htr.
    unfold notifiesAt, queryPortStatus, mbind, M_bind, gets, emit, modify, mret, M_ret.
    cbv beta. rewrite Hq, Hc, Hcb. simpl.
    exists (new ++ [notifyQueryPortStatus "all" Status.SUCCESS id]),
      (notifyQueryPortStatus "all" Status.SUCCESS id).
    rewrite Htr, app_assoc. split; [done|]. split; [set_solver | done].
  - unfold switchRole. cbv zeta. rewrite appendRoleNodeHelper_nonempty.
    prefix. prefix. notify.
    apply notifiesAt_emit_then; [by eexists | orderly].
  - unfold enableUsbData, ReadFileToString.
    prefix. prefix. notify.
    apply notifiesAt_emit_then; [by eexists | orderly].
  - unfold enableUsbDataWhileDocked.
    prefix. prefix. notify.
    apply notifiesAt_emit_then; [by eexists | orderly].
  - unfold resetUsbPort.
    prefix. notify.
    apply notifiesAt_emit. by eexists.
  - destruct Hok as [Hid Hi2c].
    destruct (locateI2cClient_found s Hi2c) as (s1 & Hloc & Hc1 & _).
    unfold limitPowerTransfer.
    apply notifiesAt_after; [apply steadyAt_locateI2cClient|].
    intros located s1' Hloc' Hc1'. rewrite Hloc in Hloc'. injection Hloc' as <- <-.
    rewrite Hcb in Hc1'. clear Hcb. cbn [negb].
    prefix. prefix. prefix. prefix. notify.
    apply Z.leb_le in Hid. rewrite Hid. cbn [andb].
    apply notifiesAt_emit_then; [by eexists | orderly].
  - unfold enableContaminantPresenceDetection.
    prefix. prefix. notify.
    apply notifiesAt_emit_then; [by eexists | orderly].
Qed.

(** C8, as the code has it: with a subscriber registered, every
    caller-initiated operation calls its own notification callback with
    its arguments and transaction identifier, whatever the port, the
    role (of any kind) or the values are, under the guards the code
    puts before two of them: [limitPowerTransfer] notifies only for a
    non-negative transaction identifier, once the I2C client is
    located, and [queryPortStatus] notifies once the snapshot
    computation has returned.  Without a subscriber no operation calls
    any callback. *)
Theorem outcome_notification (op : Operation) (s : State) :
  (mCallback s = true -> notifiable op s ->
   notifiesAt (reportsOutcome op) (run op) s)
  /\ (mCallback s = false ->
      exists new, trace (final (run op s)) = trace s ++ new
                  /\ Forall (fun e => ~ isNotification e) new).
Proof.
  split.
  - apply notifiesAt_run.
  - intros Hcb. destruct (orderlyAt_run op s) as (_ & new & Htr & Hq).
    exists new. split; [done | by apply Hq].
Qed.

End Notifications.

Lemma outcome_notification_witness :
  notifiesAt (reportsOutcome (OpLimitPowerTransfer "port0" true 5))
    (runOperation ex_PULLUP_PATH ex_ID_PATH ex_VBUS_PATH ex_USB_DATA_PATH ex_kGadgetName
       8 700 (OpLimitPowerTransfer "port0" true 5))
    st_one_port.
Proof.
  apply (proj1 (outcome_notification ex_PULLUP_PATH ex_ID_PATH ex_VBUS_PATH
                  ex_USB_DATA_PATH ex_kGadgetName 8 700
                  (OpLimitPowerTransfer "port0" true 5) st_one_port)).
  - reflexivity.
  - split; [lia | right; discriminate].
Defined.

(** C8 fails as stated: with a subscriber registered,
    [limitPowerTransfer ("port0", true, -1)] writes the three limit
    nodes and recomputes the status, but never calls
    [notifyLimitPowerTransferStatus]. *)
Lemma negative_transaction_id_is_not_reported :
  mCallback st_one_port = true
  /\ ~ notifiesAt (reportsOutcome (OpLimitPowerTransfer "port0" true (-1)))
        (limitPowerTransfer "port0" true (-1)) st_one_port.
Proof.
  split; [reflexivity|].
  intros (new & e & Htr & He & st & ->).
  vm_compute in Htr. subst new.
  repeat (apply elem_of_cons in He as [He|He]; [discriminate|]).
  by apply elem_of_nil in He.
Qed.

(** * Further properties *)

(** ** Strings *)

Lemma find_char_cons c d s :
  find (String c "") (String d s) =
  if Ascii.eqb c d then Some 0 else S <$> find (String c "") s.
Proof.
  simpl. destruct (ascii_dec c d) as [->|Hne].
  - rewrite Ascii.eqb_refl. by destruct s.
  - by rewrite (proj2 (Ascii.eqb_neq c d) Hne).
Qed.

Lemma find_char_app c pre s :
  lacks c pre ->
  find (String c "") (pre +:+ s) = (fun n => String.length pre + n) <$> find (String c "") s.
Proof.
  unfold lacks. induction pre as [|d pre IH]; intros H.
  - change ("" +:+ s) with s. by destruct (find (String c "") s).
  - rewrite find_char_cons in H. change (String d pre +:+ s) with (String d (pre +:+ s)).
    rewrite find_char_cons. destruct (Ascii.eqb c d); [done|].
    destruct (find (String c "") pre) eqn:E; [done|].
    rewrite IH by done. by destruct (find _ s).
Qed.

Lemma find_char_here c s : find (String c "") (String c s) = Some 0.
Proof. by rewrite find_char_cons, Ascii.eqb_refl. Qed.

Lemma length_append a b : String.length (a +:+ b) = String.length a + String.length b.
Proof. induction a; simpl; [done | by f_equal]. Qed.

Lemma substring_skip a b n : String.substring (String.length a) n (a +:+ b) = String.substring 0 n b.
Proof. induction a; simpl; [done|]. done. Qed.

Lemma substring_take a b : String.substring 0 (String.length a) (a +:+ b) = a.
Proof.
  induction a as [|c a IH]; simpl.
  - by destruct b.
  - by rewrite IH.
Qed.

Lemma substring_all a : String.substring 0 (String.length a) a = a.
Proof. induction a as [|c a IH]; simpl; [done | by rewrite IH]. Qed.

Lemma append_assoc a b c : (a +:+ b) +:+ c = a +:+ b +:+ c.
Proof.
  induction a as [|x a IH]; [done|].
  change ((String x a +:+ b) +:+ c) with (String x ((a +:+ b) +:+ c)). by rewrite IH.
Qed.

Lemma extractRole_between pre w post :
  lacks "[" pre -> lacks "]" pre -> lacks "]" w ->
  fitsSize (pre +:+ "[" +:+ w +:+ "]" +:+ post) ->
  extractRole (pre +:+ "[" +:+ w +:+ "]" +:+ post) = w.
Proof.
  intros Hpre1 Hpre2 Hw Hfit.
  assert (Hlen : String.length (pre +:+ "[" +:+ w +:+ "]" +:+ post)
                 = String.length pre + S (String.length w + S (String.length post))).
  { rewrite length_append. change ("[" +:+ w +:+ "]" +:+ post)
      with (String "[" (w +:+ String "]" post)).
    simpl String.length. rewrite length_append. done. }
  assert (Hfirst : find "[" (pre +:+ "[" +:+ w +:+ "]" +:+ post)
                   = Some (String.length pre)).
  { rewrite (find_char_app "[" pre) by done.
    change ("[" +:+ w +:+ "]" +:+ post) with (String "[" (w +:+ "]" +:+ post)).
    rewrite find_char_here. simpl. f_equal. lia. }
  assert (Hlast : find "]" (pre +:+ "[" +:+ w +:+ "]" +:+ post)
                  = Some (String.length pre + S (String.length w))).
  { rewrite (find_char_app "]" pre) by done.
    change ("[" +:+ w +:+ "]" +:+ post) with (String "[" (w +:+ "]" +:+ post)).
    rewrite find_char_cons. change (Ascii.eqb "]" "[") with false. cbv iota.
    rewrite (find_char_app "]" w) by done.
    change ("]" +:+ post) with (String "]" post). rewrite find_char_here.
    simpl. do 2 f_equal. lia. }
  unfold extractRole, substr, fitsSize in *. rewrite Hfirst, Hlast, Hlen in *.
  replace ((Z.of_nat (String.length pre + S (String.length w))
            - Z.of_nat (String.length pre) - 1) mod 2 ^ 64)%Z
    with (Z.of_nat (String.length w)) by (rewrite Z.mod_small; lia).
  rewrite Z.min_l by lia. rewrite Nat2Z.id.
  replace (Z.to_nat (Z.of_nat (String.length pre) + 1))
    with (String.length (pre +:+ "[")) by (rewrite length_append; simpl; lia).
  rewrite <- (append_assoc pre "[").
  rewrite substring_skip. apply substring_take.
Qed.

Lemma extractRole_plain s : lacks "[" s \/ lacks "]" s -> extractRole s = s.
Proof.
  unfold extractRole, lacks. intros [H|H]; rewrite H; [done|].
  by destruct (find "[" s).
Qed.

(** X1: a role name that holds a bracketed word, with no bracket before
    it, is cut down to the word between the first opening and the
    first closing bracket, whatever surrounds it; a role name that
    lacks one of the two brackets is left as it is. *)
Theorem extractRole_bracketed pre w post roleName :
  (lacks "[" pre -> lacks "]" pre -> lacks "]" w ->
   fitsSize (pre +:+ "[" +:+ w +:+ "]" +:+ post) ->
   extractRole (pre +:+ "[" +:+ w +:+ "]" +:+ post) = w)
  /\ (lacks "[" roleName \/ lacks "]" roleName -> extractRole roleName = roleName).
Proof.
  split.
  - apply extractRole_between.
  - apply extractRole_plain.
Qed.

Lemma extractRole_bracketed_witness :
  extractRole "source [sink]" = "sink" /\ extractRole "none" = "none".
Proof.
  destruct (extractRole_bracketed "source " "sink" "" "none") as [H1 H2].
  split.
  - apply H1; try reflexivity.
  - apply H2. left. reflexivity.
Defined.

(** X2: when the first closing bracket comes before the first opening
    one, the length [last - first - 1] wraps around as a [size_t] and
    the role name is cut down to everything after the opening
    bracket. *)
Theorem extractRole_reversed pre mid post :
  lacks "[" pre -> lacks "]" pre -> lacks "[" mid ->
  fitsSize (pre +:+ "]" +:+ mid +:+ "[" +:+ post) ->
  extractRole (pre +:+ "]" +:+ mid +:+ "[" +:+ post) = post.
Proof.
  intros Hpre1 Hpre2 Hmid Hfit.
  assert (Hlen : String.length (pre +:+ "]" +:+ mid +:+ "[" +:+ post)
                 = String.length pre + S (String.length mid + S (String.length post))).
  { rewrite length_append. change ("]" +:+ mid +:+ "[" +:+ post)
      with (String "]" (mid +:+ String "[" post)).
    simpl String.length. rewrite length_append. done. }
  assert (Hlast : find "]" (pre +:+ "]" +:+ mid +:+ "[" +:+ post)
                  = Some (String.length pre)).
  { rewrite (find_char_app "]" pre) by done.
    change ("]" +:+ mid +:+ "[" +:+ post) with (String "]" (mid +:+ "[" +:+ post)).
    rewrite find_char_here. simpl. f_equal. lia. }
  assert (Hfirst : find "[" (pre +:+ "]" +:+ mid +:+ "[" +:+ post)
                   = Some (String.length pre + S (String.length mid))).
  { rewrite (find_char_app "[" pre) by done.
    change ("]" +:+ mid +:+ "[" +:+ post) with (String "]" (mid +:+ "[" +:+ post)).
    rewrite find_char_cons. change (Ascii.eqb "[" "]") with false. cbv iota.
    rewrite (find_char_app "[" mid) by done.
    change ("[" +:+ post) with (String "[" post). rewrite find_char_here.
    simpl. do 2 f_equal. lia. }
  unfold extractRole, substr, fitsSize in *. rewrite Hfirst, Hlast, Hlen in *.
  replace ((Z.of_nat (String.length pre)
            - Z.of_nat (String.length pre + S (String.length mid)) - 1) mod 2 ^ 64)%Z
    with (2 ^ 64 - Z.of_nat (String.length mid) - 2)%Z.
  2:{ apply Z.mod_unique_pos with (q := (-1)%Z); lia. }
  rewrite Z.min_r by lia.
  replace (Z.to_nat (Z.of_nat (String.length pre + S (String.length mid)) + 1))
    with (String.length ((pre +:+ "]" +:+ mid) +:+ "["))
    by (rewrite !length_append; simpl; lia).
  replace (Z.to_nat _) with (String.length post) by lia.
  replace (pre +:+ "]" +:+ mid +:+ "[" +:+ post)
    with (((pre +:+ "]" +:+ mid) +:+ "[") +:+ post)
    by (by rewrite !append_assoc).
  rewrite substring_skip. apply substring_all.
Qed.

Lemma extractRole_reversed_witness : extractRole "a]bc[host" = "host".
Proof. apply (extractRole_reversed "a" "bc" "host"); reflexivity. Defined.

(** ** Reading a role back *)

Lemma getTag_of_role role currentRole :
  PortRole.getTag currentRole = PortRole.getTag role ->
  PortRole.getTag role <> PortRole.mode ->
  PortRole.getTag currentRole <> PortRole.mode.
Proof. by intros ->. Qed.

(** X3: for a power or a data role other than NONE, the word that
    [switchRole] writes is read back as the same role: when the role
    node of a connected port holds that word between its first
    brackets, or holds nothing but that word, the query answers
    SUCCESS with the role, whatever role the caller passed in under the
    same tag. *)
Theorem role_read_back s portName role currentRole content :
  PortRole.getTag role <> PortRole.mode ->
  convertRoletoString role <> "none" ->
  PortRole.getTag currentRole = PortRole.getTag role ->
  read_file s (appendRoleNodeHelper portName (PortRole.getTag role)) = Some content ->
  (Trim content = convertRoletoString role
   \/ exists pre post,
        Trim content = pre +:+ "[" +:+ convertRoletoString role +:+ "]" +:+ post
        /\ lacks "[" pre /\ lacks "]" pre /\ fitsSize (Trim content)) ->
  getCurrentRoleHelper s portName true currentRole = (Status.SUCCESS, role).
Proof.
  intros Hmode Hnone Htag Hread Hcontent.
  assert (Hrole : extractRole (Trim content) = convertRoletoString role).
  { destruct Hcontent as [H|(pre & post & H & Hpre1 & Hpre2 & Hfit)]; rewrite H in *.
    - apply extractRole_plain. left.
      by destruct role as [[]|[]|[]].
    - apply extractRole_between; try done.
      by destruct role as [[]|[]|[]]. }
  unfold getCurrentRoleHelper. rewrite Htag.
  destruct role as [[]|[]|m]; try done;
    unfold appendRoleNodeHelper in Hread; simpl in Hread |- *;
    rewrite append_assoc in Hread;
    rewrite ?decide_False by done; rewrite Hread, Hrole; done.
Qed.

Lemma role_read_back_witness :
  getCurrentRoleHelper
    (set_files {[ "/sys/class/typec/port0/data_role" := "[host] device" ]} st_one_port)
    "port0" true (PortRole.of_dataRole PortDataRole.NONE)
  = (Status.SUCCESS, PortRole.of_dataRole PortDataRole.HOST).
Proof.
  apply (role_read_back _ "port0" (PortRole.of_dataRole PortDataRole.HOST) _
           "[host] device"); try done.
  right. exists "", " device". split_and!; reflexivity.
Defined.

(** X4: in a mode query of a connected port the accessory node of the
    partner comes first.  When it cannot be read the query fails with
    the mode NONE; when it holds [analog_audio] or [debug] the answer is
    the matching accessory mode; in all three cases the data-role node
    is not looked at. *)
Theorem accessory_mode_comes_first s portName currentRole :
  PortRole.getTag currentRole = PortRole.mode ->
  let node := "/sys/class/typec/" +:+ portName +:+ "-partner/accessory_mode" in
  (read_file s node = None ->
   getCurrentRoleHelper s portName true currentRole
   = (Status.ERROR, PortRole.of_mode PortMode.NONE))
  /\ (forall accessory, read_file s node = Some accessory ->
      Trim accessory = "analog_audio" ->
      getCurrentRoleHelper s portName true currentRole
      = (Status.SUCCESS, PortRole.of_mode PortMode.AUDIO_ACCESSORY))
  /\ (forall accessory, read_file s node = Some accessory ->
      Trim accessory = "debug" ->
      getCurrentRoleHelper s portName true currentRole
      = (Status.SUCCESS, PortRole.of_mode PortMode.DEBUG_ACCESSORY)).
Proof.
  intros Htag node. unfold getCurrentRoleHelper, getAccessoryConnected.
  rewrite Htag. fold node. split_and!.
  - by intros ->.
  - intros accessory -> Hacc. by rewrite Hacc.
  - intros accessory -> Hacc. by rewrite Hacc.
Qed.

Lemma accessory_mode_comes_first_witness :
  getCurrentRoleHelper
    (set_files (<["/sys/class/typec/port0-partner/accessory_mode" := "debug"]> files_one_port)
       st_one_port)
    "port0" true (PortRole.of_mode PortMode.NONE)
  = (Status.SUCCESS, PortRole.of_mode PortMode.DEBUG_ACCESSORY).
Proof.
  eapply (accessory_mode_comes_first _ "port0" (PortRole.of_mode PortMode.NONE));
    reflexivity.
Defined.

(** ** Port enumeration *)

Lemma addPortName_lookup names ep k :
  addPortName names ep !! k
  = if partnerLinkOf k ep then Some true
    else match names !! k with
         | Some b => Some b
         | None => if portLinkOf k ep then Some false else None
         end.
Proof.
  unfold addPortName, partnerLinkOf, portLinkOf.
  destruct (d_is_lnk ep); simpl; [|by destruct (names !! k)].
  destruct (find "-partner" (d_name ep)) as [i|] eqn:Hfind.
  - rewrite bool_decide_eq_true_2 by done. simpl.
    case_bool_decide as Hk.
    + by rewrite <- Hk, lookup_insert_eq.
    + rewrite lookup_insert_ne by done. by destruct (names !! k).
  - rewrite bool_decide_eq_false_2 by (by intros [? ?]). simpl.
    case_bool_decide as Hk.
    + subst k. destruct (names !! d_name ep) as [b|] eqn:Hb.
      * by rewrite Hb.
      * by rewrite lookup_insert_eq.
    + destruct (names !! d_name ep) as [b|] eqn:Hb.
      * by destruct (names !! k).
      * rewrite lookup_insert_ne by done. by destruct (names !! k).
Qed.

Lemma foldl_addPortName_lookup entries : forall names k,
  foldl addPortName names entries !! k
  = if existsb (partnerLinkOf k) entries then Some true
    else match names !! k with
         | Some b => Some b
         | None => if existsb (portLinkOf k) entries then Some false else None
         end.
Proof.
  induction entries as [|ep rest IH]; intros names k; simpl.
  - by destruct (names !! k).
  - rewrite IH, addPortName_lookup.
    destruct (partnerLinkOf k ep), (existsb (partnerLinkOf k) rest),
      (names !! k) as [[]|], (portLinkOf k ep), (existsb (portLinkOf k) rest); done.
Qed.

Lemma existsb_Permutation {A} (f : A -> bool) l l' :
  l ≡ₚ l' -> existsb f l = existsb f l'.
Proof.
  intros H. apply Bool.eq_iff_eq_true. rewrite !existsb_exists.
  split; intros (x & Hin & Hx); exists x; split; try done.
  - by eapply Permutation_in.
  - eapply Permutation_in; [symmetry|]; done.
Qed.

(** X5: what port enumeration finds.  When /sys/class/typec can be
    opened the enumeration succeeds, and a name [k] is in the result as
    connected exactly when some entry is a partner link of [k], as not
    connected when there is none and some entry is the link of the
    port [k], and is absent otherwise: the names that were not links,
    such as the dot entries, leave no trace. *)
Theorem port_names_from_links s entries k :
  pf_typec (platform s) = Some entries ->
  exists names,
    getTypeCPortNamesHelper s ∅ = (Status.SUCCESS, names)
    /\ names !! k
       = if existsb (partnerLinkOf k) entries then Some true
         else if existsb (portLinkOf k) entries then Some false
         else None.
Proof.
  intros H. unfold getTypeCPortNamesHelper. rewrite H. eexists. split; [done|].
  rewrite foldl_addPortName_lookup. by rewrite lookup_empty.
Qed.

Lemma port_names_from_links_witness :
  exists names,
    getTypeCPortNamesHelper st_one_port ∅ = (Status.SUCCESS, names)
    /\ names !! "port0" = Some true.
Proof.
  destruct (port_names_from_links st_one_port
              [mkDirent "." false; mkDirent "port0" true; mkDirent "port0-partner" true]
              "port0" eq_refl) as (names & H1 & H2).
  exists names. split; [exact H1|exact H2].
Defined.

(** X6: the result of port enumeration does not depend on the order in
    which [readdir] hands out the entries. *)
Theorem port_names_order_independent s s' entries entries' names :
  pf_typec (platform s) = Some entries ->
  pf_typec (platform s') = Some entries' ->
  entries ≡ₚ entries' ->
  getTypeCPortNamesHelper s names = getTypeCPortNamesHelper s' names.
Proof.
  intros H H' Hperm. unfold getTypeCPortNamesHelper. rewrite H, H'. f_equal.
  apply map_eq. intros k. rewrite !foldl_addPortName_lookup.
  by rewrite !(existsb_Permutation _ _ _ Hperm).
Qed.

Lemma port_names_order_independent_witness :
  getTypeCPortNamesHelper st_one_port ∅
  = getTypeCPortNamesHelper st_one_port_reordered ∅.
Proof.
  eapply (port_names_order_independent st_one_port st_one_port_reordered);
    [reflexivity | reflexivity |].
  exact (Permutation_rev [mkDirent "." false; mkDirent "port0" true;
                          mkDirent "port0-partner" true]).
Defined.

(** ** Role detection *)

(** The two last blocks of the loop body each change one field. *)
Lemma usbDataStatusOf_only s p q :
  usbDataStatusOf s p = Ok q -> q = set_usbDataStatus (usbDataStatus q) p.
Proof.
  unfold usbDataStatusOf.
  destruct (read_file s kPogoUsbActive) as [active|]; simpl.
  - destruct (stoi (Trim active)) as [v|]; simpl; [|done].
    intros [= <-]. repeat case_match; by destruct p.
  - intros [= <-]. repeat case_match; by destruct p.
Qed.

Lemma powerBrickStatusOf_only s connected p :
  powerBrickStatusOf s connected p
  = set_powerBrickStatus (powerBrickStatus (powerBrickStatusOf s connected p)) p.
Proof. unfold powerBrickStatusOf. repeat case_match; by destruct p. Qed.

(** A loop body that runs to its end has seen three successful role
    queries, each answering under the tag it was asked for. *)
Lemma portStatusBody_complete s port p p' :
  portStatusBody s port p = Ok (true, p') ->
  exists power data mode q,
    getCurrentRoleHelper s port.1 port.2 (PortRole.of_powerRole PortPowerRole.NONE)
    = (Status.SUCCESS, PortRole.of_powerRole power)
    /\ getCurrentRoleHelper s port.1 port.2 (PortRole.of_dataRole PortDataRole.NONE)
       = (Status.SUCCESS, PortRole.of_dataRole data)
    /\ getCurrentRoleHelper s port.1 port.2 (PortRole.of_mode PortMode.NONE)
       = (Status.SUCCESS, PortRole.of_mode mode)
    /\ usbDataStatusOf s
         (push_supportedModes PortMode.DRP
            (set_canChangePowerRole (if port.2 then canSwitchRoleHelper s port.1 else false)
               (set_canChangeDataRole (if port.2 then canSwitchRoleHelper s port.1 else false)
                  (set_canChangeMode true
                     (set_currentMode mode
                        (set_currentDataRole data
                           (set_currentPowerRole power (set_portName port.1 p))))))))
       = Ok q
    /\ p' = powerBrickStatusOf s port.2 q.
Proof.
  unfold portStatusBody. cbv zeta.
  destruct (getCurrentRoleHelper s port.1 port.2 (PortRole.of_powerRole _)) as [st1 r1].
  case_bool_decide as H1; simpl; [subst st1|done].
  destruct r1 as [power| |]; simpl; [|done..].
  destruct (getCurrentRoleHelper s port.1 port.2 (PortRole.of_dataRole _)) as [st2 r2].
  case_bool_decide as H2; simpl; [subst st2|done].
  destruct r2 as [|data|]; simpl; [done| |done].
  destruct (getCurrentRoleHelper s port.1 port.2 (PortRole.of_mode _)) as [st3 r3].
  case_bool_decide as H3; simpl; [subst st3|done].
  destruct r3 as [| |mode]; simpl; [done..|].
  destruct (usbDataStatusOf s _) as [q|] eqn:Hq; simpl; [|done].
  intros [= <-]. by exists power, data, mode, q.
Qed.

Lemma portStatusLoop_success s names : forall before ports,
  portStatusLoop s names (length before)
    (before ++ replicate (length names) PortStatus_init) = Ok (Status.SUCCESS, ports)
  <-> exists found,
        Forall2 (fun port p => portStatusBody s port PortStatus_init = Ok (true, p))
          names found
        /\ ports = before ++ found.
Proof.
  induction names as [|port rest IH]; intros before ports; simpl.
  - rewrite app_nil_r. split.
    + intros [= <-]. exists []. by rewrite app_nil_r.
    + intros (found & Hall & ->). apply Forall2_nil_inv_l in Hall as ->.
      by rewrite app_nil_r.
  - rewrite lookup_app_r, Nat.sub_diag by done. simpl.
    split.
    + destruct (portStatusBody s port PortStatus_init) as [[[] p']|] eqn:Hbody;
        simpl; [|done..].
      replace (<[length before := p']> (before ++ PortStatus_init :: replicate (length rest) PortStatus_init))
        with ((before ++ [p']) ++ replicate (length rest) PortStatus_init).
      2:{ rewrite insert_app_r_alt, Nat.sub_diag by done. simpl.
          by rewrite <- app_assoc. }
      replace (S (length before)) with (length (before ++ [p']))
        by (rewrite length_app; simpl; lia).
      rewrite IH. intros (found & Hall & ->). exists (p' :: found).
      split; [by constructor|]. by rewrite <- app_assoc.
    + intros (found & Hall & ->).
      apply Forall2_cons_inv_l in Hall as (p' & found' & Hbody & Hall & ->).
      rewrite Hbody. simpl.
      replace (<[length before := p']> (before ++ PortStatus_init :: replicate (length rest) PortStatus_init))
        with ((before ++ [p']) ++ replicate (length rest) PortStatus_init).
      2:{ rewrite insert_app_r_alt, Nat.sub_diag by done. simpl.
          by rewrite <- app_assoc. }
      replace (S (length before)) with (length (before ++ [p']))
        by (rewrite length_app; simpl; lia).
      rewrite IH. exists found'. split; [done|]. by rewrite <- app_assoc.
Qed.

(** X7: role detection on a fresh vector succeeds exactly when the
    ports can be enumerated and the loop body runs to its end on every
    one of them; the vector then holds one element per enumerated
    port, in the order in which the map of the port names is iterated,
    each one the result of the loop body on a default-constructed
    element. *)
Theorem role_detection_success s ports :
  getPortStatusHelper s [] = Ok (Status.SUCCESS, ports)
  <-> exists names,
        getTypeCPortNamesHelper s ∅ = (Status.SUCCESS, names)
        /\ Forall2 (fun port p => portStatusBody s port PortStatus_init = Ok (true, p))
             (unordered_iteration s names) ports.
Proof.
  unfold getPortStatusHelper.
  destruct (getTypeCPortNamesHelper s ∅) as [result names].
  case_bool_decide as Hres.
  - subst result. rewrite resize_nil.
    rewrite <- (length_unordered_iteration s names).
    rewrite (portStatusLoop_success s (unordered_iteration s names) []). simpl. split.
    + intros (found & Hall & ->). by exists names.
    + intros (names' & [= <-] & Hall). by exists ports.
  - split; [done|]. by intros (names' & [= -> _] & _).
Qed.

Lemma role_detection_success_witness :
  exists ports names,
    getTypeCPortNamesHelper st_two_ports ∅ = (Status.SUCCESS, names)
    /\ Forall2 (fun port p => portStatusBody st_two_ports port PortStatus_init = Ok (true, p))
         (unordered_iteration st_two_ports names) ports.
Proof.
  eexists. apply (proj1 (role_detection_success st_two_ports _)).
  vm_compute. reflexivity.
Defined.

Lemma getCurrentRoleHelper_disconnected s portName currentRole :
  getCurrentRoleHelper s portName false currentRole
  = (Status.SUCCESS,
     match PortRole.getTag currentRole with
     | PortRole.powerRole => PortRole.of_powerRole PortPowerRole.NONE
     | PortRole.dataRole => PortRole.of_dataRole PortDataRole.NONE
     | PortRole.mode => PortRole.of_mode PortMode.NONE
     end).
Proof. unfold getCurrentRoleHelper. by destruct (PortRole.getTag currentRole). Qed.

(** X8: the element of a port without partner.  No role node is read:
    when the loop body returns, it has run to its end and the element
    has the name of the port, the roles and the mode NONE, a mode that
    can be changed, roles that cannot, the supported mode DRP added
    and no power brick; and it does return whenever the dock node
    cannot be read. *)
Theorem disconnected_port_element s name p :
  (forall ok p', portStatusBody s (name, false) p = Ok (ok, p') ->
     ok = true
     /\ portName p' = name
     /\ rolesOf p' = (PortMode.NONE, PortPowerRole.NONE, PortDataRole.NONE,
                      PowerBrickStatus.NOT_CONNECTED)
     /\ canChangeMode p' = true
     /\ canChangeDataRole p' = false
     /\ canChangePowerRole p' = false
     /\ supportedModes p' = supportedModes p ++ [PortMode.DRP])
  /\ (read_file s kPogoUsbActive = None ->
      exists p', portStatusBody s (name, false) p = Ok (true, p')).
Proof.
  unfold portStatusBody. cbv zeta. simpl fst. simpl snd.
  rewrite !getCurrentRoleHelper_disconnected. simpl. split.
  - intros ok p'. destruct (usbDataStatusOf s _) as [q|] eqn:Hq; simpl; [|done].
    intros [= <- <-]. apply usbDataStatusOf_only in Hq. rewrite Hq.
    by destruct p.
  - intros Hpogo. unfold usbDataStatusOf. rewrite Hpogo. simpl. by eexists.
Qed.

Lemma canSwitchRoleHelper_spec s portName :
  canSwitchRoleHelper s portName = true <-> partnerSupportsPD s portName.
Proof.
  unfold canSwitchRoleHelper, partnerSupportsPD. split.
  - destruct (read_file s _) as [v|]; [|done].
    intros H%String.eqb_eq. by exists v.
  - intros (v & -> & ->). done.
Qed.

(** X9: the capabilities of an element whose loop body ran to its
    end.  The mode can always be changed; the data role can be changed
    exactly when the power role can, which is exactly when the port has
    a partner whose power-delivery node holds [yes]; DRP is added to
    the supported modes. *)
Theorem port_capabilities s port p p' :
  portStatusBody s port p = Ok (true, p') ->
  canChangeMode p' = true
  /\ canChangeDataRole p' = canChangePowerRole p'
  /\ (canChangePowerRole p' = true <-> port.2 = true /\ partnerSupportsPD s port.1)
  /\ supportedModes p' = supportedModes p ++ [PortMode.DRP].
Proof.
  intros (power & data & mode & q & _ & _ & _ & Hq & ->)%portStatusBody_complete.
  rewrite powerBrickStatusOf_only. apply usbDataStatusOf_only in Hq. rewrite Hq.
  split_and!; try by destruct p.
  rewrite <- canSwitchRoleHelper_spec.
  destruct p, port as [name []]; simpl; [|split; [done|by intros [? _]]].
  split; [done|by intros [_ ?]].
Qed.

Lemma port_capabilities_witness :
  exists p', portStatusBody st_one_port ("port0", true) PortStatus_init = Ok (true, p')
             /\ canChangeMode p' = true.
Proof.
  eexists. split; [vm_compute; reflexivity|].
  refine (proj1 (port_capabilities st_one_port ("port0", true) PortStatus_init _ _)).
  vm_compute. reflexivity.
Defined.

Lemma disconnected_port_element_witness :
  exists p', portStatusBody st_one_port ("port1", false) PortStatus_init = Ok (true, p')
             /\ portName p' = "port1".
Proof.
  destruct (disconnected_port_element st_one_port "port1" PortStatus_init) as [H1 H2].
  destruct (H2 ltac:(vm_compute; reflexivity)) as [p' Hp']. exists p'. split; [exact Hp'|].
  by destruct (H1 _ _ Hp') as (_ & ? & _).
Defined.

Lemma usbDataStatusOf_shape s p q :
  usbDataStatusOf s p = Ok q ->
  exists dock : bool,
    (dock = true <-> docked s)
    /\ usbDataStatus q
       = usbDataStatus p
         ++ (if dock then [UsbDataStatus.DISABLED_DOCK_DEVICE_MODE] else [])
         ++ (if mUsbDataEnabled s then [] else [UsbDataStatus.DISABLED_FORCE])
         ++ (if negb dock && mUsbDataEnabled s then [UsbDataStatus.ENABLED] else []).
Proof.
  unfold usbDataStatusOf, docked.
  destruct (read_file s kPogoUsbActive) as [active|]; simpl.
  - destruct (stoi (Trim active)) as [v|] eqn:Hv; simpl; [|done].
    intros [= <-]. exists (bool_decide (v = 1%Z)). split.
    + rewrite bool_decide_eq_true. split.
      * intros ->. by exists active.
      * intros (? & [= <-] & Hone). rewrite Hv in Hone. by injection Hone.
    + destruct (bool_decide (v = 1%Z)), (mUsbDataEnabled s), p; simpl;
        by rewrite <- ?app_assoc, ?app_nil_r.
  - intros [= <-]. exists false. split.
    + split; [done|]. by intros (? & ? & _).
    + destruct (mUsbDataEnabled s), p; simpl; by rewrite ?app_nil_r.
Qed.

(** X10: the data status of a fresh element whose loop body ran to its
    end is one of four lists.  It is [ENABLED] alone when data is
    enabled and the port is not used by the dock; otherwise it names
    each reason that holds, the dock first, and never [ENABLED]. *)
Theorem data_status_of_port s port p p' :
  usbDataStatus p = [] ->
  portStatusBody s port p = Ok (true, p') ->
  (~ docked s -> mUsbDataEnabled s = true ->
   usbDataStatus p' = [UsbDataStatus.ENABLED])
  /\ (docked s -> mUsbDataEnabled s = true ->
      usbDataStatus p' = [UsbDataStatus.DISABLED_DOCK_DEVICE_MODE])
  /\ (~ docked s -> mUsbDataEnabled s = false ->
      usbDataStatus p' = [UsbDataStatus.DISABLED_FORCE])
  /\ (docked s -> mUsbDataEnabled s = false ->
      usbDataStatus p' = [UsbDataStatus.DISABLED_DOCK_DEVICE_MODE;
                          UsbDataStatus.DISABLED_FORCE]).
Proof.
  intros Hfresh (power & data & mode & q & _ & _ & _ & Hq & ->)%portStatusBody_complete.
  rewrite usbDataStatus_powerBrickStatusOf.
  apply usbDataStatusOf_shape in Hq as (dock & Hdock & ->).
  replace (usbDataStatus _) with (usbDataStatus p) by (by destruct p).
  rewrite Hfresh. simpl.
  split_and!; intros Hd Hen; rewrite Hen; destruct dock; simpl; try done;
    try (by destruct Hd; apply Hdock);
    by (apply Hdock in Hd).
Qed.

Lemma data_status_of_port_witness :
  exists p', portStatusBody st_one_port ("port0", true) PortStatus_init = Ok (true, p')
             /\ usbDataStatus p' = [UsbDataStatus.ENABLED].
Proof.
  eexists. split; [vm_compute; reflexivity|].
  refine (proj1 (data_status_of_port st_one_port ("port0", true) PortStatus_init _ _ _) _ _).
  - reflexivity.
  - vm_compute. reflexivity.
  - intros (active & H & _). vm_compute in H. discriminate H.
  - reflexivity.
Defined.

(** X11: the power brick of an element whose loop body ran to its end.
    A port without partner, or one that supplies power, has none.
    Otherwise the type node of the USB power supply decides: a
    selected type that starts with D is a brick, else one that starts
    with U is unknown, else there is none; when the node cannot be
    read the field is left as it was. *)
Theorem power_brick_of_port s port p p' :
  portStatusBody s port p = Ok (true, p') ->
  (port.2 = false \/ currentPowerRole p' = PortPowerRole.SOURCE ->
   powerBrickStatus p' = PowerBrickStatus.NOT_CONNECTED)
  /\ (port.2 = true -> currentPowerRole p' <> PortPowerRole.SOURCE ->
      match read_file s kPowerSupplyUsbType with
      | None => powerBrickStatus p' = powerBrickStatus p
      | Some usbType =>
          powerBrickStatus p'
          = if strstr (c_str usbType) "[D" then PowerBrickStatus.CONNECTED
            else if strstr (c_str usbType) "[U" then PowerBrickStatus.UNKNOWN
            else PowerBrickStatus.NOT_CONNECTED
      end).
Proof.
  intros (power & data & mode & q & _ & _ & _ & Hq & ->)%portStatusBody_complete.
  apply usbDataStatusOf_only in Hq.
  assert (Hpower : currentPowerRole q = power) by (rewrite Hq; by destruct p).
  assert (Hbrick : powerBrickStatus q = powerBrickStatus p) by (rewrite Hq; by destruct p).
  assert (Hkeep : currentPowerRole (powerBrickStatusOf s port.2 q) = power).
  { rewrite powerBrickStatusOf_only. rewrite <- Hpower. by destruct q. }
  rewrite Hkeep. unfold powerBrickStatusOf. rewrite Hpower. split.
  - intros [->| ->]; [by destruct q|].
    destruct port.2; [|by destruct q]. rewrite decide_True by done. by destruct q.
  - intros -> Hsrc. rewrite decide_False by done.
    destruct (read_file s kPowerSupplyUsbType) as [usbType|]; [|done].
    repeat case_match; by destruct q.
Qed.

Lemma power_brick_of_port_witness :
  exists p', portStatusBody st_one_port ("port0", true) PortStatus_init = Ok (true, p')
             /\ powerBrickStatus p' = PowerBrickStatus.NOT_CONNECTED.
Proof.
  eexists. split; [vm_compute; reflexivity|].
  refine (proj1 (power_brick_of_port st_one_port ("port0", true) PortStatus_init _ _) _).
  - vm_compute. reflexivity.
  - right. reflexivity.
Defined.

(** ** Kernel events *)

Lemma queryVersionHelper_Done ports s snapshot s' :
  queryVersionHelper ports s = Done snapshot s' ->
  mRoleSwitchLock s' = mRoleSwitchLock s /\ files s' = files s
  /\ platform s' = platform s /\ mUsbDataEnabled s' = mUsbDataEnabled s
  /\ mPartnerUp s' = mPartnerUp s /\ wakes s' = wakes s /\ clock s' = clock s.
Proof.
  destruct (getPortStatusHelper s ports) as [[st [|p ps]]|f] eqn:Hports.
  - by rewrite (queryVersionHelper_empty _ _ _ Hports).
  - destruct (queryVersionHelper_run _ _ _ _ _ Hports)
      as (snap & s1 & Hframe & -> & _).
    destruct Hframe as (_ & ? & ? & ? & ? & ? & ? & _ & ?).
    intros [= _ <-]. by destruct (mCallback s).
  - by rewrite (queryVersionHelper_fault _ _ _ Hports).
Qed.

Lemma ueventRecord_unrecognised cp s :
  unrecognisedRecord cp -> ueventRecord cp s = Done true s.
Proof.
  intros (H1 & H2 & H3). unfold ueventRecord, portChangeRecord in *.
  by rewrite H1, H2, H3.
Qed.

(** X12: what the uevent handler discards.  A receive that returns no
    byte or an error, a message that fills the whole buffer, and a
    message none of whose records is recognised leave the state as it
    is: nothing is recomputed, written or notified. *)
Theorem uevent_discarded UEVENT_MSG_LEN n msg s :
  (n <= 0)%Z \/ (UEVENT_MSG_LEN <= n)%Z \/ Forall unrecognisedRecord msg ->
  uevent_event UEVENT_MSG_LEN n msg s = Done tt s.
Proof.
  unfold uevent_event. intros H.
  destruct (Z.leb_spec n 0) as [|Hn]; [done|].
  destruct (Z.leb_spec UEVENT_MSG_LEN n) as [|Hlen]; [done|].
  destruct H as [|[|Hall]]; [lia..|].
  induction Hall as [|cp rest Hcp _ IH]; simpl; [done|].
  destruct (String.eqb cp ""); [done|].
  unfold mbind, M_bind. by rewrite ueventRecord_unrecognised.
Qed.

Lemma uevent_discarded_witness :
  uevent_event 2048 4096 ["add@/devices/port0-partner"] st_one_port = Done tt st_one_port
  /\ uevent_event 2048 20 ["ACTION=change"; "SUBSYSTEM=net"] st_one_port
     = Done tt st_one_port.
Proof.
  split.
  - apply uevent_discarded. right. left. lia.
  - apply uevent_discarded. right. right.
    repeat constructor.
Defined.

Lemma ueventRecord_port_change cp s next s' :
  partnerAdded cp = false -> portChangeRecord cp = true ->
  ueventRecord cp s = Done next s' -> next = false.
Proof.
  intros H1 H2. unfold ueventRecord, portChangeRecord in *. rewrite H1, H2.
  unfold mbind, M_bind, gets, modify, mret, M_ret.
  destruct (queryVersionHelper [] s) as [snapshot s1|]; [|done].
  destruct (mRoleSwitchLock s1); [by intros [= <- _]|].
  destruct (reconcilePorts snapshot _) as [[] s2|]; [|done].
  by intros [= <- _].
Qed.

(** X13: the records that end a message.  The loop of the handler
    stops at the first empty record, and after the first record that
    tells of a port change: whatever follows in the message, be it a
    partner that was added, is not looked at. *)
Theorem uevent_message_ends before cp rest s :
  (cp = "" -> ueventRecords (before ++ cp :: rest) s = ueventRecords before s)
  /\ (partnerAdded cp = false -> portChangeRecord cp = true ->
      ueventRecords (before ++ cp :: rest) s = ueventRecords (before ++ [cp]) s).
Proof.
  revert s. induction before as [|b before IH]; intros s; simpl.
  - split.
    + by intros ->.
    + intros H1 H2. destruct (String.eqb cp ""); [done|].
      unfold mbind, M_bind.
      destruct (ueventRecord cp s) as [next s'|] eqn:Hrec; [|done].
      by rewrite (ueventRecord_port_change _ _ _ _ H1 H2 Hrec).
  - destruct (String.eqb b ""); [done|]. unfold mbind, M_bind.
    destruct (ueventRecord b s) as [[] s'|]; [|done..].
    apply IH.
Qed.

Lemma uevent_message_ends_witness :
  ueventRecords ["ACTION=change"; "DEVTYPE=typec_port"; "add@/devices/port0-partner"]
    st_one_port
  = ueventRecords ["ACTION=change"; "DEVTYPE=typec_port"] st_one_port.
Proof.
  apply (uevent_message_ends ["ACTION=change"] "DEVTYPE=typec_port"
           ["add@/devices/port0-partner"] st_one_port); reflexivity.
Defined.

(** X14: while a role switch holds the role-switch lock, a record
    that tells of a port change only has the snapshot recomputed: no
    port is sent back to DRP, and the lock stays held. *)
Theorem port_change_during_role_switch cp s :
  partnerAdded cp = false -> portChangeRecord cp = true ->
  mRoleSwitchLock s = true ->
  ueventRecord cp s = (queryVersionHelper [];; mret false) s
  /\ mRoleSwitchLock (final (ueventRecord cp s)) = true.
Proof.
  intros H1 H2 Hlock. unfold ueventRecord, portChangeRecord in *. rewrite H1, H2.
  unfold mbind, M_bind, gets, modify, mret, M_ret.
  destruct (queryVersionHelper [] s) as [snapshot s1|f s1] eqn:Hq.
  - destruct (queryVersionHelper_Done _ _ _ _ Hq) as (Hl & _). rewrite Hl, Hlock.
    simpl. by rewrite Hl.
  - split; [done|]. simpl.
    destruct (getPortStatusHelper s []) as [[st [|p ps]]|f'] eqn:Hports.
    + rewrite (queryVersionHelper_empty _ _ _ Hports) in Hq. by injection Hq as _ <-.
    + destruct (queryVersionHelper_run _ _ _ _ _ Hports) as (? & ? & _ & Hrun & _).
      by rewrite Hrun in Hq.
    + rewrite (queryVersionHelper_fault _ _ _ Hports) in Hq. by injection Hq as _ <-.
Qed.

Lemma port_change_during_role_switch_witness :
  mRoleSwitchLock
    (final (ueventRecord "DEVTYPE=typec_port" (set_mRoleSwitchLock true st_one_port)))
  = true.
Proof.
  apply (port_change_during_role_switch "DEVTYPE=typec_port"
           (set_mRoleSwitchLock true st_one_port)); reflexivity.
Defined.

Lemma partnerless_platform s s' p :
  platform s' = platform s -> partnerless s' p = partnerless s p.
Proof. intros H. unfold partnerless, dir_exists. by rewrite H. Qed.

(** X15: the reconciliation that follows a recomputed snapshot.  When
    the port-type nodes can be written, every port of the snapshot that
    has no partner directory gets [dual] written to its port-type node,
    in the order of the snapshot, and the ports that have a partner
    are left alone. *)
Theorem reconcile_partnerless_ports ports : forall s,
  Forall (fun p => (portTypeNode p ∉ pf_nowrite (platform s))
                   /\ pf_fputs (platform s) (portTypeNode p) <> EOF) ports ->
  exists s',
    reconcilePorts ports s = Done tt s'
    /\ trace s'
       = trace s ++ map (fun p => EvWrite (portTypeNode p) "dual")
                      (List.filter (partnerless s) ports)
    /\ platform s' = platform s /\ mCallback s' = mCallback s.
Proof.
  induction ports as [|p rest IH]; intros s Hall; simpl.
  - exists s. by rewrite app_nil_r.
  - apply Forall_cons in Hall as [[Hw Hf] Hall].
    unfold mbind, M_bind, gets, mret, M_ret.
    assert (Hp : partnerless s p
                 = negb (dir_exists s ("/sys/class/typec/" +:+ c_str (portName p)
                                       +:+ "-partner"))) by done.
    rewrite Hp.
    destruct (dir_exists s _); simpl.
    2:{ destruct (switchToDrp_run (portName p) s Hw Hf) as (s1 & -> & _ & Htr & Hpf & Hcb).
      destruct (IH s1) as (s' & -> & Htr' & Hpf' & Hcb').
      { by rewrite Hpf. }
      exists s'. split; [done|]. rewrite Htr', Htr, <- app_assoc. simpl.
      split_and!; [|congruence..]. do 3 f_equal.
      apply filter_ext. intros q. by apply partnerless_platform. }
    destruct (IH s Hall) as (s' & -> & Htr' & Hpf' & Hcb'). by exists s'.
Qed.

Lemma reconcile_partnerless_ports_witness :
  exists s',
    reconcilePorts [set_portName "port1" PortStatus_init; set_portName "port0" PortStatus_init]
      st_one_port = Done tt s'
    /\ trace s' = [EvWrite "/sys/class/typec/port1/port_type" "dual"].
Proof.
  destruct (reconcile_partnerless_ports
              [set_portName "port1" PortStatus_init; set_portName "port0" PortStatus_init]
              st_one_port) as (s' & H1 & H2 & _).
  - repeat constructor; vm_compute; try discriminate; by intros ?%elem_of_empty.
  - exists s'. split; [exact H1|]. rewrite H2. vm_compute. reflexivity.
Defined.

(** ** Overheat statistics *)

(** X16: reporting an overheat event changes nothing but the trace,
    and adds at most one report to it: the report carries the three
    metrics, and is made exactly when all three nodes hold an integer
    and the statistics service is there.  A metric that cannot be read
    ends the function silently; one that holds no integer is the only
    way it can fault. *)
Theorem overheat_report s :
  let o := report_overheat_event s in
  match overheatMetric s "trip_time", overheatMetric s "hysteresis_time",
        overheatMetric s "cleared_time" with
  | Some trip, Some hyst, Some cleared =>
      o = Done tt (if pf_stats (platform s)
                   then set_trace (trace s ++ [EvOverheat trip hyst cleared]) s
                   else s)
  | _, _, _ => o = Done tt s \/ o = Crash UncaughtException s
  end.
Proof.
  unfold report_overheat_event, overheatMetric, ReadFileToString.
  unfold mbind at 1 2 3, option_bind.
  unfold mbind, M_bind, gets, crash, emit, modify, mret, M_ret. cbv zeta.
  destruct (read_file s (kOverheatStatsPath +:+ "trip_time")) as [a|]; simpl;
    [|repeat case_match; by left].
  destruct (stoi (Trim a)) as [t|]; [|repeat case_match; by right].
  destruct (read_file s (kOverheatStatsPath +:+ "hysteresis_time")) as [b|]; simpl;
    [|repeat case_match; by left].
  destruct (stoi (Trim b)) as [h|]; [|repeat case_match; by right].
  destruct (read_file s (kOverheatStatsPath +:+ "cleared_time")) as [c|]; simpl;
    [|by left].
  destruct (stoi (Trim c)) as [cl|]; [|by right].
  by destruct (pf_stats (platform s)).
Qed.

(** ** Outcomes of the caller-initiated operations *)

(** Every operation but [switchRole] and [resetUsbPort] ends with a
    recomputation of the snapshot, which only adds port-status
    notifications to the trace. *)
Lemma snapshot_tail s :
  exists snapshot,
    trace (final ((queryVersionHelper [];; mret tt) s)) = trace s ++ snapshot
    /\ Forall isPortStatusChange snapshot
    /\ mUsbDataEnabled (final ((queryVersionHelper [];; mret tt) s)) = mUsbDataEnabled s.
Proof.
  destruct (queryVersionHelper_trace [] s) as (_ & Hen & new & Htr & Hall & _).
  exists new. unfold mbind, M_bind, mret, M_ret.
  by destruct (queryVersionHelper [] s).
Qed.

(** X17: [enableUsbDataWhileDocked] reports NOT_SUPPORTED, and writes
    nothing, when the dock has no node to move data to the port;
    otherwise it writes 1 to that node and reports SUCCESS, or ERROR
    when the node cannot be written.  The notification comes before
    the snapshot is recomputed. *)
Theorem enableUsbDataWhileDocked_outcome in_portName in_transactionId s :
  mCallback s = true ->
  let present := dir_exists s KPogoMoveDataToUsb in
  let written := present && writable s KPogoMoveDataToUsb in
  let status := if negb present then Status.NOT_SUPPORTED
                else if written then Status.SUCCESS else Status.ERROR in
  exists snapshot,
    Forall isPortStatusChange snapshot
    /\ trace (final (enableUsbDataWhileDocked in_portName in_transactionId s))
       = trace s
         ++ (if written then [EvWrite KPogoMoveDataToUsb "1"] else [])
         ++ [notifyEnableUsbDataWhileDockedStatus in_portName status in_transactionId]
         ++ snapshot.
Proof.
  intros Hcb. cbv zeta. unfold enableUsbDataWhileDocked.
  unfold mbind at 1 2 3 4, M_bind at 1 2 3 4, gets, WriteStringToFile. cbv beta.
  destruct (dir_exists s KPogoMoveDataToUsb); cbn [negb andb].
  - destruct (writable s KPogoMoveDataToUsb); cbv beta iota; cbn [mCallback set_trace set_files];
      rewrite Hcb; unfold emit, modify; cbv beta iota.
    + match goal with |- context [final (_ ?s0)] =>
        destruct (snapshot_tail s0) as (snapshot & -> & Hall & _) end.
      exists snapshot. split; [done|]. simpl. by rewrite <- !app_assoc.
    + match goal with |- context [final (_ ?s0)] =>
        destruct (snapshot_tail s0) as (snapshot & -> & Hall & _) end.
      exists snapshot. split; [done|]. simpl. by rewrite <- !app_assoc.
  - unfold mret at 1, M_ret at 1. cbv beta iota. rewrite Hcb.
    unfold emit, modify; cbv beta iota.
    match goal with |- context [final (_ ?s0)] =>
      destruct (snapshot_tail s0) as (snapshot & -> & Hall & _) end.
    exists snapshot. split; [done|]. simpl. by rewrite <- !app_assoc.
Qed.

Lemma enableUsbDataWhileDocked_outcome_witness :
  exists snapshot,
    Forall isPortStatusChange snapshot
    /\ trace (final (enableUsbDataWhileDocked "port0" 7 st_one_port))
       = [notifyEnableUsbDataWhileDockedStatus "port0" Status.NOT_SUPPORTED 7] ++ snapshot.
Proof.
  exact (enableUsbDataWhileDocked_outcome "port0" 7%Z st_one_port eq_refl).
Defined.

Lemma WriteStringToFile_run content path s :
  WriteStringToFile content path s
  = Done (writable s path)
      (if writable s path
       then set_trace (trace s ++ [EvWrite path content])
              (set_files (<[path := content]> (files s)) s)
       else s).
Proof. unfold WriteStringToFile. by destruct (writable s path). Qed.

Lemma writable_written tr fs s path :
  writable (set_trace tr (set_files fs s)) path = writable s path.
Proof. done. Qed.

Lemma writable_located found s path :
  writable (set_mI2cClientPath found s) path = writable s path.
Proof. done. Qed.

Ltac prologue :=
  set (tail := queryVersionHelper [] ≫= (fun _ => mret tt));
  unfold locateI2cClient;
  unfold mbind, M_bind, gets, emit, modify, mret, M_ret;
  cbv beta.

Ltac project :=
  cbn [mCallback mI2cClientPath enabledPath platform files mUsbDataEnabled trace
       set_trace set_files set_mI2cClientPath set_mUsbDataEnabled].

(** One write: both outcomes of the [open] are followed. *)
Ltac attempt :=
  rewrite WriteStringToFile_run;
  rewrite ?writable_written, ?writable_located; project;
  match goal with
  | |- context [if writable ?s ?p then set_trace _ _ else _] =>
      destruct (writable s p)
  end;
  cbv beta iota.

Ltac snapshot_follows :=
  match goal with
  | |- context [final (?tail ?s0)] =>
      subst tail;
      let snapshot := fresh "snapshot" in
      let Hall := fresh "Hall" in
      destruct (snapshot_tail s0) as (snapshot & -> & Hall & _);
      exists snapshot; split; [done|]; project; simpl;
      by rewrite <- ?app_assoc
  end.

(** X18: [enableContaminantPresenceDetection] writes 1 or 0 to the
    node that the last contaminant query recorded, and reports SUCCESS
    when the write went through or when the property that disables
    contaminant detection is [true], in which case nothing is written;
    otherwise it reports ERROR.  Before any contaminant query has
    located the node there is no node to write to. *)
Theorem contaminant_detection_outcome in_portName in_enable in_transactionId s :
  mCallback s = true ->
  let disabled := String.eqb (GetProperty s kDisableContatminantDetection "") "true" in
  let written := negb disabled && writable s (enabledPath s) in
  let status := if disabled || written then Status.SUCCESS else Status.ERROR in
  (enabledPath s = "" -> written = false)
  /\ exists snapshot,
       Forall isPortStatusChange snapshot
       /\ trace (final (enableContaminantPresenceDetection in_portName in_enable
                          in_transactionId s))
          = trace s
            ++ (if written
                then [EvWrite (enabledPath s) (if in_enable then "1" else "0")] else [])
            ++ [notifyContaminantEnabledStatus in_portName in_enable status
                  in_transactionId]
            ++ snapshot.
Proof.
  intros Hcb. cbv zeta. split.
  { intros ->. by rewrite andb_false_r. }
  unfold enableContaminantPresenceDetection. prologue.
  destruct (String.eqb (GetProperty s kDisableContatminantDetection "") "true");
    cbn [negb andb orb]; cbv beta iota.
  - rewrite Hcb. snapshot_follows.
  - attempt; project; rewrite Hcb; snapshot_follows.
Qed.

Lemma contaminant_detection_outcome_witness :
  exists snapshot,
    Forall isPortStatusChange snapshot
    /\ trace (final (enableContaminantPresenceDetection "port0" true 3 st_one_port))
       = [notifyContaminantEnabledStatus "port0" true Status.ERROR 3] ++ snapshot.
Proof.
  exact (proj2 (contaminant_detection_outcome "port0" true 3%Z st_one_port eq_refl)).
Defined.

(** X19: once the I2C client is located, [limitPowerTransfer] tries
    every write whatever became of the ones before it: the sink
    current limit (only when limiting), the sink limit switch and the
    source limit switch, in this order; it reports SUCCESS when all of
    them went through and ERROR otherwise, and only then recomputes the
    snapshot. *)
Theorem limitPowerTransfer_outcome in_portName (in_limit : bool) in_transactionId s :
  mCallback s = true -> (0 <= in_transactionId)%Z ->
  let i2c := if String.eqb (mI2cClientPath s) "" then pf_i2c (platform s)
             else mI2cClientPath s in
  i2c <> "" ->
  let value := if in_limit then "1" else "0" in
  let current := in_limit && writable s (i2c +:+ kSinkLimitCurrent) in
  let sink := writable s (i2c +:+ kSinkLimitEnable) in
  let source := writable s (i2c +:+ kSourceLimitEnable) in
  let status := if (negb in_limit || current) && sink && source
                then Status.SUCCESS else Status.ERROR in
  exists snapshot,
    Forall isPortStatusChange snapshot
    /\ trace (final (limitPowerTransfer in_portName in_limit in_transactionId s))
       = trace s
         ++ (if current then [EvWrite (i2c +:+ kSinkLimitCurrent) "0"] else [])
         ++ (if sink then [EvWrite (i2c +:+ kSinkLimitEnable) value] else [])
         ++ (if source then [EvWrite (i2c +:+ kSourceLimitEnable) value] else [])
         ++ [notifyLimitPowerTransferStatus in_portName in_limit status in_transactionId]
         ++ snapshot.
Proof.
  intros Hcb Hid. cbv zeta. intros Hi2c.
  apply Z.leb_le in Hid.
  unfold limitPowerTransfer. prologue.
  destruct (String.eqb (mI2cClientPath s) "") eqn:Hpath; cbv beta iota; project.
  - apply String.eqb_neq in Hi2c. rewrite Hi2c. cbn [negb]. cbv beta iota.
    destruct in_limit; cbv beta iota; [attempt|]; attempt; attempt;
      project; cbn [negb andb orb]; rewrite Hcb, Hid; cbn [andb];
      snapshot_follows.
  - cbn [negb]. cbv beta iota.
    destruct in_limit; cbv beta iota; [attempt|]; attempt; attempt;
      project; cbn [negb andb orb]; rewrite Hcb, Hid; cbn [andb];
      snapshot_follows.
Qed.

Lemma limitPowerTransfer_outcome_witness :
  exists snapshot,
    Forall isPortStatusChange snapshot
    /\ trace (final (limitPowerTransfer "port0" false 1 st_one_port))
       = [EvWrite (pf_i2c pf_one_port +:+ kSinkLimitEnable) "0";
          EvWrite (pf_i2c pf_one_port +:+ kSourceLimitEnable) "0";
          notifyLimitPowerTransferStatus "port0" false Status.SUCCESS 1]
         ++ snapshot.
Proof.
  refine (limitPowerTransfer_outcome "port0" false 1%Z st_one_port eq_refl _ _).
  - lia.
  - vm_compute. discriminate.
Defined.

Section Data.

Variables PULLUP_PATH ID_PATH VBUS_PATH USB_DATA_PATH kGadgetName : string.

Lemma snapshot_flag s :
  mUsbDataEnabled (final ((queryVersionHelper [];; mret tt) s)) = mUsbDataEnabled s.
Proof. by destruct (snapshot_tail s) as (? & _ & _ & ?). Qed.

Lemma set_mUsbDataEnabled_same s :
  set_mUsbDataEnabled (mUsbDataEnabled s) s = s.
Proof. by destruct s. Qed.

(** X20: enabling USB data.  While data is enabled nothing is written
    and SUCCESS is reported.  While it is disabled, the pull-up node is
    bound to the gadget again when it is bound elsewhere, and 1 is
    written to the data-enable node whatever became of the first write;
    SUCCESS is reported, and the flag set, when every write that was
    tried went through, and ERROR is reported otherwise, with the flag
    left cleared. *)
Theorem enableUsbData_enable_outcome in_portName in_transactionId s :
  mCallback s = true ->
  let o := enableUsbData PULLUP_PATH ID_PATH VBUS_PATH USB_DATA_PATH kGadgetName
             in_portName true in_transactionId s in
  let notify st := notifyEnableUsbDataStatus in_portName true st in_transactionId in
  (mUsbDataEnabled s = true ->
   mUsbDataEnabled (final o) = true
   /\ exists snapshot,
        Forall isPortStatusChange snapshot
        /\ trace (final o) = trace s ++ [notify Status.SUCCESS] ++ snapshot)
  /\ (mUsbDataEnabled s = false ->
      let rebind := boundElsewhere s PULLUP_PATH kGadgetName in
      let rebound := rebind && writable s PULLUP_PATH in
      let enabled := writable s USB_DATA_PATH in
      let success := (negb rebind || rebound) && enabled in
      mUsbDataEnabled (final o) = success
      /\ exists snapshot,
           Forall isPortStatusChange snapshot
           /\ trace (final o)
              = trace s
                ++ (if rebound then [EvWrite PULLUP_PATH kGadgetName] else [])
                ++ (if enabled then [EvWrite USB_DATA_PATH "1"] else [])
                ++ [notify (if success then Status.SUCCESS else Status.ERROR)]
                ++ snapshot).
Proof.
  intros Hcb. cbv zeta. unfold enableUsbData. split; intros Hen.
  - prologue. rewrite Hen. cbn [negb]. cbv beta iota.
    replace (set_mUsbDataEnabled true s) with s
      by (rewrite <- Hen; symmetry; apply set_mUsbDataEnabled_same).
    rewrite Hcb. split.
    + subst tail. by rewrite snapshot_flag.
    + snapshot_follows.
  - unfold boundElsewhere, ReadFileToString. prologue. rewrite Hen. cbn [negb].
    cbv beta iota.
    destruct (read_file s PULLUP_PATH) as [pullup|]; cbv beta iota.
    + destruct (String.eqb (Trim pullup) kGadgetName); cbn [negb]; cbv beta iota;
        [|attempt]; attempt; cbn [negb andb orb]; cbv beta iota; project; rewrite Hcb;
        (split; [subst tail; by rewrite snapshot_flag | snapshot_follows]).
    + attempt; cbn [negb andb orb]; cbv beta iota; project; rewrite Hcb;
        (split; [subst tail; by rewrite snapshot_flag | snapshot_follows]).
Qed.

(** X21: disabling USB data.  The pull-up node is unbound when it is
    bound to the gadget, then 1 is written to the ID node and 0 to the
    VBUS and data-enable nodes, each write being tried whatever became
    of the ones before it.  SUCCESS is reported, and the flag cleared,
    when every write that was tried went through; otherwise ERROR is
    reported and the flag is left as it was. *)
Theorem enableUsbData_disable_outcome in_portName in_transactionId s :
  mCallback s = true ->
  let o := enableUsbData PULLUP_PATH ID_PATH VBUS_PATH USB_DATA_PATH kGadgetName
             in_portName false in_transactionId s in
  let unbind := boundTo s PULLUP_PATH kGadgetName in
  let unbound := unbind && writable s PULLUP_PATH in
  let id := writable s ID_PATH in
  let vbus := writable s VBUS_PATH in
  let data := writable s USB_DATA_PATH in
  let success := (negb unbind || unbound) && id && vbus && data in
  mUsbDataEnabled (final o) = (if success then false else mUsbDataEnabled s)
  /\ exists snapshot,
       Forall isPortStatusChange snapshot
       /\ trace (final o)
          = trace s
            ++ (if unbound then [EvWrite PULLUP_PATH "none"] else [])
            ++ (if id then [EvWrite ID_PATH "1"] else [])
            ++ (if vbus then [EvWrite VBUS_PATH "0"] else [])
            ++ (if data then [EvWrite USB_DATA_PATH "0"] else [])
            ++ [notifyEnableUsbDataStatus in_portName false
                  (if success then Status.SUCCESS else Status.ERROR) in_transactionId]
            ++ snapshot.
Proof.
  intros Hcb. cbv zeta. unfold enableUsbData, boundTo, ReadFileToString. prologue.
  destruct (read_file s PULLUP_PATH) as [pullup|]; cbv beta iota.
  - destruct (String.eqb (Trim pullup) kGadgetName); cbn [negb]; cbv beta iota;
      [attempt|]; attempt; attempt; attempt; cbn [negb andb orb]; cbv beta iota; project;
      rewrite Hcb;
      (split; [subst tail; by rewrite snapshot_flag | snapshot_follows]).
  - attempt; attempt; attempt; cbn [negb andb orb]; cbv beta iota; project; rewrite Hcb;
      (split; [subst tail; by rewrite snapshot_flag | snapshot_follows]).
Qed.

End Data.

Lemma enableUsbData_enable_outcome_witness :
  mUsbDataEnabled
    (final (enableUsbData ex_PULLUP_PATH ex_ID_PATH ex_VBUS_PATH ex_USB_DATA_PATH
              ex_kGadgetName "port0" true 5 st_one_port)) = true.
Proof.
  refine (proj1 (proj1 (enableUsbData_enable_outcome ex_PULLUP_PATH ex_ID_PATH
                          ex_VBUS_PATH ex_USB_DATA_PATH ex_kGadgetName "port0" 5%Z
                          st_one_port eq_refl) eq_refl)).
Defined.

Lemma enableUsbData_disable_outcome_witness :
  mUsbDataEnabled
    (final (enableUsbData ex_PULLUP_PATH ex_ID_PATH ex_VBUS_PATH ex_USB_DATA_PATH
              ex_kGadgetName "port0" false 5 st_one_port)) = false.
Proof.
  refine (proj1 (enableUsbData_disable_outcome ex_PULLUP_PATH ex_ID_PATH
                   ex_VBUS_PATH ex_USB_DATA_PATH ex_kGadgetName "port0" 5%Z
                   st_one_port eq_refl)).
Defined.

(** X28: [resetUsbPort] writes [none] to the pull-up node and reports
    SUCCESS when the write went through and ERROR otherwise; it does
    nothing else: the flags stay, and the port status is neither
    recomputed nor published. *)
Theorem resetUsbPort_outcome PULLUP_PATH in_portName in_transactionId s :
  mCallback s = true ->
  let pulled := writable s PULLUP_PATH in
  exists s',
    resetUsbPort PULLUP_PATH in_portName in_transactionId s = Done tt s'
    /\ trace s'
       = trace s
         ++ (if pulled then [EvWrite PULLUP_PATH "none"] else [])
         ++ [notifyResetUsbPortStatus in_portName
               (if pulled then Status.SUCCESS else Status.ERROR) in_transactionId]
    /\ files s' = (if pulled then <[PULLUP_PATH := "none"]> (files s) else files s)
    /\ mUsbDataEnabled s' = mUsbDataEnabled s
    /\ mRoleSwitchLock s' = mRoleSwitchLock s.
Proof.
  intros Hcb. cbv zeta. unfold resetUsbPort.
  unfold mbind, M_bind, gets, emit, modify, mret, M_ret. cbv beta.
  rewrite WriteStringToFile_run.
  destruct (writable s PULLUP_PATH); cbv beta iota; project; rewrite Hcb;
    (eexists; split; [reflexivity|]); simpl; by rewrite <- ?app_assoc.
Qed.

Lemma resetUsbPort_outcome_witness :
  exists s',
    resetUsbPort ex_PULLUP_PATH "port0" 4 st_one_port = Done tt s'
    /\ trace s'
       = [EvWrite ex_PULLUP_PATH "none";
          notifyResetUsbPortStatus "port0" Status.SUCCESS 4]
    /\ files s' = <[ex_PULLUP_PATH := "none"]> files_one_port
    /\ mUsbDataEnabled s' = true
    /\ mRoleSwitchLock s' = false.
Proof.
  exact (resetUsbPort_outcome ex_PULLUP_PATH "port0" 4%Z st_one_port eq_refl).
Defined.

(** ** Role switches *)

Lemma wait_again_confirmed T ws : forall budget s roleSwitch s',
  wakes s = ws -> length ws <= budget ->
  mPartnerUp s = false -> partnerInTime T (clock s) ws ->
  wait_again T budget s = Done roleSwitch s' ->
  roleSwitch = true /\ mPartnerUp s' = true.
Proof.
  induction ws as [|wk rest IH]; intros budget s roleSwitch s' Hws Hlen Hup Hin;
    [done|].
  destruct Hin as [Hltb Hin].
  rewrite wait_again_unfold. unfold pthread_cond_timedwait. simpl. rewrite Hws, Hltb.
  case_decide as Herr; [discriminate|].
  simpl. destruct (mPartnerUp s || wk_partner wk) eqn:Hor; simpl.
  - by intros [= <- <-].
  - rewrite Hup in Hor. simpl in Hor.
    destruct Hin as [Hp|Hin]; [congruence|].
    destruct budget as [|budget]; [simpl in Hlen; lia|].
    apply IH; simpl; try done.
    simpl in Hlen. lia.
Qed.

(** X22: a mode switch whose write to the port-type node succeeds and
    whose partner is confirmed in time ends in SUCCESS: the requested
    mode is written, the wait ends with the partner up, nothing else
    is written, so that the node keeps the requested mode, and the
    subscriber (if any) is told SUCCESS; the role-switch lock is free
    afterwards. *)
Theorem mode_switch_confirmed (T R : Z) (in_portName : string) (m : PortMode.t)
    (in_transactionId : Z) (s : State) :
  let node := appendRoleNodeHelper (c_str in_portName) PortRole.mode in
  let in_role := PortRole.of_mode m in
  node ∉ pf_nowrite (platform s) ->
  pf_fputs (platform s) node <> EOF ->
  partnerInTime T (clock s) (wakes s) ->
  exists s' waits,
    switchRole T R in_portName in_role in_transactionId s = Done tt s'
    /\ Forall isTimedWait waits
    /\ trace s' =
       trace s ++ EvWrite node (convertRoletoString in_role) :: waits
         ++ (if mCallback s
             then [notifyRoleSwitchStatus in_portName in_role Status.SUCCESS
                     in_transactionId]
             else [])
    /\ files s' = <[node := convertRoletoString in_role]> (files s)
    /\ mPartnerUp s' = true
    /\ mRoleSwitchLock s' = false.
Proof.
  intros node in_role Hw Hput Hin. subst in_role. unfold switchRole, switchMode.
  cbv zeta.
  change (PortRole.getTag (PortRole.of_mode m)) with PortRole.mode.
  rewrite !appendRoleNodeHelper_nonempty. fold node.
  rewrite decide_True by done.
  unfold mbind, M_bind, emit, modify, gets, mret, M_ret. cbv beta.
  set (s0 := set_mRoleSwitchLock true s).
  rewrite (fopen_w_ok node s0 (writable_node _ _ _ Hw)). cbv beta iota.
  set (s1 := set_files _ s0).
  rewrite (fputs_ok _ node (set_mPartnerUp false s1) Hput). cbv beta iota.
  set (s2 := set_trace _ _).
  destruct (decide (pf_fputs (platform (set_mPartnerUp false s1)) node <> EOF)) as [_|];
    [|done].
  destruct (wait_again_run T (wakes s2) (length (wakes s2)) s2 eq_refl (le_n _))
    as (b & s3 & ds & Hrun & Htr & Hf & Hp & Hc & _ & Hl & _).
  destruct (wait_again_confirmed T (wakes s2) (length (wakes s2)) s2 b s3
              eq_refl (le_n _) eq_refl Hin Hrun) as [-> Hup].
  rewrite Hrun. cbn [negb]. cbv beta iota. rewrite Hc.
  change (mCallback s2) with (mCallback s).
  exists (set_mRoleSwitchLock false
            (if mCallback s
             then set_trace (trace s3 ++ [notifyRoleSwitchStatus in_portName
                                            (PortRole.of_mode m) Status.SUCCESS
                                            in_transactionId]) s3
             else s3)), (map EvTimedWait ds).
  split; [by destruct (mCallback s)|].
  split; [apply Forall_isTimedWait|].
  split_and!.
  - destruct (mCallback s); simpl; rewrite Htr; subst s2 s1 s0; simpl;
      by rewrite <- !app_assoc, ?app_nil_r.
  - clear Hrun Hin.
    destruct (mCallback s); simpl; rewrite Hf; subst s2 s1 s0; simpl;
      rewrite lookup_insert_eq, insert_insert_eq; done.
  - by destruct (mCallback s).
  - by destruct (mCallback s).
Qed.

Lemma mode_switch_confirmed_witness :
  exists s' waits,
    switchRole 5 20 "port0" (PortRole.of_mode PortMode.DFP) 9 st_partner_arrives
    = Done tt s'
    /\ Forall isTimedWait waits
    /\ trace s' =
       EvWrite "/sys/class/typec/port0/port_type" "source" :: waits
         ++ [notifyRoleSwitchStatus "port0" (PortRole.of_mode PortMode.DFP)
               Status.SUCCESS 9]
    /\ files s' = <["/sys/class/typec/port0/port_type" := "source"]> files_one_port
    /\ mPartnerUp s' = true
    /\ mRoleSwitchLock s' = false.
Proof.
  refine (mode_switch_confirmed 5 20 "port0" PortMode.DFP 9 st_partner_arrives _ _ _).
  - vm_compute. discriminate.
  - vm_compute. discriminate.
  - vm_compute. split; [reflexivity|]. right. split; [reflexivity|]. by left.
Defined.

Lemma switchFrame_refl s : switchFrame s s.
Proof.
  split_and!; try done. exists []. by rewrite app_nil_r.
Qed.

Lemma switchFrame_trans s1 s2 s3 :
  switchFrame s1 s2 -> switchFrame s2 s3 -> switchFrame s1 s3.
Proof.
  intros (Hl & Hu & Hc & Hp & new & Htr & Hall)
         (Hl' & Hu' & Hc' & Hp' & new' & Htr' & Hall').
  split_and!; try congruence.
  exists (new ++ new'). split.
  - by rewrite Htr', Htr, app_assoc.
  - by apply Forall_app.
Qed.

Lemma returnsWithin_bind {A B} (m : M A) (k : A -> M B) s :
  returnsWithin switchFrame m s ->
  (forall a s', m s = Done a s' -> returnsWithin switchFrame (k a) s') ->
  returnsWithin switchFrame (m ≫= k) s.
Proof.
  intros (a & s1 & Hm & Hf) Hk.
  destruct (Hk a s1 Hm) as (b & s2 & Hk' & Hf').
  exists b, s2. split.
  - unfold mbind, M_bind. by rewrite Hm.
  - by eapply switchFrame_trans.
Qed.

Lemma returnsWithin_ret {A} (a : A) s : returnsWithin switchFrame (mret a) s.
Proof. exists a, s. split; [done|apply switchFrame_refl]. Qed.

Lemma returnsWithin_gets {A} (f : State -> A) s : returnsWithin switchFrame (gets f) s.
Proof. exists (f s), s. split; [done|apply switchFrame_refl]. Qed.

Lemma returnsWithin_quiet {A} (m : M A) s a s' new :
  m s = Done a s' ->
  mRoleSwitchLock s' = mRoleSwitchLock s -> mUsbDataEnabled s' = mUsbDataEnabled s ->
  mCallback s' = mCallback s -> platform s' = platform s ->
  trace s' = trace s ++ new -> Forall (fun e => ~ isNotification e) new ->
  returnsWithin switchFrame m s.
Proof. intros. exists a, s'. split; [done|]. split_and!; try done. by exists new. Qed.

Lemma returnsWithin_fopen_w path s : returnsWithin switchFrame (fopen_w path) s.
Proof.
  unfold returnsWithin, fopen_w. destruct (writable s path).
  - eexists _, _. split; [done|]. split_and!; try done.
    exists []. by rewrite app_nil_r.
  - eexists _, _. split; [done|apply switchFrame_refl].
Qed.

Lemma returnsWithin_fputs data path s : returnsWithin switchFrame (fputs data path) s.
Proof.
  unfold returnsWithin, fputs. cbv zeta. case_decide.
  - eexists _, _. split; [done|apply switchFrame_refl].
  - eexists _, _. split; [done|]. split_and!; try done.
    eexists [_]. split; [done|]. constructor; [by intros []|constructor].
Qed.

Lemma returnsWithin_switchToDrp port s : returnsWithin switchFrame (switchToDrp port) s.
Proof.
  unfold switchToDrp. cbv zeta. rewrite appendRoleNodeHelper_nonempty. cbn [negb].
  apply returnsWithin_bind; [apply returnsWithin_fopen_w|].
  intros [] s1 _; [|apply returnsWithin_ret].
  apply returnsWithin_bind; [apply returnsWithin_fputs|].
  intros ret s2 _. apply returnsWithin_ret.
Qed.

Lemma returnsWithin_wait T budget s :
  length (wakes s) <= budget -> returnsWithin switchFrame (wait_again T budget) s.
Proof.
  intros Hlen.
  destruct (wait_again_run T (wakes s) budget s eq_refl Hlen)
    as (b & s' & ds & Hrun & Htr & _ & Hp & Hc & Hu & Hl & _).
  eapply returnsWithin_quiet; [done..|].
  apply Forall_forall. intros e He. apply list_elem_of_fmap in He as (d & -> & _).
  by intros [].
Qed.

Lemma returnsWithin_switchMode T port role s :
  returnsWithin switchFrame (switchMode T port role) s.
Proof.
  unfold switchMode. cbv zeta. rewrite appendRoleNodeHelper_nonempty.
  apply returnsWithin_bind; [apply returnsWithin_fopen_w|]. intros fp s1 _.
  apply returnsWithin_bind.
  - destruct fp; [|apply returnsWithin_ret].
    apply returnsWithin_bind.
    { eapply (returnsWithin_quiet _ _ _ _ []); try done. by rewrite app_nil_r. }
    intros [] s2 _.
    apply returnsWithin_bind; [apply returnsWithin_fputs|]. intros ret s3 _.
    destruct (decide (ret <> EOF)); [|apply returnsWithin_ret].
    apply returnsWithin_bind; [apply returnsWithin_gets|]. intros pending s4 [= <- <-].
    by apply returnsWithin_wait.
  - intros roleSwitch s2 _.
    apply returnsWithin_bind; [|intros; apply returnsWithin_ret].
    destruct (negb roleSwitch); [apply returnsWithin_switchToDrp | apply returnsWithin_ret].
Qed.

(** X23: a role switch of any kind returns.  It takes the role-switch
    lock and gives it back, leaves the data-enable flag alone, and
    calls one callback at most: its own outcome notification, as the
    last event it adds, when there is a subscriber.  It never
    recomputes or publishes the port status itself. *)
Theorem switchRole_returns (T R : Z) in_portName in_role in_transactionId s :
  mRoleSwitchLock s = false ->
  exists s' new st,
    switchRole T R in_portName in_role in_transactionId s = Done tt s'
    /\ mRoleSwitchLock s' = false
    /\ mUsbDataEnabled s' = mUsbDataEnabled s
    /\ Forall (fun e => ~ isNotification e) new
    /\ trace s'
       = trace s ++ new
         ++ (if mCallback s
             then [notifyRoleSwitchStatus in_portName in_role st in_transactionId]
             else []).
Proof.
  intros Hlock. unfold switchRole. cbv zeta. rewrite appendRoleNodeHelper_nonempty.
  set (body := if decide (PortRole.getTag in_role = PortRole.mode) then _ else _).
  assert (Hbody : forall s0, returnsWithin switchFrame body s0).
  { intros s0. subst body. case_decide; [apply returnsWithin_switchMode|].
    apply returnsWithin_bind; [apply returnsWithin_fopen_w|].
    intros [] s1 _; [|apply returnsWithin_ret].
    apply returnsWithin_bind; [apply returnsWithin_fputs|]. intros ret s2 _.
    apply returnsWithin_bind.
    { case_decide; [|apply returnsWithin_ret].
      apply returnsWithin_bind; [|intros; apply returnsWithin_fputs].
      eapply (returnsWithin_quiet _ _ _ _ [_]); try done.
      constructor; [by intros []|constructor]. }
    intros ret' s3 _. case_decide; [|apply returnsWithin_ret].
    apply returnsWithin_bind; [apply returnsWithin_gets|].
    intros [written|] s4 _; apply returnsWithin_ret. }
  destruct (Hbody (set_mRoleSwitchLock true s))
    as (roleSwitch & s1 & Hrun & _ & Hu & Hc & _ & new & Htr & Hall).
  clearbody body.
  unfold mbind, M_bind, emit, modify, gets, mret, M_ret. cbv beta. rewrite Hrun.
  cbv beta iota. rewrite Hc. change (mCallback (set_mRoleSwitchLock true s)) with (mCallback s).
  destruct (mCallback s);
    eexists _, new, (if roleSwitch then Status.SUCCESS else Status.ERROR);
    (split; [reflexivity|]); simpl;
    rewrite ?Htr, ?Hu, ?app_nil_r; simpl; rewrite <- ?app_assoc; done.
Qed.

Lemma switchRole_returns_witness :
  exists s' new st,
    switchRole 5 20 "port0" (PortRole.of_dataRole PortDataRole.HOST) 2 st_one_port
    = Done tt s'
    /\ mRoleSwitchLock s' = false
    /\ mUsbDataEnabled s' = mUsbDataEnabled st_one_port
    /\ Forall (fun e => ~ isNotification e) new
    /\ trace s'
       = new ++ [notifyRoleSwitchStatus "port0" (PortRole.of_dataRole PortDataRole.HOST)
                   st 2].
Proof.
  exact (switchRole_returns 5 20 "port0" (PortRole.of_dataRole PortDataRole.HOST) 2
           st_one_port eq_refl).
Defined.

(** ** The sub-queries of the snapshot *)

Lemma pushReason_warnings s reason p :
  exists l,
    complianceWarnings (pushReason s reason p) = complianceWarnings p ++ l
    /\ length l <= 1
    /\ (input_power_limited_toggle s = true -> ComplianceWarning.OTHER ∉ l)
    /\ (input_power_limited_toggle s = false ->
        ComplianceWarning.INPUT_POWER_LIMITED ∉ l).
Proof.
  unfold pushReason. cbv zeta.
  repeat case_match; rewrite ?complianceWarnings_push;
    try (eexists [_]; split; [done|]; split; [simpl; lia|];
         split; intros Ht Hin; apply list_elem_of_singleton in Hin; congruence).
  exists []. rewrite app_nil_r. split; [done|]. split; [simpl; lia|].
  split; intros _; apply not_elem_of_nil.
Qed.

Lemma pushReasons_warnings s reasons : forall p,
  exists l,
    complianceWarnings (foldl (fun p reason => pushReason s reason p) p reasons)
    = complianceWarnings p ++ l
    /\ length l <= length reasons
    /\ (input_power_limited_toggle s = true -> ComplianceWarning.OTHER ∉ l)
    /\ (input_power_limited_toggle s = false ->
        ComplianceWarning.INPUT_POWER_LIMITED ∉ l).
Proof.
  induction reasons as [|r rs IH]; intros p; simpl.
  - exists []. rewrite app_nil_r. split; [done|]. split; [done|].
    split; intros _; apply not_elem_of_nil.
  - destruct (IH (pushReason s r p)) as (l2 & -> & Hlen2 & Ht2 & Hf2).
    destruct (pushReason_warnings s r p) as (l1 & -> & Hlen1 & Ht1 & Hf1).
    exists (l1 ++ l2). rewrite <- app_assoc. split; [done|].
    rewrite length_app. split; [lia|].
    split; intros Ht; rewrite elem_of_app; intros [Hin|Hin].
    + by apply (Ht1 Ht).
    + by apply (Ht2 Ht).
    + by apply (Hf1 Ht).
    + by apply (Hf2 Ht).
Qed.

(** X24: the compliance warnings of a port.  The port is marked as
    supporting them; a port that had none gets at most one warning per
    reason named in its node, and none when the node cannot be read;
    and the toggle decides for the whole list between OTHER and
    INPUT_POWER_LIMITED, which never come together. *)
Theorem compliance_warnings_of_port s p :
  complianceWarnings p = [] ->
  let p' := nonCompliantChargerPort s p in
  supportsComplianceWarnings p' = true
  /\ (input_power_limited_toggle s = true ->
      ComplianceWarning.OTHER ∉ complianceWarnings p')
  /\ (input_power_limited_toggle s = false ->
      ComplianceWarning.INPUT_POWER_LIMITED ∉ complianceWarnings p')
  /\ match read_file s (complianceWarningsNode p) with
     | Some reasons =>
         length (complianceWarnings p')
         <= length (Tokenize (c_str reasons) kReasonDelimiters)
     | None => complianceWarnings p' = [] /\ rolesOf p' = rolesOf p
     end.
Proof.
  intros Hfresh p'. subst p'.
  assert (Hsup : supportsComplianceWarnings (nonCompliantChargerPort s p) = true).
  { rewrite nonCompliantChargerPort_unfold. cbv zeta.
    destruct (read_file s (complianceWarningsNode p)) as [reasons|]; [|by destruct p].
    set (p1 := foldl _ _ _).
    assert (H1 : supportsComplianceWarnings p1 = true).
    { subst p1. generalize (Tokenize (c_str reasons) kReasonDelimiters).
      intros l. assert (H0 : supportsComplianceWarnings
                               (set_supportsComplianceWarnings true p) = true)
        by (by destruct p).
      revert H0. generalize (set_supportsComplianceWarnings true p).
      induction l as [|r l IH]; intros q Hq; simpl; [done|].
      apply IH. unfold pushReason. repeat case_match; by destruct q. }
    case_match; [|done]. by destruct p1. }
  split; [done|].
  destruct (read_file s (complianceWarningsNode p)) as [reasons|] eqn:Hread.
  - rewrite (nonCompliantChargerPort_warnings _ _ _ Hread).
    destruct (pushReasons_warnings s (Tokenize (c_str reasons) kReasonDelimiters)
                (set_supportsComplianceWarnings true p)) as (l & -> & Hlen & Ht & Hf).
    rewrite complianceWarnings_set_supports, Hfresh. simpl. done.
  - rewrite nonCompliantChargerPort_unfold. cbv zeta. rewrite Hread.
    rewrite complianceWarnings_set_supports, rolesOf_set_supports, Hfresh.
    split_and!; try done; intros _; apply not_elem_of_nil.
Qed.

Lemma compliance_warnings_of_port_witness :
  supportsComplianceWarnings (nonCompliantChargerPort st_one_port port0_detected) = true.
Proof.
  exact (proj1 (compliance_warnings_of_port st_one_port port0_detected eq_refl)).
Defined.

(** X25: the contaminant query on a snapshot that has a first port
    always returns, and changes that port only.  The port supports
    enabling presence detection but not presence protection,
    FORCE_DISABLE is added to its protection modes, and its detection
    status is never NOT_SUPPORTED; protection reads FORCE_DISABLE
    exactly when a contaminant is DETECTED; an ERROR leaves detection
    DISABLED; and once the I2C client is located, the node that
    [enableContaminantPresenceDetection] writes is the detection node
    of that client. *)
Theorem contaminant_status_of_port p ps s :
  exists st p' s',
    queryMoistureDetectionStatus (p :: ps) s = Done (st, p' :: ps) s'
    /\ supportsEnableContaminantPresenceDetection p' = true
    /\ supportsEnableContaminantPresenceProtection p' = false
    /\ supportedContaminantProtectionModes p'
       = supportedContaminantProtectionModes p
         ++ [ContaminantProtectionMode.FORCE_DISABLE]
    /\ contaminantDetectionStatus p' <> ContaminantDetectionStatus.NOT_SUPPORTED
    /\ (contaminantProtectionStatus p' = ContaminantProtectionStatus.FORCE_DISABLE
        <-> contaminantDetectionStatus p' = ContaminantDetectionStatus.DETECTED)
    /\ (st = Status.ERROR ->
        contaminantDetectionStatus p' = ContaminantDetectionStatus.DISABLED)
    /\ mI2cClientPath s' = i2cClient s
    /\ (i2cClient s <> "" ->
        enabledPath s' = i2cClient s +:+ kContaminantDetectionPath).
Proof.
  unfold queryMoistureDetectionStatus, locateI2cClient, ReadFileToString, i2cClient,
    mbind, M_bind, gets, modify, mret, M_ret.
  simpl.
  destruct (String.eqb (mI2cClientPath s) "") eqn:Hpath; simpl.
  - destruct (String.eqb (pf_i2c (platform s)) "") eqn:Hfound; simpl.
    + eexists _, _, _. split; [reflexivity|]. simpl.
      apply String.eqb_eq in Hfound.
      split_and!; try (by destruct p); try done.
    + repeat case_match; simplify_eq; simpl in *;
        (eexists _, _, _; split; [reflexivity|]; simpl;
         split_and!; try (by destruct p); try done).
  - repeat case_match; simplify_eq; simpl in *;
      (eexists _, _, _; split; [reflexivity|]; simpl;
       split_and!; try (by destruct p); try done).
Qed.

Lemma queryPowerTransferStatus_located p ps s :
  mI2cClientPath s <> "" ->
  queryPowerTransferStatus (p :: ps) s
  = Done match read_file s (mI2cClientPath s +:+ kSinkLimitEnable) with
         | Some enabled =>
             (Status.SUCCESS,
              set_powerTransferLimited (String.eqb (Trim enabled) "1") p :: ps)
         | None => (Status.ERROR, p :: ps)
         end s.
Proof.
  intros Hpath%String.eqb_neq.
  unfold queryPowerTransferStatus, locateI2cClient, ReadFileToString,
    mbind, M_bind, gets, modify, mret, M_ret.
  rewrite Hpath. simpl. by destruct (read_file s _).
Qed.

Lemma powerTransferLimited_nonCompliantChargerPort s p :
  powerTransferLimited (nonCompliantChargerPort s p) = powerTransferLimited p.
Proof.
  rewrite nonCompliantChargerPort_unfold. cbv zeta.
  destruct (read_file s (complianceWarningsNode p)) as [reasons|]; [|by destruct p].
  set (p1 := foldl _ _ _).
  assert (H1 : powerTransferLimited p1 = powerTransferLimited p).
  { subst p1. generalize (Tokenize (c_str reasons) kReasonDelimiters). intros l.
    transitivity (powerTransferLimited (set_supportsComplianceWarnings true p));
      [|by destruct p].
    generalize (set_supportsComplianceWarnings true p).
    induction l as [|r l IH]; intros q; simpl; [done|].
    rewrite IH. unfold pushReason. repeat case_match; by destruct q. }
  case_match; [|done]. rewrite <- H1. by destruct p1.
Qed.

Lemma append_inj_r a b c : a +:+ b = a +:+ c -> b = c.
Proof.
  induction a as [|x a IH]; [done|].
  change (String x a +:+ b) with (String x (a +:+ b)).
  change (String x a +:+ c) with (String x (a +:+ c)).
  intros [= H]. by apply IH.
Qed.

Lemma contaminant_status_located p ps s :
  mI2cClientPath s <> "" ->
  exists st p' s',
    queryMoistureDetectionStatus (p :: ps) s = Done (st, p' :: ps) s'
    /\ mI2cClientPath s' = mI2cClientPath s /\ files s' = files s.
Proof.
  intros Hpath%String.eqb_neq.
  unfold queryMoistureDetectionStatus, locateI2cClient, ReadFileToString,
    mbind, M_bind, gets, modify, mret, M_ret.
  simpl. rewrite Hpath. simpl.
  repeat case_match; simplify_eq; simpl in *; by eexists _, _, _.
Qed.

(** The snapshot computation, sub-query by sub-query, once role
    detection has produced a first port. *)
Lemma queryVersionHelper_anatomy s st p ps :
  getPortStatusHelper s [] = Ok (st, p :: ps) ->
  exists st1 p1 s1 st2 p2 s2,
    queryMoistureDetectionStatus (p :: ps) s = Done (st1, p1 :: ps) s1
    /\ queryPowerTransferStatus (p1 :: ps) s1 = Done (st2, p2 :: ps) s2
    /\ queryFrame s s2
    /\ let snapshot := publishedFirst s2 p2 :: map (nonCompliantChargerPort s2) ps in
       queryVersionHelper [] s
       = Done snapshot
           (if mCallback s
            then set_trace (trace s2 ++ [notifyPortStatusChange snapshot st]) s2
            else s2).
Proof.
  intros Hg. unfold queryVersionHelper.
  unfold mbind, M_bind, lift, emit, modify, gets, mret, M_ret. cbv beta.
  rewrite Hg. cbv beta iota.
  destruct (queryMoistureDetectionStatus_run p ps s)
    as (st1 & p1 & s1 & Hm & Hf1 & _).
  destruct (queryPowerTransferStatus_run p1 ps s1)
    as (st2 & p2 & s2 & Hp & Hf2 & _).
  exists st1, p1, s1, st2, p2, s2.
  pose proof (queryFrame_trans _ _ _ Hf1 Hf2) as Hf.
  split; [done|]. split; [done|]. split; [done|].
  rewrite Hm. cbv beta iota. rewrite Hp. cbv beta iota.
  unfold queryNonCompliantChargerStatus, queryUsbDataSession. cbn [snd map].
  simpl lookup. cbv beta iota.
  assert (Hc : mCallback s2 = mCallback s) by apply Hf.
  rewrite Hc. by destruct (mCallback s).
Qed.

(** X26: a power-transfer limit shows in the snapshot that follows it.
    When [limitPowerTransfer] has written the sink limit switch and
    returns, the port status it publishes last has the first port
    marked as limited exactly when the limit was asked for. *)
Theorem power_limit_is_published in_portName (in_limit : bool) in_transactionId s s' :
  mCallback s = true ->
  i2cClient s <> "" ->
  writable s (i2cClient s +:+ kSinkLimitEnable) = true ->
  limitPowerTransfer in_portName in_limit in_transactionId s = Done tt s' ->
  exists snapshot st p0,
    last (trace s') = Some (notifyPortStatusChange snapshot st)
    /\ snapshot !! 0 = Some p0
    /\ powerTransferLimited p0 = in_limit.
Proof.
  intros Hcb Hi2c Hsink. unfold limitPowerTransfer, i2cClient in *.
  set (tail := queryVersionHelper [] ≫= (fun _ => mret tt)).
  assert (Htail : forall s0 : State,
    mCallback s0 = true ->
    mI2cClientPath s0 <> "" ->
    read_file s0 (mI2cClientPath s0 +:+ kSinkLimitEnable)
    = Some (if in_limit then "1" else "0") ->
    tail s0 = Done tt s' ->
    exists snapshot st p0,
      last (trace s') = Some (notifyPortStatusChange snapshot st)
      /\ snapshot !! 0 = Some p0
      /\ powerTransferLimited p0 = in_limit).
  { intros s0 Hcb0 Hpath0 Hread0. subst tail. unfold mbind, M_bind, mret, M_ret.
    destruct (getPortStatusHelper s0 []) as [[st [|p ps]]|f] eqn:Hg.
    - by rewrite (queryVersionHelper_empty _ _ _ Hg).
    - destruct (queryVersionHelper_anatomy _ _ _ _ Hg)
        as (st1 & p1 & s1 & st2 & p2 & s2 & Hm & Hp & Hf & Hrun).
      cbv zeta in Hrun. rewrite Hrun, Hcb0. intros [= <-].
      destruct (contaminant_status_located p ps s0 Hpath0)
        as (st1' & p1' & s1' & Hm' & Hpath1 & Hfiles1).
      rewrite Hm in Hm'. injection Hm' as <- <- <-.
      rewrite queryPowerTransferStatus_located in Hp by congruence.
      unfold read_file in Hp, Hread0. rewrite Hpath1, Hfiles1, Hread0 in Hp.
      injection Hp as <- <- <-.
      eexists _, st, _. split; [simpl; by rewrite last_snoc|].
      split; [reflexivity|].
      { unfold publishedFirst. cbv zeta.
        transitivity (powerTransferLimited
                        (nonCompliantChargerPort s1
                           (set_powerTransferLimited
                              (String.eqb (Trim (if in_limit then "1" else "0")) "1") p1)));
          [by destruct (nonCompliantChargerPort s1 _)|].
        rewrite powerTransferLimited_nonCompliantChargerPort.
        by destruct in_limit, p1. }
    - by rewrite (queryVersionHelper_fault _ _ _ Hg). }
  clearbody tail.
  unfold locateI2cClient.
  unfold mbind, M_bind, gets, emit, modify, mret, M_ret. cbv beta.
  destruct (String.eqb (mI2cClientPath s) "") eqn:Hpath; cbv beta iota; project.
  - apply String.eqb_neq in Hi2c. rewrite Hi2c. cbn [negb]. cbv beta iota.
    destruct in_limit; cbv beta iota; [attempt|];
      rewrite WriteStringToFile_run, ?writable_written, ?writable_located; project;
      rewrite Hsink; cbv beta iota; attempt; project; rewrite Hcb;
      destruct (0 <=? in_transactionId)%Z; cbn [andb]; cbv beta iota;
      (apply Htail; project;
       [done | done || by apply String.eqb_neq
       | unfold read_file; project;
         rewrite ?lookup_insert_ne by (intros H%append_inj_r; discriminate H);
         by rewrite lookup_insert_eq]).
  - cbn [negb]. cbv beta iota.
    destruct in_limit; cbv beta iota; [attempt|];
      rewrite WriteStringToFile_run, ?writable_written, ?writable_located; project;
      rewrite Hsink; cbv beta iota; attempt; project; rewrite Hcb;
      destruct (0 <=? in_transactionId)%Z; cbn [andb]; cbv beta iota;
      (apply Htail; project;
       [done | done || by apply String.eqb_neq
       | unfold read_file; project;
         rewrite ?lookup_insert_ne by (intros H%append_inj_r; discriminate H);
         by rewrite lookup_insert_eq]).
Qed.

Lemma power_limit_is_published_witness :
  exists s' snapshot st p0,
    limitPowerTransfer "port0" true 1 st_one_port = Done tt s'
    /\ last (trace s') = Some (notifyPortStatusChange snapshot st)
    /\ snapshot !! 0 = Some p0
    /\ powerTransferLimited p0 = true.
Proof.
  assert (H : limitPowerTransfer "port0" true 1 st_one_port
              = Done tt (final (limitPowerTransfer "port0" true 1 st_one_port)))
    by (vm_compute; reflexivity).
  assert (Hi2c : i2cClient st_one_port <> "") by (vm_compute; discriminate).
  assert (Hsink : writable st_one_port (i2cClient st_one_port +:+ kSinkLimitEnable)
                  = true) by (vm_compute; reflexivity).
  destruct (power_limit_is_published "port0" true 1 st_one_port _ eq_refl Hi2c Hsink H)
    as (snapshot & st & p0 & H1 & H2 & H3).
  exists (final (limitPowerTransfer "port0" true 1 st_one_port)), snapshot, st, p0.
  split; [exact H|]. split; [exact H1|]. split; [exact H2|exact H3].
Defined.

Lemma portStatusBody_portName s port p p' :
  portStatusBody s port p = Ok (true, p') -> portName p' = port.1.
Proof.
  intros (power & data & mode & q & _ & _ & _ & Hq & ->)%portStatusBody_complete.
  rewrite powerBrickStatusOf_only. apply usbDataStatusOf_only in Hq. rewrite Hq.
  by destruct p.
Qed.

(** X27: a snapshot that is computed lists the enumerated ports.  The
    port enumeration has then succeeded and found a port, the snapshot
    has one element per enumerated port, and when role detection
    returned SUCCESS the elements carry the names of the ports, each
    name once, in the order in which the map of the port names is
    iterated. *)
Theorem snapshot_lists_ports s snapshot s' :
  queryVersionHelper [] s = Done snapshot s' ->
  exists names st ports,
    getTypeCPortNamesHelper s ∅ = (Status.SUCCESS, names)
    /\ getPortStatusHelper s [] = Ok (st, ports)
    /\ 0 < size names
    /\ length snapshot = size names
    /\ (st = Status.SUCCESS ->
        portName <$> snapshot = (unordered_iteration s names).*1
        /\ NoDup (portName <$> snapshot)).
Proof.
  intros Hrun.
  destruct (getPortStatusHelper s []) as [[st [|p ps]]|f] eqn:Hg.
  - by rewrite (queryVersionHelper_empty _ _ _ Hg) in Hrun.
  - destruct (queryVersionHelper_run _ _ _ _ _ Hg) as (snap & s1 & _ & Hrun' & Hdet).
    rewrite Hrun' in Hrun. injection Hrun as -> _.
    assert (Hnames : portName <$> snapshot = portName <$> (p :: ps)).
    { change portName with ((fun d => d.1.1.1.1.1) ∘ detectionOf).
      by rewrite !list_fmap_compose, Hdet. }
    assert (Hlen : length snapshot = length (p :: ps)).
    { by rewrite <- (length_fmap detectionOf), Hdet, length_fmap. }
    unfold getPortStatusHelper in Hg.
    destruct (getTypeCPortNamesHelper s ∅) as [result names].
    case_bool_decide as Hres; [subst result|done].
    rewrite resize_nil in Hg.
    pose proof (portStatusLoop_length _ _ _ _ _ _ Hg) as Hlen'.
    rewrite length_replicate in Hlen'.
    exists names, st, (p :: ps). split; [done|]. split; [done|].
    split; [rewrite <- Hlen'; simpl; lia|].
    split; [congruence|].
    intros ->. rewrite <- (length_unordered_iteration s names) in Hg.
    apply (portStatusLoop_success s (unordered_iteration s names) []) in Hg
      as (found & Hall & Hfound).
    simpl in Hfound. rewrite Hnames, Hfound.
    assert (Hfst : portName <$> found = (unordered_iteration s names).*1).
    { clear -Hall. induction Hall as [|port q l k Hq _ IH]; [done|].
      rewrite !fmap_cons. f_equal; [|done].
      by apply portStatusBody_portName in Hq. }
    rewrite Hfst. split; [done|].
    rewrite unordered_iteration_Permutation. apply NoDup_fst_map_to_list.
  - by rewrite (queryVersionHelper_fault _ _ _ Hg) in Hrun.
Qed.

Lemma snapshot_lists_ports_witness :
  exists names st ports,
    getTypeCPortNamesHelper st_two_ports ∅ = (Status.SUCCESS, names)
    /\ getPortStatusHelper st_two_ports [] = Ok (st, ports)
    /\ 0 < size names
    /\ length (final_snapshot st_two_ports) = size names
    /\ (st = Status.SUCCESS ->
        portName <$> final_snapshot st_two_ports = ["port0"; "port1"]).
Proof.
  assert (H : queryVersionHelper [] st_two_ports
              = Done (final_snapshot st_two_ports)
                  (final (queryVersionHelper [] st_two_ports)))
    by (vm_compute; reflexivity).
  destruct (snapshot_lists_ports st_two_ports _ _ H)
    as (names & st & ports & H1 & H2 & H3 & H4 & H5).
  exists names, st, ports.
  split; [exact H1|]. split; [exact H2|]. split; [exact H3|]. split; [exact H4|].
  intros Hst. vm_compute. reflexivity.
Defined.

(** X29: [queryPortStatus] with a subscriber.  When role detection
    produces a first port, the snapshot is published with the status
    of role detection, and after it the outcome of the query, which is
    SUCCESS whatever that status was; these are the only two events.
    Otherwise the snapshot computation faults and nothing is
    published. *)
Theorem queryPortStatus_outcome in_transactionId s :
  mCallback s = true ->
  match getPortStatusHelper s [] with
  | Ok (st, p :: ps) =>
      exists snapshot s',
        queryPortStatus in_transactionId s = Done tt s'
        /\ length snapshot = S (length ps)
        /\ trace s'
           = trace s ++ [notifyPortStatusChange snapshot st;
                         notifyQueryPortStatus "all" Status.SUCCESS in_transactionId]
  | Ok (_, []) => queryPortStatus in_transactionId s = Crash OutOfBounds s
  | Err f => queryPortStatus in_transactionId s = Crash f s
  end.
Proof.
  intros Hcb. unfold queryPortStatus.
  destruct (getPortStatusHelper s []) as [[st [|p ps]]|f] eqn:Hg.
  - unfold mbind, M_bind. by rewrite (queryVersionHelper_empty _ _ _ Hg).
  - destruct (queryVersionHelper_run _ _ _ _ _ Hg)
      as (snapshot & s1 & Hf & Hrun & Hdet).
    unfold mbind, M_bind, gets, emit, modify, mret, M_ret. rewrite Hrun, Hcb.
    cbv beta iota. project. destruct Hf as (Hc1 & _ & _ & _ & _ & _ & _ & Htr & _).
    rewrite Hc1, Hcb. exists snapshot. eexists. split; [reflexivity|]. split.
    + by rewrite <- (length_fmap detectionOf), Hdet, length_fmap.
    + simpl. by rewrite Htr, <- app_assoc.
  - unfold mbind, M_bind. by rewrite (queryVersionHelper_fault _ _ _ Hg).
Qed.

Lemma queryPortStatus_outcome_witness :
  exists st snapshot s',
    queryPortStatus 8 st_one_port = Done tt s'
    /\ trace s' = [notifyPortStatusChange snapshot st;
                   notifyQueryPortStatus "all" Status.SUCCESS 8].
Proof.
  pose proof (queryPortStatus_outcome 8%Z st_one_port eq_refl) as H.
  destruct (getPortStatusHelper st_one_port []) as [[st [|p ps]]|f] eqn:Hg.
  - vm_compute in Hg. discriminate Hg.
  - destruct H as (snapshot & s' & H1 & _ & H3).
    exists st, snapshot, s'. split; [exact H1|exact H3].
  - vm_compute in Hg. discriminate Hg.
Defined.
